(** * Ableton Live Set mixing scripts: unit codec, document model and mutation engine

    A shallow embedding of [scripts/modify_als.py] (the mutation engine) and of
    the unit codec and parameter reader of [scripts/parse_als.py].

    Modelling conventions.
    - An [xml.etree.ElementTree.Element] is a tag, an ordered attribute
      dictionary (string keys, string values) and an ordered list of children.
      Text and tail are never read or written by the scripts and are left out.
    - Python mutates the tree in place through object references.  A reference
      into the tree is a position (the list of child indices from the root);
      every write is a functional update at a position.
    - Python strings are byte strings restricted to ASCII ([upper], [strip]).
    - Python [int] is [Z].  Python [float] is idealised: a finite float is a
      real number (rounding, overflow and underflow are not modelled), and the
      three non-finite values are explicit constructors.
    - The text produced by [str(x)] for a float [x] is left abstract: it is a
      parameter of the engine. *)

From Stdlib Require Import List String Ascii ZArith Lia Bool Arith.
From Stdlib Require Import DecimalString DecimalZ DecimalPos DecimalFacts.
From Stdlib Require Import Reals Lra.
From Stdlib Require Import Permutation.
Import ListNotations.

Open Scope string_scope.
Open Scope list_scope.
Open Scope nat_scope.

(** String concatenation, kept apart from list append. *)
Infix "+++" := String.append (right associativity, at level 60).

(* ================================================================= *)
(** ** Python strings *)

Module PyStr.

Definition chars (s : string) : list ascii := list_ascii_of_string s.
Definition of_chars (l : list ascii) : string := string_of_list_ascii l.

(** [c.isspace()] on ASCII: TAB..CR, FS..US and the space. *)
Definition is_space (c : ascii) : bool :=
  let n := nat_of_ascii c in
  ((9 <=? n) && (n <=? 13)) || ((28 <=? n) && (n <=? 32)).

Definition is_digit (c : ascii) : bool :=
  let n := nat_of_ascii c in (48 <=? n) && (n <=? 57).

Definition upper_char (c : ascii) : ascii :=
  let n := nat_of_ascii c in
  if (97 <=? n) && (n <=? 122) then ascii_of_nat (n - 32) else c.

(** [s.upper()] *)
Definition upper (s : string) : string := of_chars (map upper_char (chars s)).

Fixpoint lstrip_chars (l : list ascii) : list ascii :=
  match l with
  | c :: r => if is_space c then lstrip_chars r else l
  | [] => []
  end.

Definition rstrip_chars (l : list ascii) : list ascii :=
  rev (lstrip_chars (rev l)).

(** [s.strip()] *)
Definition strip (s : string) : string :=
  of_chars (rstrip_chars (lstrip_chars (chars s))).

(** [s.startswith(p)] *)
Definition startswith (p s : string) : bool := String.prefix p s.

Fixpoint prefix_chars (p l : list ascii) : bool :=
  match p, l with
  | [], _ => true
  | a :: p', b :: l' => Ascii.eqb a b && prefix_chars p' l'
  | _ :: _, [] => false
  end.

(** [s.endswith(p)] *)
Definition endswith (p s : string) : bool :=
  prefix_chars (rev (chars p)) (rev (chars s)).

(** [p in s] for strings: [p] occurs as a contiguous substring of [s]. *)
Fixpoint contains_chars (p l : list ascii) : bool :=
  prefix_chars p l ||
  match l with
  | [] => false
  | _ :: l' => contains_chars p l'
  end.

Definition contains (p s : string) : bool := contains_chars (chars p) (chars s).

(** [s[:-1]] *)
Definition drop_last (s : string) : string := of_chars (removelast (chars s)).

(** [s[n:]] *)
Definition drop (n : nat) (s : string) : string := of_chars (skipn n (chars s)).

(** [s.split(sep)] for a one-character separator: never returns the empty
    list; the last field is returned even when empty. *)
Fixpoint split_chars (sep : ascii) (cur : list ascii) (l : list ascii)
  : list (list ascii) :=
  match l with
  | [] => [rev cur]
  | c :: r => if Ascii.eqb c sep then rev cur :: split_chars sep [] r
              else split_chars sep (c :: cur) r
  end.

Definition split (sep : ascii) (s : string) : list string :=
  map of_chars (split_chars sep [] (chars s)).

End PyStr.

(* ================================================================= *)
(** ** Python [int]: [str(n)] and [int(s)] *)

Module PyInt.

(** [str(n)] for an integer: canonical decimal, ["-"] for negatives. *)
Definition str (n : Z) : string := NilZero.string_of_int (Z.to_int n).

Fixpoint all_digits (l : list ascii) : bool :=
  match l with
  | [] => true
  | c :: r => PyStr.is_digit c && all_digits r
  end.

(** Digit groups of an integer literal: digits, with single underscores
    allowed between digits.  Returns the digits with underscores removed. *)
Fixpoint digit_groups (prev_digit : bool) (l : list ascii) : option (list ascii) :=
  match l with
  | [] => if prev_digit then Some [] else None
  | c :: r =>
      if PyStr.is_digit c then
        option_map (cons c) (digit_groups true r)
      else if Ascii.eqb c "_"%char then
        if prev_digit then digit_groups false r else None
      else None
  end.

Definition unsigned_of_chars (l : list ascii) : option Z :=
  match digit_groups false l with
  | Some ds =>
      match NilEmpty.uint_of_string (PyStr.of_chars ds) with
      | Some d => Some (Z.of_uint d)
      | None => None
      end
  | None => None
  end.

(** [int(s)]: [None] stands for [ValueError]. *)
Definition parse (s : string) : option Z :=
  match PyStr.chars (PyStr.strip s) with
  | c :: r =>
      if Ascii.eqb c "-"%char then option_map Z.opp (unsigned_of_chars r)
      else if Ascii.eqb c "+"%char then unsigned_of_chars r
      else unsigned_of_chars (c :: r)
  | [] => None
  end.

End PyInt.

(* ================================================================= *)
(** ** The document model: [xml.etree.ElementTree] *)

#[local] Set Warnings "-register-all".

Inductive Element : Type :=
| Elem (tag : string) (attrib : list (string * string)) (children : list Element).

Definition tag (e : Element) : string :=
  match e with Elem t _ _ => t end.
Definition attrib (e : Element) : list (string * string) :=
  match e with Elem _ a _ => a end.
Definition children (e : Element) : list Element :=
  match e with Elem _ _ cs => cs end.

(** *** Attribute dictionaries *)

(** [d.get(k)] *)
Fixpoint dict_get (k : string) (d : list (string * string)) : option string :=
  match d with
  | [] => None
  | (k', v) :: r => if String.eqb k' k then Some v else dict_get k r
  end.

(** [k in d] *)
Definition dict_mem (k : string) (d : list (string * string)) : bool :=
  match dict_get k d with Some _ => true | None => false end.

(** [d[k] = v]: an existing key keeps its place, a new key goes last. *)
Fixpoint dict_set (k v : string) (d : list (string * string)) : list (string * string) :=
  match d with
  | [] => [(k, v)]
  | (k', v') :: r => if String.eqb k' k then (k, v) :: r else (k', v') :: dict_set k v r
  end.

(** [el.get(k)], [el.get(k, default)], [el.set(k, v)], [k in el.attrib] *)
Definition get (k : string) (e : Element) : option string := dict_get k (attrib e).
Definition get_default (k dflt : string) (e : Element) : string :=
  match get k e with Some v => v | None => dflt end.
Definition set (k v : string) (e : Element) : Element :=
  match e with Elem t a cs => Elem t (dict_set k v a) cs end.
Definition has_attr (k : string) (e : Element) : bool := dict_mem k (attrib e).

(** *** Positions: references into the tree *)

Definition pos := list nat.

Fixpoint get_at (p : pos) (e : Element) : option Element :=
  match p with
  | [] => Some e
  | i :: q =>
      match nth_error (children e) i with
      | Some c => get_at q c
      | None => None
      end
  end.

Fixpoint update_nth {A} (f : A -> A) (i : nat) (l : list A) : list A :=
  match l, i with
  | [], _ => []
  | x :: r, O => f x :: r
  | x :: r, S j => x :: update_nth f j r
  end.

(** In-place mutation of the element at position [p]. *)
Fixpoint update_at (f : Element -> Element) (p : pos) (e : Element) : Element :=
  match p with
  | [] => f e
  | i :: q =>
      match e with
      | Elem t a cs => Elem t a (update_nth (update_at f q) i cs)
      end
  end.

(** [el.set(k, v)] on the element referenced by [p]. *)
Definition set_at (p : pos) (k v : string) (root : Element) : Element :=
  update_at (set k v) p root.

(** [parent.insert(i, c)] on a list, for an index already clamped to
    [0 .. len]. *)
Definition list_insert {A} (i : nat) (c : A) (l : list A) : list A :=
  firstn i l ++ c :: skipn i l.

Definition insert_child (i : nat) (c : Element) (e : Element) : Element :=
  match e with Elem t a cs => Elem t a (list_insert i c cs) end.

(** *** Traversal and search *)

(** [el.iter()]: the element and all its descendants, in document order. *)
Fixpoint iter (e : Element) : list Element :=
  match e with
  | Elem _ _ cs => e :: flat_map iter cs
  end.

(** The same traversal, each element with its position relative to [e]. *)
Fixpoint iter_pos (e : Element) : list (pos * Element) :=
  match e with
  | Elem _ _ cs =>
      ([], e) ::
      (fix go (i : nat) (l : list Element) : list (pos * Element) :=
         match l with
         | [] => []
         | c :: r => map (fun pe => (i :: fst pe, snd pe)) (iter_pos c) ++ go (S i) r
         end) 0%nat cs
  end.

(** First index [i >= i0] (counting from [i0] at the head) whose element
    yields a result. *)
Fixpoint first_some {A B} (f : nat -> A -> option B) (i0 : nat) (l : list A) : option B :=
  match l with
  | [] => None
  | x :: r =>
      match f i0 x with
      | Some y => Some y
      | None => first_some f (S i0) r
      end
  end.

(** [el.find("t1/t2/.../tn")]: the first element, in document order, reached
    from [el] by a chain of children with these tags.  Each step is a plain
    tag name (no wildcard or predicate). *)
Fixpoint find_path (path : list string) (e : Element) : option pos :=
  match path with
  | [] => Some []
  | t :: rest =>
      first_some
        (fun i c =>
           if String.eqb (tag c) t
           then option_map (cons i) (find_path rest c)
           else None)
        0%nat (children e)
  end.

(** [el.find(".//t/t1/.../tn")]: as above, starting from every proper
    descendant of [el] with tag [t], in document order. *)
Definition find_desc (t : string) (rest : list string) (e : Element) : option pos :=
  first_some
    (fun _ pe =>
       if String.eqb (tag (snd pe)) t
       then option_map (app (fst pe)) (find_path rest (snd pe))
       else None)
    0%nat (tl (iter_pos e)).

(** [el.find(p)] followed by dereferencing. *)
Definition find (path : list string) (e : Element) : option Element :=
  match find_path path e with
  | Some p => get_at p e
  | None => None
  end.

(* ================================================================= *)
(** [el.find(".//t/...")] followed by dereferencing. *)
Definition find_descendant (t : string) (rest : list string) (e : Element)
  : option Element :=
  match find_desc t rest e with
  | Some p => get_at p e
  | None => None
  end.

(* ================================================================= *)
(** ** Python [float], idealised *)

Module PyFloat.

Local Open Scope R_scope.

Inductive t : Type :=
| Fin (x : R)
| PInf
| NInf
| NaN.

Definition Rleb (x y : R) : bool := if Rle_dec x y then true else false.
Definition Rltb (x y : R) : bool := if Rlt_dec x y then true else false.

(** Comparisons against a finite constant; every comparison with [nan] is
    false. *)
Definition leb (a : t) (c : R) : bool :=
  match a with Fin x => Rleb x c | NInf => true | PInf | NaN => false end.
Definition ltb (a : t) (c : R) : bool :=
  match a with Fin x => Rltb x c | NInf => true | PInf | NaN => false end.
Definition gtb (a : t) (c : R) : bool :=
  match a with Fin x => Rltb c x | PInf => true | NInf | NaN => false end.

(** [-a] *)
Definition neg (a : t) : t :=
  match a with Fin x => Fin (- x) | PInf => NInf | NInf => PInf | NaN => NaN end.

(** [abs(a)] *)
Definition abs (a : t) : t :=
  match a with Fin x => Fin (Rabs x) | PInf | NInf => PInf | NaN => NaN end.

(** [a / c] and [a * c] for a finite constant [c > 0]. *)
Definition div_pos (a : t) (c : R) : t :=
  match a with Fin x => Fin (x / c) | other => other end.
Definition mul_pos (a : t) (c : R) : t :=
  match a with Fin x => Fin (x * c) | other => other end.

(** The largest finite float, [sys.float_info.max]. *)
Definition max_float : R := (2 - / 2 ^ 52) * 2 ^ 1023.
Arguments max_float : simpl never.

(** [10 ** a]; [None] stands for the [OverflowError] raised when the power
    of a finite exponent is beyond the largest finite float. *)
Definition pow10 (a : t) : option t :=
  match a with
  | Fin x => if Rleb (Rpower 10 x) max_float then Some (Fin (Rpower 10 x)) else None
  | PInf => Some PInf
  | NInf => Some (Fin 0)
  | NaN => Some NaN
  end.

(** [math.log10(a)].  Every call site guards the call by [a > 0.0003163] or
    reaches it with [nan]; on those arguments [math.log10] does not raise. *)
Definition log10 (a : t) : t :=
  match a with
  | Fin x => Fin (ln x / ln 10)
  | PInf => PInf
  | NInf => NaN
  | NaN => NaN
  end.

(** Rounding to the nearest integer, ties to even. *)
Definition round_half_even (x : R) : Z :=
  let n := Int_part x in
  let f := x - IZR n in
  if Rlt_dec f (1 / 2) then n
  else if Rlt_dec (1 / 2) f then (n + 1)%Z
  else if Z.even n then n else (n + 1)%Z.

Fixpoint zero_pad (width : nat) (s : string) : string :=
  match width with
  | O => s
  | S w => if Nat.ltb (String.length s) width then zero_pad w ("0" +++ s) else s
  end.

(** [format(a, ".{digits}f")], with a leading [+] when [plus] is set. *)
Definition format_f (plus : bool) (digits : nat) (a : t) : string :=
  let positive := if plus then "+" else "" in
  match a with
  | Fin x =>
      let m := round_half_even (Rabs x * 10 ^ digits) in
      let scale := (10 ^ Z.of_nat digits)%Z in
      let whole := PyInt.str (m / scale) in
      let frac :=
        match digits with
        | O => ""
        | _ => "." +++ zero_pad digits (PyInt.str (m mod scale))
        end in
      (if Rlt_dec x 0 then "-" else positive) +++ whole +++ frac
  | PInf => positive +++ "inf"
  | NInf => "-inf"
  | NaN => positive +++ "nan"
  end.

(** *** [float(s)] *)

Fixpoint split_at (sep : ascii -> bool) (l : list ascii)
  : list ascii * option (list ascii) :=
  match l with
  | [] => ([], None)
  | c :: r =>
      if sep c then ([], Some r)
      else let '(a, b) := split_at sep r in (c :: a, b)
  end.

Definition is_exp_char (c : ascii) : bool :=
  Ascii.eqb c "e"%char || Ascii.eqb c "E"%char.
Definition is_dot (c : ascii) : bool := Ascii.eqb c "."%char.

(** Digits of a digit part (underscores removed); the empty part is allowed
    when [allow_empty]. *)
Definition digit_part (allow_empty : bool) (l : list ascii) : option (list ascii) :=
  match l with
  | [] => if allow_empty then Some [] else None
  | _ => PyInt.digit_groups false l
  end.

Definition nat_of_digits (ds : list ascii) : option Z :=
  match ds with
  | [] => Some 0%Z
  | _ =>
      match NilEmpty.uint_of_string (PyStr.of_chars ds) with
      | Some d => Some (Z.of_uint d)
      | None => None
      end
  end.

(** The exponent of a float literal: an optional sign and a digit part. *)
Definition exponent (l : list ascii) : option Z :=
  let '(negative, body) :=
    match l with
    | c :: r =>
        if Ascii.eqb c "-"%char then (true, r)
        else if Ascii.eqb c "+"%char then (false, r)
        else (false, l)
    | [] => (false, l)
    end in
  match digit_part false body with
  | Some ds =>
      match nat_of_digits ds with
      | Some e => Some (if negative then (- e)%Z else e)
      | None => None
      end
  | None => None
  end.

(** An unsigned decimal literal: [digits[.digits][e[+-]digits]] with at least
    one digit before the exponent. *)
Definition decimal (l : list ascii) : option R :=
  let '(mant, ex) := split_at is_exp_char l in
  let '(ip, fp) := split_at is_dot mant in
  let fpart := match fp with Some f => f | None => [] end in
  match digit_part true ip, digit_part true fpart with
  | Some ids, Some fds =>
      match ids ++ fds with
      | [] => None
      | ds =>
          match nat_of_digits ds,
                match ex with Some x => exponent x | None => Some 0%Z end with
          | Some m, Some e =>
              Some (IZR m * powerRZ 10 (e - Z.of_nat (List.length fds)))
          | _, _ => None
          end
      end
  | _, _ => None
  end.

Definition unsigned (l : list ascii) : option t :=
  let u := PyStr.upper (PyStr.of_chars l) in
  if String.eqb u "INF" || String.eqb u "INFINITY" then Some PInf
  else if String.eqb u "NAN" then Some NaN
  else option_map Fin (decimal l).

(** [float(s)] for a string: [None] stands for [ValueError]. *)
Definition parse (s : string) : option t :=
  match PyStr.chars (PyStr.strip s) with
  | c :: r =>
      if Ascii.eqb c "-"%char then option_map neg (unsigned r)
      else if Ascii.eqb c "+"%char then unsigned r
      else unsigned (c :: r)
  | [] => None
  end.

End PyFloat.

(** Exceptions raised by the scripts' own statements. *)
Inductive exn : Type :=
  ValueError | TypeError | AttributeError | IndexError | OverflowError.

(** A dynamically typed Python value, as far as the scripts pass it around:
    [None], a string (an attribute value), or a float. *)
Inductive pyvalue : Type :=
| PyNone
| PyString (s : string)
| PyFloatV (x : PyFloat.t).

(** [float(value)]; [None] stands for [TypeError] or [ValueError]. *)
Definition to_float (value : pyvalue) : option PyFloat.t :=
  match value with
  | PyNone => None
  | PyString s => PyFloat.parse s
  | PyFloatV x => Some x
  end.

(* ================================================================= *)
(** ** Unit codec *)

Section Codec.

Local Open Scope R_scope.

(** [modify_als.db_to_linear]; the argument [None] is Python's [None], the
    result [None] stands for the [OverflowError] of [10 ** (db / 20.0)]. *)
Definition db_to_linear (db : option PyFloat.t) : option PyFloat.t :=
  match db with
  | None => Some (PyFloat.Fin 0.0003162277571)
  | Some d =>
      if PyFloat.leb d (-70) then Some (PyFloat.Fin 0.0003162277571)
      else PyFloat.pow10 (PyFloat.div_pos d 20)
  end.

(** [parse_als.vol_to_db]; the result [None] is Python's [None]. *)
Definition vol_to_db (value : pyvalue) : option PyFloat.t :=
  match to_float value with
  | None => None
  | Some v =>
      if PyFloat.leb v 0.0003163 then Some PyFloat.NInf
      else Some (PyFloat.mul_pos (PyFloat.log10 v) 20)
  end.

(** [modify_als.pan_str_to_value], applied to [str(pan_str)]; [None] stands
    for the [ValueError] raised by [float]. *)
Definition pan_str_to_value (pan_str : string) : option PyFloat.t :=
  let pan_str := PyStr.strip pan_str in
  if String.eqb (PyStr.upper pan_str) "C" || String.eqb pan_str "0" then
    Some (PyFloat.Fin 0)
  else if PyStr.endswith "L" (PyStr.upper pan_str) then
    match PyFloat.parse (PyStr.drop_last pan_str) with
    | Some p => Some (PyFloat.neg (PyFloat.div_pos p 50))
    | None => None
    end
  else if PyStr.endswith "R" (PyStr.upper pan_str) then
    match PyFloat.parse (PyStr.drop_last pan_str) with
    | Some p => Some (PyFloat.div_pos p 50)
    | None => None
    end
  else PyFloat.parse pan_str.

(** [parse_als.pan_to_str] *)
Definition pan_to_str (value : pyvalue) : string :=
  match to_float value with
  | None => "N/A"
  | Some v =>
      if PyFloat.ltb (PyFloat.abs v) 0.01 then "C"
      else
        let p := PyFloat.mul_pos (PyFloat.abs v) 50 in
        let direction := if PyFloat.ltb v 0 then "L" else "R" in
        PyFloat.format_f false 0 p +++ direction
  end.

End Codec.

(* ================================================================= *)
(** ** Parameter reader ([parse_als.get_param_value]) *)

(** [get_param_value(element, param_name)]; [param_name] is an ElementTree
    path, given here by its steps. *)
Definition get_param_value (element : Element) (param_name : list string)
  : option string :=
  match find param_name element with
  | None => None
  | Some child =>
      match find ["Manual"] child with
      | Some manual => get "Value" manual
      | None => get "Value" child
      end
  end.

(* ================================================================= *)
(** ** Mutation engine ([modify_als.py]) *)

(** [find] relative to the element referenced by [p]; the result is again a
    position from the root. *)
Definition find_at (p : pos) (path : list string) (root : Element) : option pos :=
  match get_at p root with
  | Some e => option_map (app p) (find_path path e)
  | None => None
  end.

Definition find_desc_at (p : pos) (t : string) (rest : list string) (root : Element)
  : option pos :=
  match get_at p root with
  | Some e => option_map (app p) (find_desc t rest e)
  | None => None
  end.

(** [list(el)] for the element referenced by [p]. *)
Definition children_at (p : pos) (root : Element) : list Element :=
  match get_at p root with
  | Some e => children e
  | None => []
  end.

(** [el.get(k, default)] for the element referenced by [p]. *)
Definition get_at_default (p : pos) (k dflt : string) (root : Element) : string :=
  match get_at p root with
  | Some e => get_default k dflt e
  | None => dflt
  end.

(** Indices of the elements of [l] satisfying [f], in order. *)
Fixpoint indices_where {A} (f : A -> bool) (i0 : nat) (l : list A) : list nat :=
  match l with
  | [] => []
  | x :: r => if f x then i0 :: indices_where f (S i0) r else indices_where f (S i0) r
  end.

(** [l[i]] with Python's negative indices; [None] stands for [IndexError]. *)
Definition py_index {A} (l : list A) (i : Z) : option A :=
  let n := Z.of_nat (List.length l) in
  if (0 <=? i)%Z then nth_error l (Z.to_nat i)
  else if (- n <=? i)%Z then nth_error l (Z.to_nat (n + i))
  else None.

(** The index at which [list.insert(i, x)] places [x]. *)
Definition py_insert_index (len : nat) (i : Z) : nat :=
  let n := Z.of_nat len in
  if (i <? 0)%Z then Z.to_nat (Z.max 0 (i + n))
  else Z.to_nat (Z.min i n).

(** [find_tracks_by_name]: the matching children of [tracks_el], as child
    indices. *)
Definition find_tracks_by_name (tracks_el : Element) (name : string)
           (track_type : option string) : list nat :=
  indices_where
    (fun track =>
       match find_descendant "Name" ["EffectiveName"] track with
       | None => false
       | Some name_el =>
           match get "Value" name_el with
           | Some v =>
               String.eqb v name &&
               match track_type with
               | None => true
               | Some ty => String.eqb (tag track) ty
               end
           | None => false
           end
       end)
    0 (children tracks_el).

(** [DB_LINEAR_PARAMS] membership. *)
Definition DB_LINEAR_PARAMS (device_tag param_name : string) : bool :=
  (String.eqb device_tag "Compressor2" && String.eqb param_name "Threshold") ||
  (String.eqb device_tag "Compressor2" && String.eqb param_name "OutputGain") ||
  (String.eqb device_tag "Gate" && String.eqb param_name "Threshold") ||
  (String.eqb device_tag "Gate" && String.eqb param_name "Return").

(** [find_max_id] *)
Definition find_max_id (root : Element) : Z :=
  fold_left
    (fun max_id el =>
       match get "Id" el with
       | Some id_val =>
           match PyInt.parse id_val with
           | Some n => Z.max max_id n
           | None => max_id
           end
       | None => max_id
       end)
    (iter root) 0%Z.

(** [find_donor_device]: the first element of the document with the tag. *)
Definition find_donor_pos (root : Element) (device_tag : string) : option pos :=
  first_some
    (fun _ pe => if String.eqb (tag (snd pe)) device_tag then Some (fst pe) else None)
    0 (iter_pos root).

Definition find_donor_device (root : Element) (device_tag : string) : option Element :=
  match find_donor_pos root device_tag with
  | Some p => get_at p root
  | None => None
  end.

(** [remap_ids]: returns the rewritten tree and the next unused id. *)
Fixpoint remap_ids (element : Element) (start_id : Z) : Element * Z :=
  match element with
  | Elem t a cs =>
      let '(a', next_id) :=
        if dict_mem "Id" a
        then (dict_set "Id" (PyInt.str start_id) a, (start_id + 1)%Z)
        else (a, start_id) in
      let '(cs', next_id') :=
        (fix go (l : list Element) (n : Z) : list Element * Z :=
           match l with
           | [] => ([], n)
           | c :: r =>
               let '(c', n1) := remap_ids c n in
               let '(r', n2) := go r n1 in
               (c' :: r', n2)
           end) cs next_id in
      (Elem t a' cs', next_id')
  end.

(** [el = device.find(path); if el is not None: el.set("Value", v)] *)
Definition set_if_found (path : list string) (v : string) (device : Element) : Element :=
  match find_path path device with
  | Some p => set_at p "Value" v device
  | None => device
  end.

(** [reset_eq8_defaults] *)
Definition reset_eq8_band (i : nat) (param_set : string) (device : Element) : Element :=
  let prefix := ["Bands." +++ PyInt.str (Z.of_nat i); param_set] in
  let device := set_if_found (prefix ++ ["IsOn"; "Manual"]) "false" device in
  let device := set_if_found (prefix ++ ["Gain"; "Manual"]) "0" device in
  set_if_found (prefix ++ ["Q"; "Manual"]) "0.7071067" device.

Definition reset_eq8_defaults (device : Element) : Element :=
  fold_left
    (fun device i =>
       fold_left (fun device param_set => reset_eq8_band i param_set device)
                 ["ParameterA"; "ParameterB"] device)
    (seq 0 8) device.

Inductive param_value : Type :=
| PInt (n : Z)
| PNum (x : PyFloat.t)
| PText (s : string).

(** The payload of a change request, by its ["target"] key. *)
Inductive target : Type :=
| Volume (value : option PyFloat.t)
| Pan (value : string)
| Send (send_index : Z) (value : option PyFloat.t)
| DeviceParam (device_tag : string) (device_index : Z) (param_name : string)
              (param_val : param_value) (device_name : option string)
| AddDevice (device_tag : string) (position : Z)
            (params : list (string * param_value)) (device_name : option string)
| GroupVolume (value : option PyFloat.t)
| OtherTarget (name : string).

Record change : Type := {
  track_name : string;
  track_type : option string;
  track_index : Z;
  change_target : target
}.

(** What [apply_change] does: it returns its descriptions, or an exception
    escapes it.  Both carry the document as the call leaves it. *)
Inductive outcome : Type :=
| Return (root : Element) (tracks : pos) (descriptions : list string)
| Raise (root : Element) (e : exn).

(** [chr(n)], UTF-8 encoded; [None] stands for [ValueError]. *)
Definition py_chr (n : Z) : option string :=
  let b (k : Z) := String (ascii_of_N (Z.to_N k)) EmptyString in
  let cont (k : Z) := b (128 + k mod 64)%Z in
  if (n <? 0)%Z then None
  else if (n <? 128)%Z then Some (b n)
  else if (n <? 2048)%Z then Some (b (192 + n / 64)%Z +++ cont n)
  else if (n <? 65536)%Z then
    Some (b (224 + n / 4096)%Z +++ cont (n / 64)%Z +++ cont n)
  else if (n <? 1114112)%Z then
    Some (b (240 + n / 262144)%Z +++ cont (n / 4096)%Z +++ cont (n / 64)%Z +++ cont n)
  else None.

(** The arrow of the descriptions (U+2192, UTF-8). *)
Definition arrow : string :=
  String (ascii_of_nat 226) (String (ascii_of_nat 134) (String (ascii_of_nat 146) EmptyString)).

Section Engine.

(** [str(x)] for a float [x]: the shortest decimal text that reads back as
    [x].  The engine only stores and prints this text. *)
Variable float_str : PyFloat.t -> string.

(** [str(v)] and [float(v)] for a JSON parameter value. *)
Definition param_str (v : param_value) : string :=
  match v with
  | PInt n => PyInt.str n
  | PNum x => float_str x
  | PText s => s
  end.

(** [float(v)] raises [OverflowError] for an integer beyond the largest
    finite float and [ValueError] for text that is no number. *)
Definition param_float (v : param_value) : PyFloat.t + exn :=
  match v with
  | PInt n =>
      if PyFloat.Rleb (Rabs (IZR n)) PyFloat.max_float then inl (PyFloat.Fin (IZR n))
      else inr OverflowError
  | PNum x => inl x
  | PText s =>
      match PyFloat.parse s with
      | Some x => inl x
      | None => inr ValueError
      end
  end.

(** [str(db_to_linear(0))]: the call returns [10 ** 0.0] and does not
    raise. *)
Definition zero_db_text : string :=
  match db_to_linear (Some (PyFloat.Fin 0%R)) with
  | Some linear => float_str linear
  | None => ""
  end.

(** [reset_compressor_defaults] *)
Definition compressor_defaults : list (string * string) :=
  [ ("Threshold", zero_db_text);
    ("Ratio", "2");
    ("Attack", "10");
    ("Release", "100");
    ("DryWet", "1");
    ("GainCompensation", "true") ].

Definition reset_compressor_defaults (device : Element) : Element :=
  fold_left
    (fun device pv => set_if_found [fst pv; "Manual"] (snd pv) device)
    compressor_defaults device.

(** [DEVICE_RESETTERS.get(device_tag)] *)
Definition DEVICE_RESETTERS (device_tag : string) : option (Element -> Element) :=
  if String.eqb device_tag "Eq8" then Some reset_eq8_defaults
  else if String.eqb device_tag "Compressor2" then Some reset_compressor_defaults
  else None.

(** [find_device]: [inl None] when no device is found, [inr IndexError] when
    indexing the matches raises. *)
Definition find_device (root : Element) (track_el : pos) (device_tag : string)
           (device_index : Z) : option pos + exn :=
  match find_at track_el ["DeviceChain"; "DeviceChain"; "Devices"] root with
  | None => inl None
  | Some devices_el =>
      let matches :=
        indices_where (fun d => String.eqb (tag d) device_tag) 0
                      (children_at devices_el root) in
      if (device_index <? Z.of_nat (List.length matches))%Z then
        match py_index matches device_index with
        | Some i => inl (Some (devices_el ++ [i]))
        | None => inr IndexError
        end
      else inl None
  end.

(** The loop of [set_param_value] over [parts[:-1]]. *)
Fixpoint descend (parts : list string) (current : pos) (element : Element) : option pos :=
  match parts with
  | [] => Some current
  | part :: rest =>
      match find_at current [part] element with
      | Some next => descend rest next element
      | None => None
      end
  end.

(** The element [set_param_value] writes to, if any. *)
Definition param_target (element : Element) (param_path : string) : option pos :=
  let parts := PyStr.split "/" param_path in
  match descend (removelast parts) [] element with
  | None => None
  | Some current =>
      match find_at current [last parts ""] element with
      | None => None
      | Some target =>
          match find_at target ["Manual"] element with
          | Some manual => Some manual
          | None =>
              match get_at target element with
              | Some t => if has_attr "Value" t then Some target else None
              | None => None
              end
          end
      end
  end.

(** [set_param_value(element, param_path, value)], with [value] already
    passed through [str]: [Some element'] when it returns [True] (the element
    after the write), [None] when it returns [False] (nothing written). *)
Definition set_param_value (element : Element) (param_path : string) (value : string)
  : option Element :=
  match param_target element param_path with
  | Some p => Some (set_at p "Value" value element)
  | None => None
  end.

(** The dereferenced element, for a reference known to be live. *)
Definition deref (p : pos) (root : Element) : Element :=
  match get_at p root with
  | Some e => e
  | None => Elem "" [] []
  end.

Inductive resolution : Type :=
| Resolved (track_el : pos)
| Failed (message : string)
| Crashed (e : exn).

(** The first part of [apply_change]: finding the target track. *)
Definition resolve_track (root : Element) (tracks_el : pos) (c : change) : resolution :=
  let name := track_name c in
  if String.eqb (PyStr.upper name) "MASTER" || String.eqb (PyStr.upper name) "MAIN" then
    match find_desc "LiveSet" ["MainTrack"] root with
    | Some p => Resolved p
    | None =>
        match find_desc "LiveSet" ["MasterTrack"] root with
        | Some p => Resolved p
        | None => Failed "ERROR: Could not find Main/Master track"
        end
    end
  else if PyStr.startswith "RETURN:" (PyStr.upper name) then
    let return_name := PyStr.drop 7 name in
    match
      first_some
        (fun i t =>
           if String.eqb (tag t) "ReturnTrack" then
             match find_descendant "Name" ["EffectiveName"] t with
             | Some name_el =>
                 if PyStr.contains return_name (get_default "Value" "" name_el)
                 then Some i else None
             | None => None
             end
           else None)
        0 (children_at tracks_el root)
    with
    | Some i => Resolved (tracks_el ++ [i])
    | None => Failed ("ERROR: Could not find return track '" +++ return_name +++ "'")
    end
  else
    let matches := find_tracks_by_name (deref tracks_el root) name (track_type c) in
    match matches with
    | [] => Failed ("ERROR: Could not find track '" +++ name +++ "'")
    | _ =>
        if (track_index c >=? Z.of_nat (List.length matches))%Z then
          Failed ("ERROR: Track '" +++ name +++ "' index " +++ PyInt.str (track_index c)
                  +++ " out of range (found "
                  +++ PyInt.str (Z.of_nat (List.length matches)) +++ ")")
        else
          match py_index matches (track_index c) with
          | Some i => Resolved (tracks_el ++ [i])
          | None => Crashed IndexError
          end
    end.

(** [20 * math.log10(old_val) if old_val > 0.0003163 else float("-inf")] *)
Definition old_db_of (old_val : PyFloat.t) : PyFloat.t :=
  if PyFloat.gtb old_val 0.0003163%R
  then PyFloat.mul_pos (PyFloat.log10 old_val) 20%R
  else PyFloat.NInf.

(** The ["volume"] and ["group_volume"] branches; they differ by the label
    put after the track name. *)
Definition apply_volume (label : string) (root : Element) (tracks_el : pos)
           (name : string) (mixer : option pos) (db_val : option PyFloat.t) : outcome :=
  match db_to_linear db_val with
  | None => Raise root OverflowError
  | Some linear =>
      match mixer with
      | None => Raise root AttributeError
      | Some mixer =>
          match find_at mixer ["Volume"; "Manual"] root with
          | None => Return root tracks_el []
          | Some vol_el =>
              match PyFloat.parse (get_at_default vol_el "Value" "1" root) with
              | None => Raise root ValueError
              | Some old_val =>
                  let old_db := old_db_of old_val in
                  let root := set_at vol_el "Value" (float_str linear) root in
                  match db_val with
                  | None => Raise root TypeError
                  | Some db =>
                      Return root tracks_el
                        ["  " +++ name +++ label +++ ": Volume "
                         +++ PyFloat.format_f true 1 old_db +++ " " +++ arrow +++ " "
                         +++ PyFloat.format_f true 1 db +++ " dB"]
                  end
              end
          end
      end
  end.

(** The ["pan"] branch. *)
Definition apply_pan (root : Element) (tracks_el : pos) (name : string)
           (mixer : option pos) (pan_str : string) : outcome :=
  match pan_str_to_value pan_str with
  | None => Raise root ValueError
  | Some pan_val =>
      match mixer with
      | None => Raise root AttributeError
      | Some mixer =>
          match find_at mixer ["Pan"; "Manual"] root with
          | None => Return root tracks_el []
          | Some pan_el =>
              match PyFloat.parse (get_at_default pan_el "Value" "0" root) with
              | None => Raise root ValueError
              | Some old_val =>
                  let old_str :=
                    if PyFloat.ltb (PyFloat.abs old_val) 0.01%R then "C"
                    else PyFloat.format_f false 0
                           (PyFloat.mul_pos (PyFloat.abs old_val) 50%R)
                         +++ (if PyFloat.ltb old_val 0%R then "L" else "R") in
                  let root := set_at pan_el "Value" (float_str pan_val) root in
                  Return root tracks_el
                    ["  " +++ name +++ ": Pan " +++ old_str +++ " " +++ arrow +++ " "
                     +++ pan_str]
              end
          end
      end
  end.

(** The ["send"] branch. *)
Definition apply_send (root : Element) (tracks_el : pos) (name : string)
           (mixer : option pos) (send_index : Z) (db_val : option PyFloat.t) : outcome :=
  match db_to_linear db_val with
  | None => Raise root OverflowError
  | Some linear =>
      match mixer with
      | None => Raise root AttributeError
      | Some mixer =>
          match find_at mixer ["Sends"] root with
          | None => Return root tracks_el []
          | Some sends_el =>
              let holders := seq 0 (List.length (children_at sends_el root)) in
              if (send_index <? Z.of_nat (List.length holders))%Z then
                match py_index holders send_index with
                | None => Raise root IndexError
                | Some h =>
                    match find_at (sends_el ++ [h]) ["Send"; "Manual"] root with
                    | None => Return root tracks_el []
                    | Some send_manual =>
                        match PyFloat.parse
                                (get_at_default send_manual "Value" "0.0003162277571" root)
                        with
                        | None => Raise root ValueError
                        | Some old_val =>
                            let old_db := old_db_of old_val in
                            let old_str :=
                              match old_db with
                              | PyFloat.PInf | PyFloat.NInf => "-inf"
                              | _ => PyFloat.format_f true 1 old_db
                              end in
                            let root :=
                              set_at send_manual "Value" (float_str linear) root in
                            match py_chr (65 + send_index) with
                            | None => Raise root ValueError
                            | Some send_label =>
                                match db_val with
                                | None => Raise root TypeError
                                | Some db =>
                                    Return root tracks_el
                                      ["  " +++ name +++ ": Send " +++ send_label +++ " "
                                       +++ old_str +++ " " +++ arrow +++ " "
                                       +++ PyFloat.format_f true 1 db +++ " dB"]
                                end
                            end
                        end
                    end
                end
              else Return root tracks_el []
          end
      end
  end.

(** The ["device_param"] branch. *)
Definition apply_device_param (root : Element) (tracks_el : pos) (name : string)
           (track_el : pos) (device_tag : string) (device_index : Z)
           (param_name : string) (param_val : param_value)
           (device_name : option string) : outcome :=
  match find_device root track_el device_tag device_index with
  | inr e => Raise root e
  | inl None =>
      Return root tracks_el
        ["ERROR: Could not find device '" +++ device_tag +++ "' on track '"
         +++ name +++ "'"]
  | inl (Some device_pos) =>
      let device := deref device_pos root in
      let linear_param := DB_LINEAR_PARAMS device_tag param_name in
      (* Convert dB to linear for params that use linear encoding *)
      match
        (if linear_param then
           match param_val with
           | PText _ => inr TypeError
           | PInt n =>
               match db_to_linear (Some (PyFloat.Fin (IZR n))) with
               | Some linear => inl (float_str linear, param_str param_val +++ " dB")
               | None => inr OverflowError
               end
           | PNum x =>
               match db_to_linear (Some x) with
               | Some linear => inl (float_str linear, param_str param_val +++ " dB")
               | None => inr OverflowError
               end
           end
         else inl (param_str param_val, param_str param_val))
      with
      | inr e => Raise root e
      | inl (written, display_value) =>
          (* Try to get old value for description *)
          let old_value :=
            match find (PyStr.split "/" param_name) device with
            | Some target_el =>
                match find ["Manual"] target_el with
                | Some manual => get "Value" manual
                | None => get "Value" target_el
                end
            | None => None
            end in
          match
            (match old_value with
             | None => Some "?"
             | Some v =>
                 if linear_param then
                   match PyFloat.parse v with
                   | None => None
                   | Some old_float =>
                       if PyFloat.gtb old_float 0.0003163%R
                       then Some (PyFloat.format_f false 1
                                    (PyFloat.mul_pos (PyFloat.log10 old_float) 20%R)
                                  +++ " dB")
                       else Some "-inf dB"
                   end
                 else Some v
             end)
          with
          | None => Raise root ValueError
          | Some old_str =>
              match set_param_value device param_name written with
              | Some device' =>
                  let device_display :=
                    match device_name with Some d => d | None => device_tag end in
                  Return (update_at (fun _ => device') device_pos root) tracks_el
                    ["  " +++ name +++ ": " +++ device_display +++ " " +++ param_name
                     +++ " " +++ old_str +++ " " +++ arrow +++ " " +++ display_value]
              | None =>
                  Return root tracks_el
                    ["ERROR: Could not set " +++ param_name +++ " on " +++ device_tag
                     +++ " for track '" +++ name +++ "'"]
              end
          end
      end
  end.

(** [actual_val] in the loop of the ["add_device"] branch:
    [db_to_linear(float(param_val))] for a decibel parameter, the value
    itself otherwise, as [set_param_value] writes it. *)
Definition actual_text (device_tag param_path : string) (param_val : param_value)
  : string + exn :=
  if DB_LINEAR_PARAMS device_tag param_path then
    match param_float param_val with
    | inl x =>
        match db_to_linear (Some x) with
        | Some linear => inl (float_str linear)
        | None => inr OverflowError
        end
    | inr e => inr e
    end
  else inl (param_str param_val).

(** The loop of the ["add_device"] branch over the requested parameters:
    the device after all writes, or the path that could not be set, or the
    exception raised by [float] or [db_to_linear]. *)
Fixpoint apply_params (device_tag : string) (params : list (string * param_value))
         (new_device : Element) : Element + (string + exn) :=
  match params with
  | [] => inl new_device
  | (param_path, param_val) :: rest =>
      match actual_text device_tag param_path param_val with
      | inr e => inr (inr e)
      | inl actual_val =>
          match set_param_value new_device param_path actual_val with
          | Some new_device => apply_params device_tag rest new_device
          | None => inr (inl param_path)
          end
      end
  end.

(** The clone made by the ["add_device"] branch, before the requested
    parameters are applied: deep copy, fresh ids, reset, switched on. *)
Definition prepare_clone (root donor : Element) (device_tag : string) : Element :=
  let new_device := fst (remap_ids donor (find_max_id root + 1)) in
  let new_device :=
    match DEVICE_RESETTERS device_tag with
    | Some resetter => resetter new_device
    | None => new_device
    end in
  set_if_found ["On"; "Manual"] "true" new_device.

(** A reference [p] after a child was inserted at index [k] under [parent]. *)
Fixpoint shift_pos (parent : pos) (k : nat) (p : pos) : pos :=
  match parent, p with
  | [], i :: q => if k <=? i then S i :: q else p
  | a :: parent', i :: q => if a =? i then i :: shift_pos parent' k q else p
  | _, [] => p
  end.

Fixpoint join (sep : string) (l : list string) : string :=
  match l with
  | [] => ""
  | [x] => x
  | x :: r => x +++ sep +++ join sep r
  end.

(** The ["add_device"] branch. *)
Definition apply_add_device (root : Element) (tracks_el : pos) (name : string)
           (track_el : pos) (device_tag : string) (position : Z)
           (params : list (string * param_value)) (device_name : option string)
  : outcome :=
  let device_display := match device_name with Some d => d | None => device_tag end in
  match find_donor_device root device_tag with
  | None =>
      Return root tracks_el
        ["ERROR: No existing '" +++ device_tag
         +++ "' found in project to use as template"]
  | Some donor =>
      match apply_params device_tag params (prepare_clone root donor device_tag) with
      | inr (inr e) => Raise root e
      | inr (inl param_path) =>
          Return root tracks_el
            ["ERROR: Could not set param '" +++ param_path +++ "' on new "
             +++ device_tag +++ " for '" +++ name +++ "'"]
      | inl new_device =>
          match find_at track_el ["DeviceChain"; "DeviceChain"; "Devices"] root with
          | None =>
              Return root tracks_el
                ["ERROR: No device chain found on track '" +++ name +++ "'"]
          | Some devices_el =>
              let len := List.length (children_at devices_el root) in
              let '(k, pos_desc) :=
                if (position =? -1)%Z || (position >=? Z.of_nat len)%Z
                then (len, "end")
                else (py_insert_index len position,
                      "position " +++ PyInt.str position) in
              let param_desc :=
                match params with
                | [] => "defaults"
                | _ => join ", " (map (fun kv => fst kv +++ "=" +++ param_str (snd kv))
                                      params)
                end in
              Return (update_at (insert_child k new_device) devices_el root)
                     (shift_pos devices_el k tracks_el)
                ["  " +++ name +++ ": Added " +++ device_display +++ " at " +++ pos_desc
                 +++ " (" +++ param_desc +++ ")"]
          end
      end
  end.

(** [apply_change(root, tracks_el, change)] *)
Definition apply_change (root : Element) (tracks_el : pos) (c : change) : outcome :=
  match resolve_track root tracks_el c with
  | Crashed e => Raise root e
  | Failed message => Return root tracks_el [message]
  | Resolved track_el =>
      let name := track_name c in
      let mixer := find_desc_at track_el "DeviceChain" ["Mixer"] root in
      match change_target c with
      | Volume db_val => apply_volume "" root tracks_el name mixer db_val
      | Pan pan_str => apply_pan root tracks_el name mixer pan_str
      | Send send_index db_val => apply_send root tracks_el name mixer send_index db_val
      | DeviceParam device_tag device_index param_name param_val device_name =>
          apply_device_param root tracks_el name track_el device_tag device_index
                             param_name param_val device_name
      | AddDevice device_tag position params device_name =>
          apply_add_device root tracks_el name track_el device_tag position params
                           device_name
      | GroupVolume db_val => apply_volume " (group)" root tracks_el name mixer db_val
      | OtherTarget _ => Return root tracks_el []
      end
  end.

(** *** The batch loop of [main] *)

Record run : Type := {
  document : Element;
  tracks_ref : pos;
  all_descriptions : list string;
  errors : list string
}.

(** The loop either runs through all changes or is left by an exception,
    which ends the program before the output file is written. *)
Inductive run_result : Type :=
| Completed (r : run)
| Aborted (r : run) (e : exn).

Definition is_error (desc : string) : bool := PyStr.startswith "ERROR:" desc.

Fixpoint apply_changes (changes : list change) (st : run) : run_result :=
  match changes with
  | [] => Completed st
  | c :: rest =>
      match apply_change (document st) (tracks_ref st) c with
      | Return root tracks result =>
          apply_changes rest
            {| document := root;
               tracks_ref := tracks;
               all_descriptions :=
                 all_descriptions st ++ filter (fun d => negb (is_error d)) result;
               errors := errors st ++ filter is_error result |}
      | Raise root e =>
          Aborted {| document := root;
                     tracks_ref := tracks_ref st;
                     all_descriptions := all_descriptions st;
                     errors := errors st |} e
      end
  end.

(** [main] from the parsed document on: [None] is the fatal exit taken when
    the document has no track list. *)
Definition main (root : Element) (changes : list change) : option run_result :=
  match find_desc "LiveSet" ["Tracks"] root with
  | None => None
  | Some tracks_el =>
      Some (apply_changes changes
              {| document := root; tracks_ref := tracks_el;
                 all_descriptions := []; errors := [] |})
  end.

End Engine.

(* ================================================================= *)
(** ** Vocabulary of the properties *)

(** An element with every attribute erased: what navigation depends on. *)
Fixpoint shape (e : Element) : Element :=
  match e with
  | Elem t _ cs => Elem t [] (map shape cs)
  end.

(** The values of the ["Id"] attributes of a tree, in document order. *)
Definition ids (e : Element) : list string :=
  flat_map (fun el => match get "Id" el with Some v => [v] | None => [] end) (iter e).

(** [n] consecutive integers from [start]. *)
Fixpoint Zseq (start : Z) (n : nat) : list Z :=
  match n with
  | O => []
  | S m => start :: Zseq (start + 1) m
  end.

(** The document an outcome leaves behind. *)
Definition outcome_document (o : outcome) : Element :=
  match o with
  | Return root _ _ => root
  | Raise root _ => root
  end.

(** *** Sample documents *)

(** A parameter in the nested form: [<name><Manual Value=v/></name>]. *)
Definition sample_holder (name v : string) : Element :=
  Elem name [] [Elem "Manual" [("Value", v)] []].

Definition sample_compressor : Element :=
  Elem "Compressor2" [("Id", "7")]
    [ sample_holder "On" "false";
      sample_holder "Threshold" "0.25";
      sample_holder "Ratio" "8" ].

(** *** The reader's silence threshold, in dB *)

(** The dB value whose linear amplitude is [0.0003163], the constant below
    which the reader displays ["-inf"]: [20 * log10(0.0003163)], about
    [-69.998]. *)
Definition threshold_db : R := (20 * (ln 0.0003163 / ln 10))%R.

(** *** Well-formed pan strings *)

(** The center token, or a position [lo .. 50] followed by a direction
    letter. *)
Definition pan_string (lo : Z) (s : string) : Prop :=
  s = "C" \/
  exists n d, (lo <= n <= 50)%Z /\ (d = "L" \/ d = "R") /\ s = PyInt.str n +++ d.

(** The characters of a position string [str(n) + d]: digits [c :: r], then
    the letter [d]. *)
Record position_chars (d : ascii) (s : string) (c : ascii) (r : list ascii) : Prop := {
  pc_chars : PyStr.chars s = (c :: r) ++ [d];
  pc_digits : PyInt.all_digits (c :: r) = true
}.

(** The identifier carried by an attribute dictionary, if any. *)
Definition own_id (a : list (string * string)) : list string :=
  match dict_get "Id" a with Some v => [v] | None => [] end.

(** A list of conditional writes [el = device.find(path); if el is not None:
    el.set("Value", v)], applied in order. *)
Definition apply_table (ops : list (list string * string)) (device : Element) : Element :=
  fold_left (fun d op => set_if_found (fst op) (snd op) d) ops device.

(** What [reset_eq8_defaults] writes: for each of the eight bands and both
    parameter sets, band off, gain 0, default Q. *)
Definition eq8_reset_table : list (list string * string) :=
  flat_map
    (fun i =>
       flat_map
         (fun param_set =>
            let prefix := ["Bands." +++ PyInt.str (Z.of_nat i); param_set] in
            [ (prefix ++ ["IsOn"; "Manual"], "false");
              (prefix ++ ["Gain"; "Manual"], "0");
              (prefix ++ ["Q"; "Manual"], "0.7071067") ])
         ["ParameterA"; "ParameterB"])
    (seq 0 8).

(** What [reset_compressor_defaults] writes. *)
Definition compressor_reset_table (float_str : PyFloat.t -> string)
  : list (list string * string) :=
  map (fun pv => ([fst pv; "Manual"], snd pv)) (compressor_defaults float_str).

(** The registered defaults of a device type: the writes of its reset
    routine, none for a type without one. *)
Definition reset_table (float_str : PyFloat.t -> string) (device_tag : string)
  : list (list string * string) :=
  if String.eqb device_tag "Eq8" then eq8_reset_table
  else if String.eqb device_tag "Compressor2" then compressor_reset_table float_str
  else [].

(** The text a requested parameter is written as by the ["add_device"]
    branch, when its conversion succeeds. *)
Definition requested_text (float_str : PyFloat.t -> string) (device_tag : string)
           (kv : string * param_value) : option string :=
  match actual_text float_str device_tag (fst kv) (snd kv) with
  | inl text => Some text
  | inr _ => None
  end.

(** [p] is an initial segment of [q]: the element at [p] encloses the one at
    [q]. *)
Fixpoint is_prefix (p q : pos) : bool :=
  match p, q with
  | [], _ => true
  | i :: p', j :: q' => (i =? j) && is_prefix p' q'
  | _ :: _, [] => false
  end.

(** The ["Value"] attribute of the element at a position. *)
Definition value_at (p : pos) (e : Element) : option string :=
  match get_at p e with
  | Some x => get "Value" x
  | None => None
  end.

(** A stand-in for [str] on floats, used to run the engine on the sample
    documents; none of the results below depends on the text it produces for
    a finite float. *)
Definition sample_float_str (x : PyFloat.t) : string :=
  match x with
  | PyFloat.Fin _ => "<float>"
  | PyFloat.PInf => "inf"
  | PyFloat.NInf => "-inf"
  | PyFloat.NaN => "nan"
  end.

(** An equalizer with one band away from its defaults. *)
Definition sample_eq8 : Element :=
  Elem "Eq8" [("Id", "2")]
    [ sample_holder "On" "false";
      Elem "Bands.0" []
        [ Elem "ParameterA" [("Id", "3")]
            [ sample_holder "IsOn" "true";
              sample_holder "Gain" "3.5";
              sample_holder "Q" "1.2" ] ] ].

Definition sample_send (id v : string) : Element :=
  Elem "TrackSendHolder" [("Id", id)] [sample_holder "Send" v].

Definition sample_track (kind name id : string) (mixer devices : list Element) : Element :=
  Elem kind [("Id", id)]
    [ Elem "Name" [] [Elem "EffectiveName" [("Value", name)] []];
      Elem "DeviceChain" []
        [ Elem "Mixer" [] mixer;
          Elem "DeviceChain" [] [Elem "Devices" [] devices] ] ].

(** Three tracks: ["Snare"] with an equalizer and two sends, ["Kick"] with
    an empty device chain, and ["Pad"] whose mixer has neither a volume nor
    a pan value holder. *)
Definition sample_project : Element :=
  Elem "Ableton" []
    [ Elem "LiveSet" []
        [ Elem "Tracks" []
            [ sample_track "AudioTrack" "Snare" "1"
                [ sample_holder "Volume" "1"; sample_holder "Pan" "0";
                  Elem "Sends" []
                    [ sample_send "10" "0.0003162277571"; sample_send "11" "1" ] ]
                [ sample_eq8 ];
              sample_track "MidiTrack" "Kick" "5"
                [ sample_holder "Volume" "0.5"; sample_holder "Pan" "-0.36";
                  Elem "Sends" [] [] ]
                [];
              sample_track "AudioTrack" "Pad" "6" [ Elem "Sends" [] [] ] [] ] ] ].

Definition sample_change (name : string) (t : target) : change :=
  {| track_name := name; track_type := None; track_index := 0; change_target := t |}.

(** *** Batches *)

(** The request names no reserved track and resolves to no track: no child
    of the track list has the requested name (and kind), whatever the
    occurrence index, or the occurrence index is at or beyond the number of
    matches. *)
Definition targets_missing_track (root : Element) (tracks_el : pos) (c : change) : Prop :=
  String.eqb (PyStr.upper (track_name c)) "MASTER" = false /\
  String.eqb (PyStr.upper (track_name c)) "MAIN" = false /\
  PyStr.startswith "RETURN:" (PyStr.upper (track_name c)) = false /\
  (find_tracks_by_name (deref tracks_el root) (track_name c) (track_type c) = [] \/
   (Z.of_nat (List.length (find_tracks_by_name (deref tracks_el root) (track_name c)
                                               (track_type c)))
    <= track_index c)%Z).

(** A run with one more error message, at index [n] of its error list. *)
Definition insert_error (n : nat) (msg : string) (r : run) : run :=
  {| document := document r;
     tracks_ref := tracks_ref r;
     all_descriptions := all_descriptions r;
     errors := list_insert n msg (errors r) |}.

Definition map_run (f : run -> run) (res : run_result) : run_result :=
  match res with
  | Completed r => Completed (f r)
  | Aborted r e => Aborted (f r) e
  end.

(** The state [main] starts the loop in. *)
Definition initial_run (root : Element) (tracks_el : pos) : run :=
  {| document := root; tracks_ref := tracks_el; all_descriptions := []; errors := [] |}.

(** The run a result stops in. *)
Definition final_run (res : run_result) : run :=
  match res with
  | Completed r => r
  | Aborted r _ => r
  end.

(** A sample batch around a request for a track that does not exist. *)
Definition sample_pre : list change :=
  [ sample_change "Kick" (AddDevice "Eq8" (-1) [] None) ].

Definition sample_bad : change :=
  sample_change "Hi-Hat" (Volume (Some (PyFloat.Fin (-6)%R))).

Definition sample_post : list change :=
  [ sample_change "Snare"
      (AddDevice "Eq8" 0 [("Bands.0/ParameterA/Gain", PText "3")] None) ].

Definition sample_st1 : run :=
  final_run (apply_changes sample_float_str sample_pre (initial_run sample_project [0; 0])).

(** *** Requests that write nothing *)

(** Pan text that is neither the center token, nor text ending in a
    direction letter, nor a number. *)
Definition unparseable_pan (s : string) : Prop :=
  String.eqb (PyStr.upper (PyStr.strip s)) "C" = false /\
  String.eqb (PyStr.strip s) "0" = false /\
  PyStr.endswith "L" (PyStr.upper (PyStr.strip s)) = false /\
  PyStr.endswith "R" (PyStr.upper (PyStr.strip s)) = false /\
  PyFloat.parse (PyStr.strip s) = None.

(** The mixer at [mixer] has no nested value holder for the target of a
    volume, group-volume or pan request. *)
Definition lacks_holder (root : Element) (mixer : pos) (t : target) : Prop :=
  match t with
  | Volume _ | GroupVolume _ => find_at mixer ["Volume"; "Manual"] root = None
  | Pan _ => find_at mixer ["Pan"; "Manual"] root = None
  | _ => False
  end.

(** The conversion of the request's own payload does not raise: for a
    volume or group volume, [db_to_linear] returns (the amplitude of the
    level is a float); for a pan, the text can be read. *)
Definition payload_converts (t : target) : Prop :=
  match t with
  | Pan s => pan_str_to_value s <> None
  | Volume v | GroupVolume v => db_to_linear v <> None
  | _ => True
  end.

(** The tags met on the way down to a position. *)
Fixpoint tags_along (p : pos) (e : Element) : option (list string) :=
  match p with
  | [] => Some []
  | i :: q =>
      match nth_error (children e) i with
      | Some c => option_map (cons (tag c)) (tags_along q c)
      | None => None
      end
  end.

(** A list of paths without repetition, decided. *)
Fixpoint distinct_paths (l : list (list string)) : bool :=
  match l with
  | [] => true
  | x :: r =>
      negb (existsb (fun y => if list_eq_dec string_dec x y then true else false) r)
      && distinct_paths r
  end.

(** *** How a request may leave the document *)

(** Nothing written, or one ["Value"] attribute written. *)
Definition at_most_one_write (root root' : Element) : Prop :=
  root' = root \/ exists p v, root' = set_at p "Value" v root.

(** The outcome of a request that is not an insertion: an exception after
    at most one write; or no message and nothing written; or one error
    message and nothing written; or one description and at most one write. *)
Definition single_write_outcome (root : Element) (tracks_el : pos) (o : outcome) : Prop :=
  match o with
  | Raise root' _ => at_most_one_write root root'
  | Return root' tracks' descs =>
      tracks' = tracks_el /\
      ((descs = [] /\ root' = root) \/
       exists msg, descs = [msg] /\
                   ((is_error msg = true /\ root' = root) \/
                    (is_error msg = false /\ at_most_one_write root root')))
  end.

Definition is_insertion (t : target) : bool :=
  match t with
  | AddDevice _ _ _ _ => true
  | _ => false
  end.

(** *** Insertion *)

(** A tree with every ["Id"] attribute removed. *)
Fixpoint without_ids (e : Element) : Element :=
  match e with
  | Elem t a cs =>
      Elem t (filter (fun kv => negb (String.eqb (fst kv) "Id")) a) (map without_ids cs)
  end.

(** A tree with the value of every ["Id"] attribute blanked, each
    attribute in its place: everything [remap_ids] leaves alone. *)
Fixpoint blank_ids (e : Element) : Element :=
  match e with
  | Elem t a cs =>
      Elem t (if dict_mem "Id" a then dict_set "Id" "" a else a) (map blank_ids cs)
  end.

(** *** Reading a parameter *)

(** The position [get_param_value] reads. *)
Definition read_position (element : Element) (steps : list string) : option pos :=
  match find_path steps element with
  | None => None
  | Some q =>
      match find_at q ["Manual"] element with
      | Some m => Some m
      | None => Some q
      end
  end.

(** *** Finding a track by name *)

(** The test [find_tracks_by_name] applies to each child of the track
    list. *)
Definition track_matches (name : string) (track_type : option string) (track : Element)
  : bool :=
  match find_descendant "Name" ["EffectiveName"] track with
  | None => false
  | Some name_el =>
      match get "Value" name_el with
      | Some v =>
          String.eqb v name &&
          match track_type with
          | None => true
          | Some ty => String.eqb (tag track) ty
          end
      | None => false
      end
  end.

(** The name is none of the reserved ones (["MASTER"], ["MAIN"],
    ["RETURN:..."], in any case). *)
Definition ordinary_name (name : string) : bool :=
  negb (String.eqb (PyStr.upper name) "MASTER") &&
  negb (String.eqb (PyStr.upper name) "MAIN") &&
  negb (PyStr.startswith "RETURN:" (PyStr.upper name)).

(** *** Device parameters *)

(** The devices of a track: the children of its [Devices] element. *)
Definition devices_of (root : Element) (track_el : pos) : list Element :=
  match find_at track_el ["DeviceChain"; "DeviceChain"; "Devices"] root with
  | Some devices_el => children_at devices_el root
  | None => []
  end.

(** The text a ["device_param"] request writes: the linear amplitude for a
    numeric value of a decibel parameter, the value's own text otherwise;
    none for a text value of a decibel parameter, which cannot be compared
    with [-70], and none when the conversion overflows. *)
Definition written_text (float_str : PyFloat.t -> string) (device_tag param_name : string)
           (param_val : param_value) : option string :=
  if DB_LINEAR_PARAMS device_tag param_name then
    match param_val with
    | PText _ => None
    | PInt n => option_map float_str (db_to_linear (Some (PyFloat.Fin (IZR n))))
    | PNum x => option_map float_str (db_to_linear (Some x))
    end
  else Some (param_str float_str param_val).

(** *** Return tracks *)

(** The test the ["RETURN:"] lookup applies to each child of the track
    list. *)
Definition return_track_matches (return_name : string) (t : Element) : bool :=
  String.eqb (tag t) "ReturnTrack" &&
  match find_descendant "Name" ["EffectiveName"] t with
  | Some name_el => PyStr.contains return_name (get_default "Value" "" name_el)
  | None => false
  end.

(** A track list with an audio track and two return tracks. *)
Definition sample_returns : Element :=
  Elem "Ableton" []
    [ Elem "LiveSet" []
        [ Elem "Tracks" []
            [ sample_track "AudioTrack" "Reverb send" "1" [] [];
              sample_track "ReturnTrack" "A-Reverb" "2" [] [];
              sample_track "ReturnTrack" "B-Reverb" "3" [] [] ] ] ].

(** *** The reader's display functions ([parse_als.py]) *)

(** [parse_als.db_str] *)
Definition db_str (db : option PyFloat.t) : string :=
  match db with
  | None => "N/A"
  | Some PyFloat.NInf => "-inf"
  | Some x => PyFloat.format_f true 1 x +++ " dB"
  end.

Definition lower_char (c : ascii) : ascii :=
  let n := nat_of_ascii c in
  if (65 <=? n) && (n <=? 90) then ascii_of_nat (n + 32) else c.

(** [s.lower()] *)
Definition lower (s : string) : string :=
  PyStr.of_chars (map lower_char (PyStr.chars s)).

(** One piece of a band's text in [extract_eq8_bands]: nothing for a
    missing or empty value, the formatted number otherwise; [float] raises
    [ValueError] on text that is no number. *)
Definition band_text (v : option string) (fmt : PyFloat.t -> string) : string + exn :=
  match v with
  | None => inl ""
  | Some s =>
      if String.eqb s "" then inl ""
      else
        match PyFloat.parse s with
        | Some x => inl (fmt x)
        | None => inr ValueError
        end
  end.

(** The body of the loop of [parse_als.extract_eq8_bands] for band [i]
    (from 1): the band's text when the band is on, nothing when it is
    off. *)
Definition extract_eq8_band (device_element : Element) (i : nat) : option string + exn :=
  let band := "Bands." +++ PyInt.str (Z.of_nat (i - 1)) in
  let band_on :=
    match get_param_value device_element [band; "ParameterA"; "IsOn"] with
    | None =>
        get_param_value device_element ["Band" +++ PyInt.str (Z.of_nat i) +++ "On"]
    | Some v => Some v
    end in
  match band_on with
  | None => inl None
  | Some v =>
      if String.eqb (lower v) "true" then
        let gain := get_param_value device_element [band; "ParameterA"; "Gain"] in
        let freq := get_param_value device_element [band; "ParameterA"; "Freq"] in
        let q := get_param_value device_element [band; "ParameterA"; "Q"] in
        match
          band_text freq
            (fun f_val =>
               if PyFloat.ltb f_val 1000
               then " " +++ PyFloat.format_f false 0 f_val +++ "Hz"
               else " " +++ PyFloat.format_f false 1 (PyFloat.div_pos f_val 1000) +++ "kHz")
        with
        | inr e => inr e
        | inl freq_text =>
            match band_text gain (fun g => " " +++ PyFloat.format_f true 1 g +++ "dB") with
            | inr e => inr e
            | inl gain_text =>
                match band_text q (fun x => " Q" +++ PyFloat.format_f false 1 x) with
                | inr e => inr e
                | inl q_text =>
                    inl (Some ("B" +++ PyInt.str (Z.of_nat i)
                               +++ freq_text +++ gain_text +++ q_text))
                end
            end
        end
      else inl None
  end.

Fixpoint extract_eq8_bands_from (device_element : Element) (l : list nat)
  : list string + exn :=
  match l with
  | [] => inl []
  | i :: rest =>
      match extract_eq8_band device_element i with
      | inr e => inr e
      | inl band =>
          match extract_eq8_bands_from device_element rest with
          | inr e => inr e
          | inl bands =>
              inl (match band with Some band_info => band_info :: bands | None => bands end)
          end
      end
  end.

(** [parse_als.extract_eq8_bands]: the texts of the active bands, or the
    exception raised on the way. *)
Definition extract_eq8_bands (device_element : Element) : list string + exn :=
  extract_eq8_bands_from device_element (seq 1 8).

(** The on/off flag [parse_als.extract_devices] computes for a device:
    on unless the device has an ["On"] parameter that reads other than
    ["true"]. *)
Definition device_is_on (dev : Element) : bool :=
  match get_param_value dev ["On"] with
  | None => true
  | Some on_val => String.eqb (lower on_val) "true"
  end.

(** An equalizer with all eight bands switched on. *)
Definition sample_eq8_all_on : Element :=
  Elem "Eq8" [("Id", "2")]
    (sample_holder "On" "true" ::
     map (fun i =>
            Elem ("Bands." +++ PyInt.str (Z.of_nat i)) []
              [ Elem "ParameterA" []
                  [ sample_holder "IsOn" "true";
                    sample_holder "Freq" "100";
                    sample_holder "Gain" "3";
                    sample_holder "Q" "2" ] ])
         (seq 0 8)).


(** *** Induction over trees

    The induction principle for [Element], whose children are themselves a
    list of elements. *)

Section ElementInduction.

Variable P : Element -> Prop.
Hypothesis step : forall t a cs, Forall P cs -> P (Elem t a cs).

Fixpoint Element_rect_nested (e : Element) : P e :=
  match e with
  | Elem t a cs =>
      step t a cs
        ((fix go (l : list Element) : Forall P l :=
            match l with
            | [] => Forall_nil P
            | c :: r => Forall_cons c (Element_rect_nested c) (go r)
            end) cs)
  end.

End ElementInduction.

(* ================================================================= *)
(** * Properties *)

(* ================================================================= *)
(** ** Facts about strings and integer literals *)

Lemma chars_of_chars l : PyStr.chars (PyStr.of_chars l) = l.
Proof. apply list_ascii_of_string_of_list_ascii. Qed.

Lemma of_chars_chars s : PyStr.of_chars (PyStr.chars s) = s.
Proof. apply string_of_list_ascii_of_string. Qed.

Lemma digit_not_space c : PyStr.is_digit c = true -> PyStr.is_space c = false.
Proof.
  unfold PyStr.is_digit, PyStr.is_space; cbv zeta.
  destruct (48 <=? nat_of_ascii c) eqn:A; [|discriminate].
  apply Nat.leb_le in A. intros _.
  replace (nat_of_ascii c <=? 13) with false by (symmetry; apply Nat.leb_gt; lia).
  replace (nat_of_ascii c <=? 32) with false by (symmetry; apply Nat.leb_gt; lia).
  now rewrite !andb_false_r.
Qed.

Lemma digit_neq c (x : ascii) :
  PyStr.is_digit c = true -> PyStr.is_digit x = false -> Ascii.eqb c x = false.
Proof.
  intros Hc Hx. destruct (Ascii.eqb_spec c x); [subst; congruence | reflexivity].
Qed.

Lemma all_digits_uint d :
  PyInt.all_digits (PyStr.chars (NilEmpty.string_of_uint d)) = true.
Proof. induction d; simpl; auto. Qed.

Lemma lstrip_no_space l :
  forallb (fun c => negb (PyStr.is_space c)) l = true -> PyStr.lstrip_chars l = l.
Proof.
  destruct l as [|c r]; simpl; [reflexivity|].
  intros H. apply andb_true_iff in H as [H _].
  now destruct (PyStr.is_space c).
Qed.

Lemma forallb_rev {A} (f : A -> bool) l : forallb f (rev l) = forallb f l.
Proof.
  induction l; simpl; [reflexivity|].
  rewrite forallb_app, IHl. simpl. rewrite andb_true_r. apply andb_comm.
Qed.

Lemma strip_no_space s :
  forallb (fun c => negb (PyStr.is_space c)) (PyStr.chars s) = true ->
  PyStr.strip s = s.
Proof.
  intros H. unfold PyStr.strip, PyStr.rstrip_chars.
  rewrite (lstrip_no_space _ H), lstrip_no_space by now rewrite forallb_rev.
  now rewrite rev_involutive, of_chars_chars.
Qed.

Lemma all_digits_no_space l :
  PyInt.all_digits l = true -> forallb (fun c => negb (PyStr.is_space c)) l = true.
Proof.
  induction l; simpl; [reflexivity|].
  intros H%andb_true_iff. destruct H as [H1 H2].
  now rewrite (digit_not_space _ H1), IHl.
Qed.

Lemma digit_groups_all_digits l b :
  PyInt.all_digits l = true -> l <> [] \/ b = true -> PyInt.digit_groups b l = Some l.
Proof.
  revert b. induction l as [|c r IH]; simpl; intros b H Hne.
  - destruct Hne as [Hne | ->]; [congruence | reflexivity].
  - apply andb_true_iff in H as [H1 H2]. rewrite H1.
    rewrite IH; auto.
Qed.

(** [str(n)] for [n >= 0] is a non-empty string of digits. *)
Lemma str_nonneg_digits n :
  (0 <= n)%Z ->
  exists c r, PyStr.chars (PyInt.str n) = c :: r /\ PyInt.all_digits (c :: r) = true /\
              NilEmpty.uint_of_string (PyInt.str n) = Some (match Z.to_int n with Decimal.Pos d => d | Decimal.Neg d => d end) /\
              Z.of_uint (match Z.to_int n with Decimal.Pos d => d | Decimal.Neg d => d end) = n.
Proof.
  intros Hn. destruct n as [|p|p]; [| |lia].
  - exists "0"%char, []. repeat split.
  - unfold PyInt.str. simpl Z.to_int. cbv iota.
    assert (Hz : Z.of_uint (Pos.to_uint p) = Z.pos p).
    { change (Z.of_int (Z.to_int (Z.pos p)) = Z.pos p). apply DecimalZ.of_to. }
    assert (Hs : NilZero.string_of_int (Decimal.Pos (Pos.to_uint p))
                 = NilEmpty.string_of_uint (Pos.to_uint p)).
    { simpl. unfold NilZero.string_of_uint.
      destruct (Pos.to_uint p) eqn:E; try reflexivity.
      all: try (simpl in Hz; discriminate). }
    rewrite Hs.
    pose proof (all_digits_uint (Pos.to_uint p)) as Hd.
    destruct (PyStr.chars (NilEmpty.string_of_uint (Pos.to_uint p))) as [|c r] eqn:E.
    + exfalso. destruct (Pos.to_uint p) eqn:E2; simpl in E; discriminate.
    + exists c, r. repeat split; auto. apply NilEmpty.usu.
Qed.

Lemma parse_str n : (0 <= n)%Z -> PyInt.parse (PyInt.str n) = Some n.
Proof.
  intros Hn. destruct (str_nonneg_digits n Hn) as (c & r & E & D & U & V).
  unfold PyInt.parse.
  rewrite strip_no_space by (rewrite E; now apply all_digits_no_space).
  rewrite E.
  pose proof D as D'. simpl in D'. apply andb_true_iff in D' as [Dc _].
  rewrite (digit_neq c "-"%char), (digit_neq c "+"%char) by (auto; reflexivity).
  unfold PyInt.unsigned_of_chars.
  rewrite digit_groups_all_digits by (auto; left; discriminate).
  rewrite <- E, of_chars_chars, U. now rewrite V.
Qed.

Lemma str_inj n m : (0 <= n)%Z -> (0 <= m)%Z -> PyInt.str n = PyInt.str m -> n = m.
Proof.
  intros Hn Hm E. pose proof (parse_str n Hn) as A. rewrite E, parse_str in A by auto.
  congruence.
Qed.

(* ================================================================= *)
(** ** Facts about trees and positions *)

Lemma get_at_app p q e :
  get_at (p ++ q) e =
  match get_at p e with Some c => get_at q c | None => None end.
Proof.
  revert e. induction p as [|i p IH]; intros e; simpl; [reflexivity|].
  destruct (nth_error (children e) i); auto.
Qed.

Lemma nth_error_update_nth {A} (f : A -> A) i j (l : list A) :
  nth_error (update_nth f i l) j =
  if i =? j then option_map f (nth_error l j) else nth_error l j.
Proof.
  revert i j. induction l as [|x r IH]; intros [|i] [|j]; simpl; auto.
  all: try now destruct (i =? j).
Qed.

Lemma length_update_nth {A} (f : A -> A) i (l : list A) :
  List.length (update_nth f i l) = List.length l.
Proof. revert i. induction l; intros [|i]; simpl; auto. Qed.

Lemma children_update_at f i q e :
  children (update_at f (i :: q) e) = update_nth (update_at f q) i (children e).
Proof. now destruct e. Qed.

Lemma tag_update_at_cons f i q e : tag (update_at f (i :: q) e) = tag e.
Proof. now destruct e. Qed.

Lemma attrib_update_at_cons f i q e : attrib (update_at f (i :: q) e) = attrib e.
Proof. now destruct e. Qed.

(** Reading back through the updated position. *)
Lemma get_at_update_at_prefix f p q e :
  get_at p (update_at f (p ++ q) e) = option_map (update_at f q) (get_at p e).
Proof.
  revert e. induction p as [|i p IH]; intros [t a cs]; simpl; [reflexivity|].
  rewrite nth_error_update_nth, Nat.eqb_refl.
  destruct (nth_error cs i); simpl; auto.
Qed.

Lemma get_at_update_at_same f p e :
  get_at p (update_at f p e) = option_map f (get_at p e).
Proof.
  rewrite <- (List.app_nil_r p) at 2. now rewrite get_at_update_at_prefix.
Qed.

(** An update below one child leaves what lies below another child alone. *)
Lemma get_at_update_at_diverge f c i j p q e :
  i <> j ->
  get_at (c ++ j :: q) (update_at f (c ++ i :: p) e) = get_at (c ++ j :: q) e.
Proof.
  intros Hij. rewrite !get_at_app, get_at_update_at_prefix.
  destruct (get_at c e) as [[t a cs]|]; simpl; [|reflexivity].
  rewrite nth_error_update_nth.
  apply Nat.eqb_neq in Hij. now rewrite Hij.
Qed.

(** An update at a dangling position changes nothing. *)
Lemma update_at_dangling f p e : get_at p e = None -> update_at f p e = e.
Proof.
  revert e. induction p as [|i p IH]; intros [t a cs]; simpl; [discriminate|].
  intros H. f_equal. revert i H.
  induction cs as [|x r IHr]; intros [|i]; simpl; intros H; auto.
  - now rewrite IH.
  - now rewrite IHr.
Qed.

(** *** Navigation only looks at the shape *)

Lemma tag_shape e : tag (shape e) = tag e.
Proof. now destruct e. Qed.

Lemma children_shape e : children (shape e) = map shape (children e).
Proof. now destruct e. Qed.

Lemma first_some_map {A B C} (g : A -> B) (f : nat -> B -> option C) i l :
  first_some f i (map g l) = first_some (fun i x => f i (g x)) i l.
Proof.
  revert i. induction l; intros i; simpl; [reflexivity|].
  destruct (f i (g a)); auto.
Qed.

Lemma first_some_ext {A B} (f g : nat -> A -> option B) i l :
  (forall j x, In x l -> f j x = g j x) -> first_some f i l = first_some g i l.
Proof.
  revert i. induction l; intros i H; simpl; [reflexivity|].
  rewrite H by now left. destruct (g i a); auto.
  apply IHl. intros; apply H; now right.
Qed.

Lemma find_path_shape path e : find_path path (shape e) = find_path path e.
Proof.
  revert e. induction path as [|t rest IH]; intros e; simpl; [reflexivity|].
  rewrite children_shape, first_some_map.
  apply first_some_ext. intros j x _. now rewrite tag_shape, IH.
Qed.

Lemma shape_set k v e : shape (set k v e) = shape e.
Proof. now destruct e. Qed.

Lemma map_update_nth {A B} (g : A -> B) (f : A -> A) i l :
  (forall x, In x l -> g (f x) = g x) -> map g (update_nth f i l) = map g l.
Proof.
  revert i. induction l as [|x r IH]; intros [|i] H; simpl; auto.
  - f_equal. apply H. now left.
  - f_equal. apply IH. intros; apply H; now right.
Qed.

Lemma shape_update_at f p e :
  (forall x, shape (f x) = shape x) -> shape (update_at f p e) = shape e.
Proof.
  intros Hf. revert e. induction p as [|i p IH]; intros e; simpl; [apply Hf|].
  destruct e as [t a cs]. simpl. f_equal. apply map_update_nth. intros; apply IH.
Qed.

Lemma shape_set_at p k v e : shape (set_at p k v e) = shape e.
Proof. apply shape_update_at. intros; apply shape_set. Qed.

Lemma find_path_set_at path p k v e :
  find_path path (set_at p k v e) = find_path path e.
Proof. now rewrite <- find_path_shape, shape_set_at, find_path_shape. Qed.

(** A found position is live, and the path records the tags along it. *)
Lemma first_some_In {A B} (f : nat -> A -> option B) i l y :
  first_some f i l = Some y ->
  exists k x, nth_error l k = Some x /\ f (i + k) x = Some y.
Proof.
  revert i. induction l as [|a r IH]; intros i; simpl; [discriminate|].
  destruct (f i a) eqn:E.
  - intros [= <-]. exists 0, a. now rewrite Nat.add_0_r.
  - intros H. destruct (IH _ H) as (k & x & Hk & Hx).
    exists (S k), x. split; auto. now rewrite Nat.add_succ_r.
Qed.

Lemma find_path_live path e p :
  find_path path e = Some p -> exists c, get_at p e = Some c.
Proof.
  revert e p. induction path as [|t rest IH]; intros e p; simpl.
  - intros [= <-]. now exists e.
  - intros H. apply first_some_In in H as (k & x & Hk & Hx).
    destruct (String.eqb (tag x) t); [|discriminate].
    destruct (find_path rest x) as [q|] eqn:E; [|discriminate].
    injection Hx as <-. simpl. rewrite Hk. eauto.
Qed.

Lemma find_path_last_tag path t e p c :
  find_path (path ++ [t]) e = Some p -> get_at p e = Some c -> tag c = t.
Proof.
  revert e p. induction path as [|s rest IH]; intros e p; simpl.
  - intros H. apply first_some_In in H as (k & x & Hk & Hx).
    destruct (String.eqb_spec (tag x) t); [|discriminate].
    injection Hx as <-. simpl. rewrite Hk. now intros [= <-].
  - intros H. apply first_some_In in H as (k & x & Hk & Hx).
    destruct (String.eqb (tag x) s); [|discriminate].
    destruct (find_path (rest ++ [t]) x) as [q|] eqn:E; [|discriminate].
    injection Hx as <-. simpl. rewrite Hk. eauto.
Qed.

(** *** Attribute dictionaries *)

Lemma dict_get_set_same k v d : dict_get k (dict_set k v d) = Some v.
Proof.
  induction d as [|[k' v'] r IH]; simpl.
  - now rewrite String.eqb_refl.
  - destruct (String.eqb_spec k' k); simpl.
    + now rewrite String.eqb_refl.
    + apply String.eqb_neq in n. now rewrite n.
Qed.

Lemma dict_get_set_other k k' v d :
  k <> k' -> dict_get k' (dict_set k v d) = dict_get k' d.
Proof.
  intros Hk. induction d as [|[k0 v0] r IH]; simpl.
  - apply String.eqb_neq in Hk. now rewrite Hk.
  - destruct (String.eqb_spec k0 k); simpl.
    + subst. apply String.eqb_neq in Hk. now rewrite Hk.
    + now rewrite IH.
Qed.

Lemma get_set_same k v e : get k (set k v e) = Some v.
Proof. destruct e. apply dict_get_set_same. Qed.

Lemma get_set_other k k' v e : k <> k' -> get k' (set k v e) = get k' e.
Proof. destruct e. apply dict_get_set_other. Qed.

(* ================================================================= *)
(** ** Reading and writing a parameter: the two storage forms *)

Lemma find_set_at path p k v e :
  find path (set_at p k v e) =
  match find_path path e with
  | Some q => get_at q (set_at p k v e)
  | None => None
  end.
Proof. unfold find. now rewrite find_path_set_at. Qed.

Lemma split_single_descend name element :
  PyStr.split "/" name = [name] ->
  param_target element name =
  match find_path [name] element with
  | None => None
  | Some target =>
      match find_at target ["Manual"] element with
      | Some manual => Some manual
      | None =>
          match get_at target element with
          | Some t => if has_attr "Value" t then Some target else None
          | None => None
          end
      end
  end.
Proof.
  intros Hs. unfold param_target. rewrite Hs.
  cbn [removelast last descend]. unfold find_at at 1. cbn [get_at].
  destruct (find_path [name] element); reflexivity.
Qed.

(** C7.  For a parameter element [child] of [element] (the first child named
    [name]), reading and writing agree on the two storage forms.  Reading
    returns the ["Value"] of the nested ["Manual"] child when there is one and
    the bare ["Value"] attribute otherwise.  Writing sets the ["Value"] of the
    nested ["Manual"] child when there is one, otherwise the bare ["Value"]
    attribute when the element has it, and fails exactly when neither form
    exists.  What was written is what is read back. *)
Theorem param_value_forms_uniform :
  forall (element child : Element) (name v : string) (p : pos),
    PyStr.split "/" name = [name] ->
    find_path [name] element = Some p ->
    get_at p element = Some child ->
    (* reading *)
    (forall manual, find ["Manual"] child = Some manual ->
                    get_param_value element [name] = get "Value" manual) /\
    (find ["Manual"] child = None ->
     get_param_value element [name] = get "Value" child) /\
    (* writing *)
    (forall m, find_path ["Manual"] child = Some m ->
               set_param_value element name v
               = Some (set_at (p ++ m) "Value" v element)) /\
    (find_path ["Manual"] child = None -> has_attr "Value" child = true ->
     set_param_value element name v = Some (set_at p "Value" v element)) /\
    (set_param_value element name v = None <->
     find_path ["Manual"] child = None /\ has_attr "Value" child = false) /\
    (* reading after writing *)
    (forall element', set_param_value element name v = Some element' ->
                      get_param_value element' [name] = Some v).
Proof.
  intros element child name v p Hs Hp Hc.
  assert (Hread : get_param_value element [name] =
                  match find ["Manual"] child with
                  | Some manual => get "Value" manual
                  | None => get "Value" child
                  end).
  { unfold get_param_value, find at 1. now rewrite Hp, Hc. }
  assert (Hwrite : set_param_value element name v =
                   match find_path ["Manual"] child with
                   | Some m => Some (set_at (p ++ m) "Value" v element)
                   | None => if has_attr "Value" child
                             then Some (set_at p "Value" v element) else None
                   end).
  { unfold set_param_value. rewrite split_single_descend, Hp by assumption.
    unfold find_at. rewrite Hc.
    destruct (find_path ["Manual"] child); simpl; [reflexivity|].
    now destruct (has_attr "Value" child). }
  repeat split.
  - intros manual Hm. now rewrite Hread, Hm.
  - intros Hm. now rewrite Hread, Hm.
  - intros m Hm. now rewrite Hwrite, Hm.
  - intros Hm Hv. now rewrite Hwrite, Hm, Hv.
  - rewrite Hwrite in H.
    destruct (find_path ["Manual"] child); [discriminate | reflexivity].
  - rewrite Hwrite in H.
    destruct (find_path ["Manual"] child); [discriminate|].
    destruct (has_attr "Value" child); [discriminate | reflexivity].
  - intros [Hm Hv]. now rewrite Hwrite, Hm, Hv.
  - intros element'. rewrite Hwrite.
    unfold get_param_value.
    destruct (find_path ["Manual"] child) as [m|] eqn:Hm.
    + intros [= <-]. rewrite find_set_at, Hp.
      unfold set_at. rewrite get_at_update_at_prefix, Hc. simpl option_map.
      fold (set_at m "Value" v child). cbv beta iota.
      rewrite find_set_at, Hm.
      unfold set_at. rewrite get_at_update_at_same.
      destruct (find_path_live _ _ _ Hm) as [x Hx]. rewrite Hx. simpl.
      apply get_set_same.
    + destruct (has_attr "Value" child) eqn:Hv; [|discriminate].
      intros [= <-]. rewrite find_set_at, Hp.
      unfold set_at. rewrite get_at_update_at_same, Hc. simpl option_map.
      change (set "Value" v child) with (set_at [] "Value" v child). cbv beta iota.
      rewrite find_set_at, Hm. apply get_set_same.
Qed.

(** The theorem at the ratio of the sample compressor. *)
Lemma param_value_forms_uniform_witness :
  set_param_value sample_compressor "Ratio" "4"
  = Some (set_at [2; 0] "Value" "4" sample_compressor) /\
  get_param_value sample_compressor ["Ratio"] = Some "8".
Proof.
  destruct (param_value_forms_uniform sample_compressor
              (sample_holder "Ratio" "8") "Ratio" "4" [2] eq_refl eq_refl eq_refl)
    as (R1 & _ & W1 & _).
  split.
  - exact (W1 [0] eq_refl).
  - exact (R1 (Elem "Manual" [("Value", "8")] []) eq_refl).
Defined.

(* ================================================================= *)
(** ** Unit codec: decibels *)

Section Decibels.

Local Open Scope R_scope.

Lemma Rleb_true x y : PyFloat.Rleb x y = true <-> x <= y.
Proof. unfold PyFloat.Rleb. destruct (Rle_dec x y); split; auto; discriminate. Qed.

Lemma Rleb_false x y : PyFloat.Rleb x y = false <-> y < x.
Proof.
  unfold PyFloat.Rleb. destruct (Rle_dec x y); split; auto; try discriminate; lra.
Qed.

Lemma Rltb_true x y : PyFloat.Rltb x y = true <-> x < y.
Proof. unfold PyFloat.Rltb. destruct (Rlt_dec x y); split; auto; discriminate. Qed.

Lemma Rltb_false x y : PyFloat.Rltb x y = false <-> y <= x.
Proof.
  unfold PyFloat.Rltb. destruct (Rlt_dec x y); split; auto; try discriminate; lra.
Qed.

Lemma ln10_bounds : 1 <= ln 10 <= 4.
Proof.
  pose proof exp_le_3 as H3. pose proof (exp_ineq1_le 1) as H2.
  pose proof (exp_pos 1) as Hp.
  split.
  - rewrite <- (ln_exp 1). left. apply ln_increasing; lra.
  - rewrite <- (ln_exp 4).
    assert (E4 : exp 4 = exp 1 * exp 1 * exp 1 * exp 1).
    { replace 4 with (1 + 1 + 1 + 1) by lra. now rewrite !exp_plus. }
    assert (10 < exp 4).
    { rewrite E4. set (e := exp 1) in *.
      assert (4 <= e * e) by nra.
      replace (e * e * e * e) with ((e * e) * (e * e)) by ring. nra. }
    left. apply ln_increasing; lra.
Qed.

(** [0.0003163 ^ 2 * 10 ^ 7 = 1.0004569], hence the logarithm of the
    threshold in terms of [ln 1.0004569]. *)
Lemma ln_threshold : ln 0.0003163 = (ln 1.0004569 - 7 * ln 10) / 2.
Proof.
  assert (H : ln 1.0004569 = ln 0.0003163 + ln 0.0003163 + 7 * ln 10).
  { replace 1.0004569 with (0.0003163 * 0.0003163 * 10 ^ 7) by lra.
    rewrite !ln_mult by lra. rewrite ln_pow by lra. simpl INR. lra. }
  lra.
Qed.

Lemma ln_near_one_bounds : 0.0004566 <= ln 1.0004569 <= 0.0004569.
Proof.
  split.
  - pose proof (exp_ineq1_le (- 0.0004566)) as H.
    destruct (Rle_lt_dec 0.0004566 (ln 1.0004569)) as [Hle|Hlt]; [exact Hle|].
    exfalso. assert (H0 : exp (- 0.0004566) < exp (- ln 1.0004569)).
    { apply exp_increasing. lra. }
    rewrite exp_Ropp, exp_ln in H0 by lra. lra.
  - pose proof (exp_ineq1_le 0.0004569) as H.
    destruct (Rle_lt_dec (ln 1.0004569) 0.0004569) as [Hle|Hlt]; [exact Hle|].
    exfalso. assert (exp 0.0004569 < exp (ln 1.0004569)).
    { apply exp_increasing. lra. }
    rewrite exp_ln in H0 by lra. lra.
Qed.

Lemma threshold_db_bounds : -69.999 < threshold_db < -69.995.
Proof.
  unfold threshold_db. rewrite ln_threshold.
  pose proof ln10_bounds as [L1 L4]. pose proof ln_near_one_bounds as [K1 K2].
  set (y := ln 1.0004569) in *. set (L := ln 10) in *.
  replace (20 * ((y - 7 * L) / 2 / L)) with (10 * (y / L) - 70) by (field; lra).
  assert (Hz : y / L * L = y) by (field; lra).
  set (z := y / L) in *.
  split; nra.
Qed.

(** The linear amplitude of a dB value is at or below the reader's threshold
    exactly when the dB value is at or below [threshold_db]. *)
Lemma pow10_le_threshold x : Rpower 10 (x / 20) <= 0.0003163 <-> x <= threshold_db.
Proof.
  pose proof ln10_bounds as [L1 _].
  unfold threshold_db, Rpower.
  rewrite <- (exp_ln 0.0003163) at 1 by lra.
  set (c := ln 0.0003163). set (L := ln 10) in *.
  assert (E : x <= 20 * (c / L) <-> x / 20 * L <= c).
  { assert (Hz : c / L * L = c) by (field; lra).
    set (z := c / L) in *. split; intros; nra. }
  rewrite E. split.
  - intros H. destruct (Rle_lt_dec (x / 20 * L) c); [assumption|].
    exfalso. assert (exp c < exp (x / 20 * L)) by now apply exp_increasing.
    lra.
  - intros [H | ->]; [left; now apply exp_increasing | right; reflexivity].
Qed.

Lemma log10_pow10 y : ln (Rpower 10 y) / ln 10 = y.
Proof.
  pose proof ln10_bounds as [L1 _].
  unfold Rpower. rewrite ln_exp. field. lra.
Qed.

(** *** The range of [10 ** y] *)

Lemma max_float_bounds : 2 ^ 1023 <= PyFloat.max_float < 2 ^ 1024.
Proof.
  unfold PyFloat.max_float.
  assert (Hp : 0 < 2 ^ 1023) by (apply pow_lt; lra).
  assert (Hq : 0 < / 2 ^ 52) by (apply Rinv_0_lt_compat, pow_lt; lra).
  assert (Hr : / 2 ^ 52 <= 1).
  { rewrite <- Rinv_1. apply Rinv_le_contravar; [lra|].
    apply pow_R1_Rle. lra. }
  change (2 ^ 1024) with (2 * 2 ^ 1023).
  set (M := 2 ^ 1023) in *. set (u := / 2 ^ 52) in *.
  split; nra.
Qed.

Lemma Rpower10_nat (n : nat) : Rpower 10 (INR n) = 10 ^ n.
Proof. apply Rpower_pow. lra. Qed.

Lemma Rpower10_le x y : x <= y -> Rpower 10 x <= Rpower 10 y.
Proof. intros H. apply Rle_Rpower; lra. Qed.

(** Up to [10 ^ 300] the power is a float. *)
Lemma pow10_in_range y : y <= 300 -> Rpower 10 y <= PyFloat.max_float.
Proof.
  intros Hy. destruct max_float_bounds as [Hmax _].
  apply Rle_trans with (2 ^ 1023); [|exact Hmax].
  apply Rle_trans with (Rpower 10 (INR 300)).
  { apply Rpower10_le. rewrite INR_IZR_INZ. exact Hy. }
  rewrite Rpower10_nat.
  apply Rle_trans with (2 ^ 1000); [|apply Rle_pow; [lra | lia]].
  replace (10 ^ 300) with ((10 ^ 3) ^ 100) by (rewrite <- pow_mult; reflexivity).
  replace (2 ^ 1000) with ((2 ^ 10) ^ 100) by (rewrite <- pow_mult; reflexivity).
  apply pow_incr. split.
  - apply pow_le. lra.
  - replace (10 ^ 3) with 1000 by (simpl; lra).
    replace (2 ^ 10) with 1024 by (simpl; lra). lra.
Qed.

(** [10 ^ 350] is not. *)
Lemma pow10_overflow y : 350 <= y -> PyFloat.max_float < Rpower 10 y.
Proof.
  intros Hy. destruct max_float_bounds as [_ Hmax].
  apply Rlt_le_trans with (2 ^ 1024); [exact Hmax|].
  apply Rle_trans with (Rpower 10 (INR 350)).
  2:{ apply Rpower10_le. rewrite INR_IZR_INZ. exact Hy. }
  rewrite Rpower10_nat.
  apply Rle_trans with (2 ^ 1050); [apply Rle_pow; [lra | lia]|].
  replace (2 ^ 1050) with ((2 ^ 3) ^ 350) by (rewrite <- pow_mult; reflexivity).
  apply pow_incr. split.
  - apply pow_le. lra.
  - replace (2 ^ 3) with 8 by (simpl; lra). lra.
Qed.

End Decibels.

Section DecibelClaims.

Local Open Scope R_scope.

Lemma vol_to_db_finite x :
  vol_to_db (PyFloatV (PyFloat.Fin x))
  = Some (if Rle_dec x 0.0003163 then PyFloat.NInf
          else PyFloat.Fin (20 * (ln x / ln 10))).
Proof.
  unfold vol_to_db. simpl. unfold PyFloat.Rleb.
  destruct (Rle_dec x 0.0003163); [reflexivity|].
  do 2 f_equal. ring.
Qed.

(** C4, as stated, fails: an amplitude strictly above the silence-floor
    constant [0.0003162277571] is still converted to negative infinity. *)
Lemma vol_to_db_floor_counterexample :
  vol_to_db (PyFloatV (PyFloat.Fin 0.00031625)) = Some PyFloat.NInf /\
  ~ (0.00031625 <= 0.0003162277571).
Proof.
  split.
  - rewrite vol_to_db_finite. destruct (Rle_dec 0.00031625 0.0003163); [reflexivity|lra].
  - lra.
Qed.

(** C4, amended.  [vol_to_db] returns negative infinity exactly when the
    amplitude is at most [0.0003163], a threshold strictly above the
    silence-floor constant [0.0003162277571] that [db_to_linear] returns (so
    the silence floor itself reads back as negative infinity), and
    [20 * log10(amplitude)] otherwise. *)
Theorem vol_to_db_threshold :
  forall a : PyFloat.t,
    (vol_to_db (PyFloatV a) = Some PyFloat.NInf <-> PyFloat.leb a 0.0003163 = true) /\
    (forall x, a = PyFloat.Fin x ->
       vol_to_db (PyFloatV a)
       = Some (if Rle_dec x 0.0003163 then PyFloat.NInf
               else PyFloat.Fin (20 * (ln x / ln 10)))) /\
    db_to_linear None = Some (PyFloat.Fin 0.0003162277571) /\
    (forall v, db_to_linear None = Some v -> vol_to_db (PyFloatV v) = Some PyFloat.NInf) /\
    0.0003162277571 < 0.0003163.
Proof.
  intros a. repeat split.
  - unfold vol_to_db. simpl.
    destruct (PyFloat.leb a 0.0003163) eqn:E; [reflexivity|].
    destruct a; simpl; discriminate.
  - unfold vol_to_db. simpl. now intros ->.
  - intros x ->. apply vol_to_db_finite.
  - intros v [= <-]. rewrite vol_to_db_finite.
    destruct (Rle_dec 0.0003162277571 0.0003163); [reflexivity|lra].
  - lra.
Qed.

Lemma db_to_linear_finite x :
  db_to_linear (Some (PyFloat.Fin x))
  = if Rle_dec x (-70) then Some (PyFloat.Fin 0.0003162277571)
    else if Rle_dec (Rpower 10 (x / 20)) PyFloat.max_float
         then Some (PyFloat.Fin (Rpower 10 (x / 20)))
         else None.
Proof.
  unfold db_to_linear, PyFloat.leb, PyFloat.div_pos, PyFloat.pow10, PyFloat.Rleb.
  destruct (Rle_dec x (-70)); [reflexivity|].
  now destruct (Rle_dec (Rpower 10 (x / 20)) PyFloat.max_float).
Qed.

(** Up to [6000] dB the conversion returns. *)
Lemma db_to_linear_in_range x :
  x <= 6000 ->
  db_to_linear (Some (PyFloat.Fin x))
  = Some (if Rle_dec x (-70) then PyFloat.Fin 0.0003162277571
          else PyFloat.Fin (Rpower 10 (x / 20))).
Proof.
  intros Hx. rewrite db_to_linear_finite.
  destruct (Rle_dec x (-70)); [reflexivity|].
  destruct (Rle_dec (Rpower 10 (x / 20)) PyFloat.max_float) as [|H]; [reflexivity|].
  destruct H. apply pow10_in_range. lra.
Qed.

(** From [7000] dB on it raises. *)
Lemma db_to_linear_overflow x : 7000 <= x -> db_to_linear (Some (PyFloat.Fin x)) = None.
Proof.
  intros Hx. rewrite db_to_linear_finite.
  destruct (Rle_dec x (-70)); [lra|].
  destruct (Rle_dec (Rpower 10 (x / 20)) PyFloat.max_float) as [H|]; [|reflexivity].
  pose proof (pow10_overflow (x / 20)). lra.
Qed.

Lemma db_to_linear_zero : db_to_linear (Some (PyFloat.Fin 0)) = Some (PyFloat.Fin 1).
Proof.
  rewrite db_to_linear_in_range by lra.
  destruct (Rle_dec 0 (-70)); [lra|].
  replace (0 / 20) with 0 by lra. now rewrite Rpower_O by lra.
Qed.

Lemma db_round_trip_finite x a :
  db_to_linear (Some (PyFloat.Fin x)) = Some a ->
  vol_to_db (PyFloatV a)
  = Some (if Rle_dec x threshold_db then PyFloat.NInf else PyFloat.Fin x).
Proof.
  pose proof threshold_db_bounds as [B1 B2].
  rewrite db_to_linear_finite.
  destruct (Rle_dec x (-70)) as [H70|H70].
  - intros [= <-]. rewrite vol_to_db_finite.
    destruct (Rle_dec 0.0003162277571 0.0003163); [|lra].
    destruct (Rle_dec x threshold_db); [reflexivity|lra].
  - destruct (Rle_dec (Rpower 10 (x / 20)) PyFloat.max_float); [|discriminate].
    intros [= <-]. rewrite vol_to_db_finite.
    destruct (Rle_dec (Rpower 10 (x / 20)) 0.0003163) as [H|H];
      destruct (Rle_dec x threshold_db) as [T|T]; try reflexivity.
    + apply pow10_le_threshold in H. contradiction.
    + apply pow10_le_threshold in T. contradiction.
    + rewrite log10_pow10. do 2 f_equal. field.
Qed.



End DecibelClaims.

(* ================================================================= *)
(** ** Unit codec: pan positions *)

Section PanStrings.

Lemma chars_append a b : PyStr.chars (a +++ b) = PyStr.chars a ++ PyStr.chars b.
Proof. induction a; simpl; [reflexivity|]. now rewrite IHa. Qed.

Lemma of_chars_app a b :
  PyStr.of_chars (a ++ b) = PyStr.of_chars a +++ PyStr.of_chars b.
Proof. induction a; simpl; [reflexivity|]. now rewrite IHa. Qed.

Lemma chars_inj a b : PyStr.chars a = PyStr.chars b -> a = b.
Proof. intros H. rewrite <- (of_chars_chars a), <- (of_chars_chars b). now f_equal. Qed.

Lemma upper_char_digit c : PyStr.is_digit c = true -> PyStr.upper_char c = c.
Proof.
  unfold PyStr.is_digit, PyStr.upper_char; cbv zeta. intros H.
  apply andb_true_iff in H as [_ H]. apply Nat.leb_le in H.
  replace (97 <=? nat_of_ascii c) with false by (symmetry; apply Nat.leb_gt; lia).
  reflexivity.
Qed.

Lemma map_upper_digits l :
  PyInt.all_digits l = true -> map PyStr.upper_char l = l.
Proof.
  induction l; simpl; [reflexivity|]. intros H%andb_true_iff. destruct H as [H1 H2].
  now rewrite upper_char_digit, IHl.
Qed.

Lemma position_string_chars n d :
  (0 <= n)%Z ->
  exists c r, position_chars d (PyInt.str n +++ String d EmptyString) c r /\
              PyStr.chars (PyInt.str n) = c :: r.
Proof.
  intros Hn. destruct (str_nonneg_digits n Hn) as (c & r & E & D & _).
  exists c, r. split; [split|]; auto. now rewrite chars_append, E.
Qed.

Lemma forallb_app_single {A} (f : A -> bool) l x :
  forallb f (l ++ [x]) = forallb f l && f x.
Proof. rewrite forallb_app. simpl. now rewrite andb_true_r. Qed.

Section Letter.

Variable d : ascii.
Hypothesis d_not_space : PyStr.is_space d = false.
Hypothesis d_upper : PyStr.upper_char d = d.

Variables (s : string) (c : ascii) (r : list ascii).
Hypothesis Hs : position_chars d s c r.

Lemma position_strip : PyStr.strip s = s.
Proof.
  apply strip_no_space. rewrite (pc_chars _ _ _ _ Hs), forallb_app_single.
  rewrite all_digits_no_space by apply (pc_digits _ _ _ _ Hs).
  now rewrite d_not_space.
Qed.

Lemma position_upper : PyStr.upper s = s.
Proof.
  unfold PyStr.upper. rewrite (pc_chars _ _ _ _ Hs), map_app.
  rewrite map_upper_digits by apply (pc_digits _ _ _ _ Hs).
  simpl map. rewrite d_upper.
  rewrite <- (pc_chars _ _ _ _ Hs). apply of_chars_chars.
Qed.

Lemma position_not_short x : String.eqb s (String x EmptyString) = false.
Proof.
  apply String.eqb_neq. intros E. pose proof (pc_chars _ _ _ _ Hs) as H.
  rewrite E in H. simpl in H. destruct r; simpl in H; discriminate.
Qed.

Lemma position_endswith x :
  PyStr.endswith (String x EmptyString) s = Ascii.eqb x d.
Proof.
  unfold PyStr.endswith. rewrite (pc_chars _ _ _ _ Hs), rev_app_distr. simpl.
  now rewrite andb_true_r.
Qed.

Lemma position_drop_last : PyStr.drop_last s = PyStr.of_chars (c :: r).
Proof.
  unfold PyStr.drop_last. now rewrite (pc_chars _ _ _ _ Hs), removelast_last.
Qed.

End Letter.

End PanStrings.

Section FloatLiterals.

Local Open Scope R_scope.

Lemma split_at_none (sep : ascii -> bool) l :
  forallb (fun c => negb (sep c)) l = true -> PyFloat.split_at sep l = (l, None).
Proof.
  induction l as [|c r IH]; simpl; [reflexivity|].
  intros H%andb_true_iff. destruct H as [H1 H2].
  destruct (sep c); [discriminate|]. now rewrite IH.
Qed.

Lemma digits_no_sep (sep : ascii -> bool) l :
  (forall c, PyStr.is_digit c = true -> sep c = false) ->
  PyInt.all_digits l = true -> forallb (fun c => negb (sep c)) l = true.
Proof.
  intros Hsep. induction l; simpl; [reflexivity|].
  intros H%andb_true_iff. destruct H as [H1 H2].
  now rewrite (Hsep _ H1), IHl.
Qed.

Lemma digit_not_exp c : PyStr.is_digit c = true -> PyFloat.is_exp_char c = false.
Proof.
  intros H. unfold PyFloat.is_exp_char.
  now rewrite !(digit_neq c) by (auto; reflexivity).
Qed.

Lemma digit_not_dot c : PyStr.is_digit c = true -> PyFloat.is_dot c = false.
Proof. intros H. unfold PyFloat.is_dot. now rewrite (digit_neq c) by (auto; reflexivity). Qed.

Lemma digit_not_letter c :
  PyStr.is_digit c = true ->
  Ascii.eqb c "I" = false /\ Ascii.eqb c "N" = false.
Proof. intros H. split; apply digit_neq; auto. Qed.

(** [float(str(n))] for [n >= 0] is [n]. *)
Lemma float_parse_str n :
  (0 <= n)%Z -> PyFloat.parse (PyInt.str n) = Some (PyFloat.Fin (IZR n)).
Proof.
  intros Hn. destruct (str_nonneg_digits n Hn) as (c & r & E & D & U & V).
  unfold PyFloat.parse.
  rewrite strip_no_space by (rewrite E; now apply all_digits_no_space).
  rewrite E.
  pose proof D as D'. simpl in D'. apply andb_true_iff in D' as [Dc _].
  rewrite (digit_neq c "-"%char), (digit_neq c "+"%char) by (auto; reflexivity).
  unfold PyFloat.unsigned.
  assert (Hup : PyStr.upper (PyStr.of_chars (c :: r)) = PyStr.of_chars (c :: r)).
  { unfold PyStr.upper. now rewrite chars_of_chars, map_upper_digits. }
  rewrite Hup.
  destruct (digit_not_letter c Dc) as [HI HN].
  assert (Hinf : String.eqb (PyStr.of_chars (c :: r)) "INF" = false).
  { apply String.eqb_neq. simpl. intros [= -> _]. discriminate. }
  assert (Hinfinity : String.eqb (PyStr.of_chars (c :: r)) "INFINITY" = false).
  { apply String.eqb_neq. simpl. intros [= -> _]. discriminate. }
  assert (Hnan : String.eqb (PyStr.of_chars (c :: r)) "NAN" = false).
  { apply String.eqb_neq. simpl. intros [= -> _]. discriminate. }
  rewrite Hinf, Hinfinity, Hnan. cbn [orb].
  unfold PyFloat.decimal.
  rewrite (split_at_none PyFloat.is_exp_char)
    by (apply digits_no_sep; auto using digit_not_exp).
  rewrite (split_at_none PyFloat.is_dot)
    by (apply digits_no_sep; auto using digit_not_dot).
  unfold PyFloat.digit_part at 1.
  rewrite digit_groups_all_digits by (auto; left; discriminate).
  cbn [PyFloat.digit_part app]. rewrite List.app_nil_r.
  unfold PyFloat.nat_of_digits.
  rewrite <- E, of_chars_chars, U, V.
  cbn [option_map List.length]. do 2 f_equal.
  change (0 - Z.of_nat 0)%Z with 0%Z. simpl powerRZ. ring.
Qed.

Lemma Int_part_IZR n : Int_part (IZR n) = n.
Proof. symmetry. apply Int_part_spec. lra. Qed.

Lemma round_half_even_IZR n : PyFloat.round_half_even (IZR n) = n.
Proof.
  unfold PyFloat.round_half_even. rewrite Int_part_IZR.
  destruct (Rlt_dec (IZR n - IZR n) (1 / 2)); [reflexivity|]. exfalso. lra.
Qed.

(** [f"{x:.0f}"] of a non-negative whole number. *)
Lemma format_0f_whole n x :
  (0 <= n)%Z -> x = IZR n ->
  PyFloat.format_f false 0 (PyFloat.Fin x) = PyInt.str n.
Proof.
  intros Hn ->. unfold PyFloat.format_f.
  assert (0 <= IZR n) by now apply IZR_le.
  replace (Rabs (IZR n) * 10 ^ 0) with (IZR n)
    by (rewrite Rabs_pos_eq by assumption; simpl; ring).
  rewrite round_half_even_IZR.
  destruct (Rlt_dec (IZR n) 0); [lra|].
  change (10 ^ Z.of_nat 0)%Z with 1%Z. rewrite Z.div_1_r.
  simpl. generalize (PyInt.str n). intros s. induction s; simpl; congruence.
Qed.

End FloatLiterals.

Section PanClaims.

Local Open Scope R_scope.

Lemma letter_L : PyStr.is_space "L" = false /\ PyStr.upper_char "L" = "L"%char.
Proof. split; reflexivity. Qed.

Lemma letter_R : PyStr.is_space "R" = false /\ PyStr.upper_char "R" = "R"%char.
Proof. split; reflexivity. Qed.

(** [pan_str_to_value] on a position string. *)
Lemma pan_value_of_position n (d : ascii) :
  (0 <= n)%Z -> d = "L"%char \/ d = "R"%char ->
  pan_str_to_value (PyInt.str n +++ String d EmptyString)
  = Some (PyFloat.Fin (if Ascii.eqb d "L" then - (IZR n / 50) else IZR n / 50)).
Proof.
  intros Hn Hd.
  destruct (position_string_chars n d Hn) as (c & r & Hs & E).
  assert (Hsp : PyStr.is_space d = false) by (destruct Hd as [-> | ->]; reflexivity).
  assert (Hup : PyStr.upper_char d = d) by (destruct Hd as [-> | ->]; reflexivity).
  unfold pan_str_to_value.
  rewrite (position_strip d Hsp _ _ _ Hs), (position_upper d Hup _ _ _ Hs).
  rewrite !(position_not_short d _ _ _ Hs). cbn [orb].
  rewrite !(position_endswith d _ _ _ Hs), (position_drop_last d _ _ _ Hs).
  rewrite <- E, of_chars_chars, float_parse_str by assumption.
  destruct Hd as [-> | ->]; reflexivity.
Qed.

Lemma pan_to_str_finite x :
  pan_to_str (PyFloatV (PyFloat.Fin x))
  = if Rlt_dec (Rabs x) 0.01 then "C"
    else PyFloat.format_f false 0 (PyFloat.Fin (Rabs x * 50))
         +++ (if Rlt_dec x 0 then "L" else "R").
Proof.
  unfold pan_to_str. simpl. unfold PyFloat.Rltb.
  destruct (Rlt_dec (Rabs x) 0.01); [reflexivity|].
  now destruct (Rlt_dec x 0).
Qed.

Lemma pan_to_str_position n (d : ascii) :
  (1 <= n)%Z -> d = "L"%char \/ d = "R"%char ->
  pan_to_str (PyFloatV
                (PyFloat.Fin (if Ascii.eqb d "L" then - (IZR n / 50) else IZR n / 50)))
  = PyInt.str n +++ String d EmptyString.
Proof.
  intros Hn Hd. rewrite pan_to_str_finite.
  assert (H1 : 1 <= IZR n) by now apply IZR_le.
  set (x := if Ascii.eqb d "L" then - (IZR n / 50) else IZR n / 50).
  assert (Habs : Rabs x = IZR n / 50).
  { subst x. destruct Hd as [-> | ->]; simpl.
    - rewrite Rabs_Ropp. apply Rabs_pos_eq. lra.
    - apply Rabs_pos_eq. lra. }
  rewrite Habs.
  destruct (Rlt_dec (IZR n / 50) 0.01); [lra|].
  rewrite (format_0f_whole n) by (try lia; field).
  f_equal. subst x. destruct Hd as [-> | ->]; simpl.
  - destruct (Rlt_dec (- (IZR n / 50)) 0); [reflexivity|lra].
  - destruct (Rlt_dec (IZR n / 50) 0); [lra|reflexivity].
Qed.

(** C9, as stated, fails at position [0]: ["0L"] is read as zero and zero is
    written as the center token. *)
Lemma pan_round_trip_counterexample :
  pan_string 0 "0L" /\
  exists v, pan_str_to_value "0L" = Some v /\ pan_to_str (PyFloatV v) = "C" /\
            "C" <> "0L".
Proof.
  split.
  - right. exists 0%Z, "L". repeat split; auto; lia.
  - exists (PyFloat.Fin (- (IZR 0 / 50))). split; [|split].
    + exact (pan_value_of_position 0 "L" (Z.le_refl 0) (or_introl eq_refl)).
    + rewrite pan_to_str_finite.
      destruct (Rlt_dec (Rabs (- (0 / 50))) 0.01) as [|H]; [reflexivity|].
      exfalso. apply H. rewrite Rabs_Ropp, Rabs_pos_eq; lra.
    + discriminate.
Qed.

(** C9, amended.  For the center token and for every position [1 .. 50]
    followed by [L] or [R], writing the value read from the string gives the
    string back (positions [0L] and [0R] are read as zero and written as the
    center token); and every value [x] with [|x| < 0.01] is written as the
    center token. *)
Theorem pan_round_trip :
  forall (s : string) (x : R),
    pan_string 1 s ->
    (exists v, pan_str_to_value s = Some v /\ pan_to_str (PyFloatV v) = s) /\
    pan_to_str (PyFloatV (PyFloat.Fin x))
    = (if Rlt_dec (Rabs x) 0.01 then "C"
       else PyFloat.format_f false 0 (PyFloat.Fin (Rabs x * 50))
            +++ (if Rlt_dec x 0 then "L" else "R")).
Proof.
  intros s x Hs. split; [|apply pan_to_str_finite].
  destruct Hs as [-> | (n & d & Hn & Hd & ->)].
  - exists (PyFloat.Fin 0). split; [reflexivity|].
    rewrite pan_to_str_finite.
    destruct (Rlt_dec (Rabs 0) 0.01) as [|H]; [reflexivity|].
    exfalso. apply H. rewrite Rabs_R0. lra.
  - assert (Hd' : exists a : ascii, d = String a EmptyString /\
                                    (a = "L"%char \/ a = "R"%char)).
    { destruct Hd as [-> | ->]; eexists; split; eauto. }
    destruct Hd' as (a & -> & Ha).
    eexists. split.
    + apply pan_value_of_position; [lia | assumption].
    + apply pan_to_str_position; [lia | assumption].
Qed.

(** The theorem at ["18R"] and at the value [0.005]. *)
Lemma pan_round_trip_witness :
  pan_string 1 "18R" /\
  (exists v, pan_str_to_value "18R" = Some v /\ pan_to_str (PyFloatV v) = "18R") /\
  pan_to_str (PyFloatV (PyFloat.Fin 0.005)) = "C".
Proof.
  assert (H : pan_string 1 "18R").
  { right. exists 18%Z, "R". repeat split; auto; lia. }
  split; [exact H|].
  destruct (pan_round_trip "18R" 0.005 H) as [A B].
  split; [exact A|].
  rewrite B. destruct (Rlt_dec (Rabs 0.005) 0.01) as [|N]; [reflexivity|].
  exfalso. apply N. rewrite Rabs_pos_eq; lra.
Defined.

End PanClaims.

(* ================================================================= *)
(** ** Identifiers *)

Section Identifiers.

Lemma ids_unfold t a cs : ids (Elem t a cs) = own_id a ++ flat_map ids cs.
Proof.
  unfold ids. simpl iter. simpl flat_map at 1. f_equal.
  induction cs as [|c r IH]; simpl; [reflexivity|].
  now rewrite flat_map_app, IH.
Qed.

Lemma flat_map_update_nth {A B} (g : A -> list B) (f : A -> A) i l :
  (forall x, nth_error l i = Some x -> g (f x) = g x) ->
  flat_map g (update_nth f i l) = flat_map g l.
Proof.
  revert i. induction l as [|x r IH]; intros [|i] H; simpl; auto.
  - f_equal. now apply H.
  - f_equal. now apply IH.
Qed.

(** Writing an attribute other than ["Id"] leaves the identifiers alone. *)
Lemma ids_set k v e : k <> "Id" -> ids (set k v e) = ids e.
Proof.
  intros Hk. destruct e as [t a cs]. simpl. rewrite !ids_unfold. f_equal.
  unfold own_id. now rewrite dict_get_set_other.
Qed.

Lemma ids_update_at f p e :
  (forall x, ids (f x) = ids x) -> ids (update_at f p e) = ids e.
Proof.
  intros Hf. revert e. induction p as [|i p IH]; intros e; simpl; [apply Hf|].
  destruct e as [t a cs]. rewrite !ids_unfold. f_equal.
  apply flat_map_update_nth. intros; apply IH.
Qed.

Lemma ids_set_at p k v e : k <> "Id" -> ids (set_at p k v e) = ids e.
Proof. intros Hk. apply ids_update_at. intros; now apply ids_set. Qed.

Lemma ids_set_if_found path v e : ids (set_if_found path v e) = ids e.
Proof.
  unfold set_if_found. destruct (find_path path e); [|reflexivity].
  apply ids_set_at. discriminate.
Qed.

Lemma ids_fold_set_if_found (ops : list (list string * string)) e :
  ids (fold_left (fun d op => set_if_found (fst op) (snd op) d) ops e) = ids e.
Proof.
  revert e. induction ops as [|op r IH]; intros e; simpl; [reflexivity|].
  now rewrite IH, ids_set_if_found.
Qed.

(** Inserting a subtree adds its identifiers to those of the document. *)
Lemma ids_insert_child k c e :
  Permutation (ids (insert_child k c e)) (ids c ++ ids e).
Proof.
  destruct e as [t a cs]. simpl. rewrite !ids_unfold.
  unfold list_insert. rewrite flat_map_app. simpl flat_map.
  rewrite <- (firstn_skipn k cs) at 3. rewrite flat_map_app.
  set (A := own_id a). set (X := flat_map ids (firstn k cs)).
  set (Y := flat_map ids (skipn k cs)). set (C := ids c).
  rewrite (Permutation_app_comm C (A ++ X ++ Y)).
  rewrite <- !app_assoc. apply Permutation_app_head, Permutation_app_head.
  apply Permutation_app_comm.
Qed.

Lemma flat_map_update_nth_perm {A B} (g : A -> list B) (f : A -> A) (extra : list B) i l x :
  nth_error l i = Some x ->
  Permutation (g (f x)) (extra ++ g x) ->
  Permutation (flat_map g (update_nth f i l)) (extra ++ flat_map g l).
Proof.
  revert i. induction l as [|y r IH]; intros [|i]; simpl; try discriminate.
  - intros [= ->] H. rewrite H. now rewrite app_assoc.
  - intros Hx H. rewrite (IH _ Hx H).
    rewrite !app_assoc. apply Permutation_app_tail, Permutation_app_comm.
Qed.

Lemma ids_insert_at k c p e x :
  get_at p e = Some x ->
  Permutation (ids (update_at (insert_child k c) p e)) (ids c ++ ids e).
Proof.
  revert e. induction p as [|i p IH]; intros e; simpl.
  - intros _. apply ids_insert_child.
  - destruct e as [t a cs]. simpl. destruct (nth_error cs i) as [y|] eqn:E; [|discriminate].
    intros Hx. rewrite !ids_unfold.
    rewrite (flat_map_update_nth_perm ids _ (ids c) i cs y E (IH _ Hx)).
    rewrite !app_assoc. apply Permutation_app_tail, Permutation_app_comm.
Qed.

(** [find_max_id] bounds every identifier that reads as an integer. *)
Lemma fold_max_ge (l : list Element) (m0 : Z) :
  let step := fun max_id el =>
                match get "Id" el with
                | Some id_val =>
                    match PyInt.parse id_val with
                    | Some n => Z.max max_id n
                    | None => max_id
                    end
                | None => max_id
                end in
  (m0 <= fold_left step l m0)%Z /\
  forall el v n, In el l -> get "Id" el = Some v -> PyInt.parse v = Some n ->
                 (n <= fold_left step l m0)%Z.
Proof.
  intros step. revert m0. induction l as [|x r IH]; intros m0; simpl.
  - split; [lia | intros ? ? ? []].
  - destruct (IH (step m0 x)) as [A B].
    assert (Hm : (m0 <= step m0 x)%Z).
    { unfold step. destruct (get "Id" x); [|lia].
      destruct (PyInt.parse s); lia. }
    split; [lia|].
    intros el v n [E | Hin] Hv Hn; [subst x|].
    + assert (n <= step m0 el)%Z by (unfold step; rewrite Hv, Hn; lia). lia.
    + eapply B; eauto.
Qed.

Lemma find_max_id_nonneg root : (0 <= find_max_id root)%Z.
Proof. apply (fold_max_ge (iter root) 0). Qed.

Lemma In_ids v e : In v (ids e) <-> exists el, In el (iter e) /\ get "Id" el = Some v.
Proof.
  unfold ids. rewrite in_flat_map. split; intros (el & Hin & H); exists el; split; auto.
  - destruct (get "Id" el); simpl in H; [destruct H as [-> | []]; reflexivity | contradiction].
  - rewrite H. now left.
Qed.

Lemma find_max_id_bounds root v n :
  In v (ids root) -> PyInt.parse v = Some n -> (n <= find_max_id root)%Z.
Proof.
  intros (el & Hin & Hv)%In_ids Hn.
  exact (proj2 (fold_max_ge (iter root) 0) el v n Hin Hv Hn).
Qed.

(** The identifiers [str(n)] for [n] above the maximum are fresh. *)
Lemma fresh_above_max root n :
  (find_max_id root < n)%Z -> ~ In (PyInt.str n) (ids root).
Proof.
  intros Hn Hin. pose proof (find_max_id_nonneg root).
  pose proof (find_max_id_bounds root _ n Hin (parse_str n ltac:(lia))). lia.
Qed.

Lemma In_Zseq n s k : In n (Zseq s k) <-> (s <= n < s + Z.of_nat k)%Z.
Proof.
  revert s. induction k as [|k IH]; intros s; simpl Zseq.
  - simpl. lia.
  - simpl In. rewrite IH. lia.
Qed.

Lemma NoDup_Zseq s k : NoDup (Zseq s k).
Proof.
  revert s. induction k as [|k IH]; intros s; simpl; constructor; auto.
  rewrite In_Zseq. lia.
Qed.

Lemma Zseq_app s a b : Zseq s (a + b) = Zseq s a ++ Zseq (s + Z.of_nat a) b.
Proof.
  revert s. induction a as [|a IH]; intros s.
  - simpl. now rewrite Z.add_0_r.
  - cbn [Nat.add Zseq app]. rewrite IH. do 3 f_equal. lia.
Qed.

Lemma NoDup_fresh_ids s k :
  (0 <= s)%Z -> NoDup (map PyInt.str (Zseq s k)).
Proof.
  intros Hs. apply NoDup_map_NoDup_ForallPairs; [|apply NoDup_Zseq].
  intros a b Ha%In_Zseq Hb%In_Zseq E. apply str_inj; auto; lia.
Qed.

(** *** [remap_ids] numbers the identifier-bearing nodes consecutively *)

Lemma own_id_length_mem a :
  List.length (own_id a) = if dict_mem "Id" a then 1 else 0.
Proof. unfold own_id, dict_mem. now destruct (dict_get "Id" a). Qed.

Lemma remap_ids_spec element start :
  ids (fst (remap_ids element start))
  = map PyInt.str (Zseq start (List.length (ids element))) /\
  snd (remap_ids element start) = (start + Z.of_nat (List.length (ids element)))%Z.
Proof.
  revert start. induction element as [t a cs IH] using Element_rect_nested.
  intros start. cbn [remap_ids].
  set (go := fix go (l : list Element) (n : Z) : list Element * Z :=
               match l with
               | [] => ([], n)
               | c :: r =>
                   let '(c', n1) := remap_ids c n in
                   let '(r', n2) := go r n1 in (c' :: r', n2)
               end).
  assert (Hgo : forall l, Forall (fun c => forall s,
                   ids (fst (remap_ids c s))
                   = map PyInt.str (Zseq s (List.length (ids c))) /\
                   snd (remap_ids c s) = (s + Z.of_nat (List.length (ids c)))%Z) l ->
                forall n,
                  flat_map ids (fst (go l n))
                  = map PyInt.str (Zseq n (List.length (flat_map ids l))) /\
                  snd (go l n) = (n + Z.of_nat (List.length (flat_map ids l)))%Z).
  { induction l as [|c r IHr]; intros HF n; simpl.
    - split; [reflexivity | lia].
    - inversion HF as [|? ? Hc Hr]; subst.
      destruct (Hc n) as [C1 C2]. destruct (remap_ids c n) as [c' n1]. simpl in C1, C2.
      destruct (IHr Hr n1) as [R1 R2]. destruct (go r n1) as [r' n2]. simpl in R1, R2.
      simpl. rewrite C1, R1, length_app, Zseq_app, map_app. subst. split; [reflexivity|].
      lia. }
  destruct (dict_mem "Id" a) eqn:Hmem.
  - destruct (Hgo cs IH (start + 1)%Z) as [G1 G2].
    destruct (go cs (start + 1)%Z) as [cs' n']. simpl in G1, G2. cbn [fst snd].
    rewrite !ids_unfold, length_app, own_id_length_mem, Hmem, G1.
    unfold own_id at 1. rewrite dict_get_set_same.
    cbn [List.length Nat.add Zseq map app]. split; [reflexivity|]. lia.
  - destruct (Hgo cs IH start) as [G1 G2].
    destruct (go cs start) as [cs' n']. simpl in G1, G2. cbn [fst snd].
    rewrite !ids_unfold, length_app, own_id_length_mem, Hmem, G1.
    unfold own_id, dict_mem in *. destruct (dict_get "Id" a); [discriminate|].
    cbn [List.length Nat.add app]. split; [reflexivity|]. lia.
Qed.

End Identifiers.

(* ================================================================= *)
(** ** Inserting a device *)

Section AddDevice.

Variable float_str : PyFloat.t -> string.

Lemma set_param_value_spec element path v element' :
  set_param_value element path v = Some element' ->
  exists p, param_target element path = Some p /\ element' = set_at p "Value" v element.
Proof.
  unfold set_param_value. destruct (param_target element path) as [p|]; [|discriminate].
  intros [= <-]. now exists p.
Qed.

Lemma apply_params_ids tag params device device' :
  apply_params float_str tag params device = inl device' -> ids device' = ids device.
Proof.
  revert device. induction params as [|[path val] rest IH]; intros device; simpl.
  - now intros [= <-].
  - destruct (actual_text float_str tag path val) as [text|e]; [|discriminate].
    destruct (set_param_value device path text) as [d1|] eqn:E; [|discriminate].
    intros H. rewrite (IH _ H).
    apply set_param_value_spec in E as (p & _ & ->). apply ids_set_at. discriminate.
Qed.

Lemma fold_left_flat_map {A B C} (f : A -> C -> A) (g : B -> list C) l a :
  fold_left f (flat_map g l) a = fold_left (fun a x => fold_left f (g x) a) l a.
Proof.
  revert a. induction l as [|x r IH]; intros a; simpl; [reflexivity|].
  now rewrite fold_left_app, IH.
Qed.

Lemma fold_left_map {A B C} (f : A -> C -> A) (g : B -> C) l a :
  fold_left f (map g l) a = fold_left (fun a x => f a (g x)) l a.
Proof. revert a. induction l as [|x r IH]; intros a; simpl; auto. Qed.

Lemma fold_left_pointwise {A B} (f g : A -> B -> A) l a :
  (forall a x, f a x = g a x) -> fold_left f l a = fold_left g l a.
Proof.
  intros H. revert a. induction l as [|x r IH]; intros a; simpl; [reflexivity|].
  now rewrite H, IH.
Qed.

Lemma reset_eq8_table device :
  reset_eq8_defaults device = apply_table eq8_reset_table device.
Proof.
  unfold reset_eq8_defaults, apply_table, eq8_reset_table.
  rewrite fold_left_flat_map.
  apply fold_left_pointwise. intros d i.
  rewrite fold_left_flat_map.
  apply fold_left_pointwise. intros d' ps. reflexivity.
Qed.

Lemma reset_compressor_table device :
  reset_compressor_defaults float_str device
  = apply_table (compressor_reset_table float_str) device.
Proof.
  unfold reset_compressor_defaults, apply_table, compressor_reset_table.
  now rewrite fold_left_map.
Qed.

Lemma apply_table_app ops1 ops2 device :
  apply_table (ops1 ++ ops2) device = apply_table ops2 (apply_table ops1 device).
Proof. apply fold_left_app. Qed.

(** The clone before the requested parameters: the reset table of the type,
    then the device switched on, written over the renumbered copy. *)
Lemma prepare_clone_table root donor tag :
  prepare_clone float_str root donor tag
  = apply_table (reset_table float_str tag ++ [(["On"; "Manual"], "true")])
                (fst (remap_ids donor (find_max_id root + 1))).
Proof.
  unfold prepare_clone. rewrite apply_table_app.
  set (copy := fst (remap_ids donor (find_max_id root + 1))).
  assert (H : match DEVICE_RESETTERS float_str tag with
              | Some resetter => resetter copy
              | None => copy
              end = apply_table (reset_table float_str tag) copy).
  { unfold DEVICE_RESETTERS, reset_table.
    destruct (String.eqb tag "Eq8"); [apply reset_eq8_table|].
    destruct (String.eqb tag "Compressor2"); [apply reset_compressor_table|].
    reflexivity. }
  rewrite H. reflexivity.
Qed.

Lemma ids_prepare_clone root donor tag :
  ids (prepare_clone float_str root donor tag)
  = map PyInt.str (Zseq (find_max_id root + 1) (List.length (ids donor))).
Proof.
  rewrite prepare_clone_table. unfold apply_table.
  rewrite ids_fold_set_if_found. apply remap_ids_spec.
Qed.

Lemma nth_error_list_insert {A} k (c : A) l :
  k <= List.length l -> nth_error (list_insert k c l) k = Some c.
Proof.
  intros Hk. unfold list_insert.
  rewrite nth_error_app2 by (rewrite length_firstn; lia).
  rewrite length_firstn, Nat.min_l, Nat.sub_diag by lia. reflexivity.
Qed.

Lemma get_at_inserted k c p e x :
  get_at p e = Some x -> k <= List.length (children x) ->
  get_at (p ++ [k]) (update_at (insert_child k c) p e) = Some c.
Proof.
  intros Hx Hk. rewrite get_at_app, get_at_update_at_same, Hx. simpl.
  destruct x as [t a cs]. simpl in *. now rewrite nth_error_list_insert.
Qed.

Lemma py_insert_index_le len i : py_insert_index len i <= len.
Proof. unfold py_insert_index. destruct (i <? 0)%Z eqn:E; lia. Qed.

(** The two ways the ["add_device"] branch ends: the document is left as it
    was, or the finished clone of the donor is spliced into the chain. *)
Lemma apply_add_device_cases root tracks_el name track_el tag position params dn :
  let o := apply_add_device float_str root tracks_el name track_el tag position params dn in
  (outcome_document o = root /\
   (forall root' tracks' descs, o = Return root' tracks' descs ->
                                exists msg, descs = [msg] /\ is_error msg = true)) \/
  exists donor devices_el chain k new_device desc,
    find_donor_device root tag = Some donor /\
    apply_params float_str tag params (prepare_clone float_str root donor tag)
    = inl new_device /\
    find_at track_el ["DeviceChain"; "DeviceChain"; "Devices"] root = Some devices_el /\
    get_at devices_el root = Some chain /\
    k <= List.length (children chain) /\
    is_error desc = false /\
    o = Return (update_at (insert_child k new_device) devices_el root)
               (shift_pos devices_el k tracks_el) [desc].
Proof.
  intros o. subst o. unfold apply_add_device.
  destruct (find_donor_device root tag) as [donor|];
    [|left; split; [reflexivity | intros ? ? ? [= <- <- <-]; eauto]].
  destruct (apply_params float_str tag params _) as [new_device|[path|e]] eqn:Hp;
    [ | left; split; [reflexivity | intros ? ? ? [= <- <- <-]; eauto]
      | left; split; [reflexivity | discriminate] ].
  destruct (find_at track_el _ root) as [devices_el|] eqn:Hd;
    [|left; split; [reflexivity | intros ? ? ? [= <- <- <-]; eauto]].
  right.
  assert (Hc : exists chain, get_at devices_el root = Some chain /\
                             children_at devices_el root = children chain).
  { unfold find_at in Hd. destruct (get_at track_el root) as [t|] eqn:Ht; [|discriminate].
    destruct (find_path _ t) as [q|] eqn:Hq; [|discriminate]. injection Hd as <-.
    destruct (find_path_live _ _ _ Hq) as [chain Hchain].
    exists chain. unfold children_at. rewrite get_at_app, Ht, Hchain. auto. }
  destruct Hc as (chain & Hchain & Hch). rewrite Hch.
  set (len := List.length (children chain)).
  destruct ((position =? -1)%Z || (position >=? Z.of_nat len)%Z).
  - exists donor, devices_el, chain, len, new_device. eexists.
    repeat split; eauto.
  - exists donor, devices_el, chain, (py_insert_index len position), new_device. eexists.
    repeat split; eauto. apply py_insert_index_le.
Qed.

End AddDevice.

(* ================================================================= *)
(** ** Batches: a request for a missing track *)

Section Batches.

Variable float_str : PyFloat.t -> string.

Lemma prefix_chars_app p b : PyStr.prefix_chars p (p ++ b) = true.
Proof. induction p; simpl; [reflexivity|]. now rewrite Ascii.eqb_refl. Qed.

Lemma contains_chars_app a p b : PyStr.contains_chars p (a ++ p ++ b) = true.
Proof.
  induction a as [|x a IH].
  - simpl app. pose proof (prefix_chars_app p b) as H.
    destruct (p ++ b); simpl; now rewrite H.
  - simpl. rewrite IH. apply orb_true_r.
Qed.

Lemma contains_middle a s b : PyStr.contains s (a +++ s +++ b) = true.
Proof. unfold PyStr.contains. rewrite !chars_append. apply contains_chars_app. Qed.

Lemma is_error_ERROR s : is_error ("ERROR: " +++ s) = true.
Proof. reflexivity. Qed.

(** A request for a missing track is answered by one error message that
    names the track; the document is not touched. *)
Lemma apply_change_missing_track root tracks_el c :
  targets_missing_track root tracks_el c ->
  exists msg,
    is_error msg = true /\
    PyStr.contains (track_name c) msg = true /\
    apply_change float_str root tracks_el c = Return root tracks_el [msg].
Proof.
  intros (H1 & H2 & H3 & H4).
  unfold apply_change, resolve_track. rewrite H1, H2, H3. cbn [orb].
  destruct (find_tracks_by_name _ _ _) as [|m ms] eqn:E.
  - eexists. split; [|split; [|reflexivity]].
    + reflexivity.
    + apply (contains_middle "ERROR: Could not find track '" (track_name c) "'").
  - destruct H4 as [H4 | H4]; [discriminate|].
    apply Z.geb_le in H4. rewrite H4.
    eexists. split; [|split; [|reflexivity]].
    + reflexivity.
    + apply (contains_middle "ERROR: Track '" (track_name c)).
Qed.

Lemma apply_changes_app pre post st :
  apply_changes float_str (pre ++ post) st =
  match apply_changes float_str pre st with
  | Completed st' => apply_changes float_str post st'
  | Aborted r e => Aborted r e
  end.
Proof.
  revert st. induction pre as [|c pre IH]; intros st; simpl; [reflexivity|].
  destruct (apply_change float_str (document st) (tracks_ref st) c); auto.
Qed.

Lemma list_insert_app_l {A} n (x : A) l l' :
  n <= List.length l -> list_insert n x (l ++ l') = list_insert n x l ++ l'.
Proof.
  intros Hn. unfold list_insert.
  rewrite firstn_app, skipn_app.
  replace (n - List.length l) with 0 by lia. simpl.
  now rewrite List.app_nil_r, <- app_assoc.
Qed.

(** The rest of a batch does not look at the errors collected so far. *)
Lemma apply_changes_insert_error n msg post st :
  n <= List.length (errors st) ->
  apply_changes float_str post (insert_error n msg st)
  = map_run (insert_error n msg) (apply_changes float_str post st).
Proof.
  revert st. induction post as [|c post IH]; intros st Hn; simpl; [reflexivity|].
  destruct (apply_change float_str (document st) (tracks_ref st) c)
    as [root tracks result | root e]; [|reflexivity].
  rewrite <- IH by (simpl; rewrite length_app; lia).
  f_equal. unfold insert_error. simpl. f_equal. now rewrite list_insert_app_l.
Qed.

(** C2, as stated, fails for an occurrence index that is out of range
    below: ["Snare"] names one track, index [-2] is none of its occurrences,
    and the request is not reported as an error; [IndexError] escapes
    [apply_change] and [main], the run ends there, no error was collected
    and the request after it is never applied. *)
Lemma missing_track_counterexample :
  find_tracks_by_name (deref [0; 0] sample_project) "Snare" None = [0] /\
  apply_change sample_float_str sample_project [0; 0]
    {| track_name := "Snare"; track_type := None; track_index := -2;
       change_target := Pan "C" |}
  = Raise sample_project IndexError /\
  main sample_float_str sample_project
    [ {| track_name := "Snare"; track_type := None; track_index := -2;
         change_target := Pan "C" |};
      sample_change "Kick" (AddDevice "Eq8" (-1) [] None) ]
  = Some (Aborted (initial_run sample_project [0; 0]) IndexError).
Proof. repeat split; vm_compute; reflexivity. Qed.


End Batches.


(* ================================================================= *)
(** ** Requests that write nothing, and requests that raise *)

Section QuietRequests.

Variable float_str : PyFloat.t -> string.

Lemma unparseable_pan_raises s : unparseable_pan s -> pan_str_to_value s = None.
Proof.
  intros (H1 & H2 & H3 & H4 & H5). unfold pan_str_to_value.
  now rewrite H1, H2, H3, H4, H5.
Qed.

Lemma run_eta st :
  {| document := document st; tracks_ref := tracks_ref st;
     all_descriptions := all_descriptions st; errors := errors st |} = st.
Proof. now destruct st. Qed.

(** A request that returns no description leaves the run as it was. *)
Lemma apply_changes_silent c post st :
  apply_change float_str (document st) (tracks_ref st) c
  = Return (document st) (tracks_ref st) [] ->
  apply_changes float_str (c :: post) st = apply_changes float_str post st.
Proof.
  intros H. simpl. rewrite H. simpl. rewrite !List.app_nil_r. now rewrite run_eta.
Qed.

(** A request that raises ends the run where it stands. *)
Lemma apply_changes_raise c post st e :
  apply_change float_str (document st) (tracks_ref st) c = Raise (document st) e ->
  apply_changes float_str (c :: post) st = Aborted st e.
Proof. intros H. simpl. rewrite H. now rewrite run_eta. Qed.

(** C6, as stated, fails: the unreadable pan text ["hard left"] is not
    reported as an error of its request; [ValueError] escapes [apply_change]
    and [main], the run ends there, no error was collected and the request
    after it is never applied. *)
Lemma unparseable_pan_counterexample :
  unparseable_pan "hard left" /\
  main sample_float_str sample_project
       [ sample_change "Kick" (Pan "hard left");
         sample_change "Kick" (AddDevice "Eq8" (-1) [] None) ]
  = Some (Aborted (initial_run sample_project [0; 0]) ValueError).
Proof.
  split.
  - unfold unparseable_pan. repeat split; vm_compute; reflexivity.
  - vm_compute. reflexivity.
Qed.

(** C6, amended.  A pan request with unreadable, direction-less, non-numeric
    text whose track resolves leaves the document unchanged, but the failure
    is not reported per request: [ValueError] escapes [apply_change], and the
    batch loop ends at that request, so the requests after it are not
    applied. *)
Theorem unparseable_pan_aborts :
  forall (pre post : list change) (c : change) (s : string)
         (st st1 : run) (track_el : pos),
    apply_changes float_str pre st = Completed st1 ->
    change_target c = Pan s ->
    unparseable_pan s ->
    resolve_track (document st1) (tracks_ref st1) c = Resolved track_el ->
    apply_change float_str (document st1) (tracks_ref st1) c
    = Raise (document st1) ValueError /\
    apply_changes float_str (pre ++ c :: post) st = Aborted st1 ValueError.
Proof.
  intros pre post c s st st1 track_el Hpre Hc Hs Hr.
  assert (H : apply_change float_str (document st1) (tracks_ref st1) c
              = Raise (document st1) ValueError).
  { unfold apply_change. rewrite Hr, Hc. unfold apply_pan.
    now rewrite (unparseable_pan_raises s Hs). }
  split; [exact H|].
  rewrite apply_changes_app, Hpre. now apply apply_changes_raise.
Qed.



End QuietRequests.


(** The theorem on the sample project: unreadable pan text for ["Kick"]
    after one device insertion. *)
Lemma unparseable_pan_aborts_witness :
  apply_changes sample_float_str sample_pre (initial_run sample_project [0; 0])
  = Completed sample_st1 /\
  unparseable_pan "hard left" /\
  resolve_track (document sample_st1) (tracks_ref sample_st1)
                (sample_change "Kick" (Pan "hard left")) = Resolved [0; 0; 1] /\
  apply_change sample_float_str (document sample_st1) (tracks_ref sample_st1)
               (sample_change "Kick" (Pan "hard left"))
  = Raise (document sample_st1) ValueError /\
  apply_changes sample_float_str
                (sample_pre ++ sample_change "Kick" (Pan "hard left") :: sample_post)
                (initial_run sample_project [0; 0])
  = Aborted sample_st1 ValueError.
Proof.
  assert (H1 : apply_changes sample_float_str sample_pre (initial_run sample_project [0; 0])
               = Completed sample_st1) by (vm_compute; reflexivity).
  assert (H2 : unparseable_pan "hard left")
    by (unfold unparseable_pan; repeat split; vm_compute; reflexivity).
  assert (H3 : resolve_track (document sample_st1) (tracks_ref sample_st1)
                 (sample_change "Kick" (Pan "hard left")) = Resolved [0; 0; 1])
    by (vm_compute; reflexivity).
  repeat (split; [assumption|]).
  exact (unparseable_pan_aborts sample_float_str sample_pre sample_post
           (sample_change "Kick" (Pan "hard left")) "hard left"
           (initial_run sample_project [0; 0]) sample_st1 [0; 0; 1] H1 eq_refl H2 H3).
Defined.

(* ================================================================= *)
(** ** Setting a send *)

Section Sends.

Variable float_str : PyFloat.t -> string.

Lemma find_at_extends p path root q :
  find_at p path root = Some q -> exists rel, q = p ++ rel /\ exists x, get_at q root = Some x.
Proof.
  unfold find_at. destruct (get_at p root) as [e|] eqn:E; [|discriminate].
  destruct (find_path path e) as [rel|] eqn:F; [|discriminate].
  intros [= <-]. exists rel. split; [reflexivity|].
  destruct (find_path_live _ _ _ F) as [x Hx]. exists x.
  now rewrite get_at_app, E.
Qed.

Lemma py_index_seq n i :
  (0 <= i < Z.of_nat n)%Z -> py_index (seq 0 n) i = Some (Z.to_nat i).
Proof.
  intros Hi. unfold py_index.
  replace (0 <=? i)%Z with true by (symmetry; apply Z.leb_le; lia).
  rewrite nth_error_nth' with (d := 0) by (rewrite length_seq; lia).
  now rewrite seq_nth by lia.
Qed.

Lemma value_at_set_at p v root x :
  get_at p root = Some x -> value_at p (set_at p "Value" v root) = Some v.
Proof.
  intros Hx. unfold value_at, set_at. rewrite get_at_update_at_same, Hx. simpl.
  apply get_set_same.
Qed.

Lemma py_index_seq_any n i :
  let len := Z.of_nat n in
  (- len <= i < len)%Z ->
  py_index (seq 0 n) i = Some (Z.to_nat (if (0 <=? i)%Z then i else len + i)).
Proof.
  intros len Hi. unfold py_index. rewrite length_seq. fold len.
  destruct (Z.leb_spec 0 i).
  - rewrite nth_error_nth' with (d := 0) by (rewrite length_seq; lia).
    now rewrite seq_nth by lia.
  - replace (- len <=? i)%Z with true by (symmetry; apply Z.leb_le; lia).
    rewrite nth_error_nth' with (d := 0) by (rewrite length_seq; lia).
    now rewrite seq_nth by lia.
Qed.

Lemma py_index_seq_below n i :
  (i < - Z.of_nat n)%Z -> py_index (seq 0 n) i = None.
Proof.
  intros Hi. unfold py_index. rewrite length_seq.
  replace (0 <=? i)%Z with false by (symmetry; apply Z.leb_gt; lia).
  replace (- Z.of_nat n <=? i)%Z with false by (symmetry; apply Z.leb_gt; lia).
  reflexivity.
Qed.

Lemma not_error_description s : is_error ("  " +++ s) = false.
Proof. reflexivity. Qed.

(** C8, as stated, fails: a send request whose index is beyond the send
    holders is no silent no-op when its level is too large for
    [db_to_linear], which runs before the index is looked at.  On ["Snare"],
    with two send holders, index [2] and [7000] dB raise [OverflowError],
    and the run ends there. *)
Lemma send_out_of_range_counterexample :
  resolve_track sample_project [0; 0]
    (sample_change "Snare" (Send 2 (Some (PyFloat.Fin 7000%R)))) = Resolved [0; 0; 0] /\
  find_desc_at [0; 0; 0] "DeviceChain" ["Mixer"] sample_project = Some [0; 0; 0; 1; 0] /\
  find_at [0; 0; 0; 1; 0] ["Sends"] sample_project = Some [0; 0; 0; 1; 0; 2] /\
  List.length (children_at [0; 0; 0; 1; 0; 2] sample_project) = 2 /\
  apply_change sample_float_str sample_project [0; 0]
    (sample_change "Snare" (Send 2 (Some (PyFloat.Fin 7000%R))))
  = Raise sample_project OverflowError /\
  main sample_float_str sample_project
    [ sample_change "Snare" (Send 2 (Some (PyFloat.Fin 7000%R)));
      sample_change "Kick" (AddDevice "Eq8" (-1) [] None) ]
  = Some (Aborted (initial_run sample_project [0; 0]) OverflowError).
Proof.
  assert (H1 : resolve_track sample_project [0; 0]
                 (sample_change "Snare" (Send 2 (Some (PyFloat.Fin 7000%R))))
               = Resolved [0; 0; 0]) by (vm_compute; reflexivity).
  assert (H : apply_change sample_float_str sample_project [0; 0]
                (sample_change "Snare" (Send 2 (Some (PyFloat.Fin 7000%R))))
              = Raise sample_project OverflowError).
  { unfold apply_change. rewrite H1. cbn [change_target sample_change].
    unfold apply_send. now rewrite db_to_linear_overflow by lra. }
  split; [exact H1|]. split; [vm_compute; reflexivity|].
  split; [vm_compute; reflexivity|]. split; [vm_compute; reflexivity|].
  split; [exact H|].
  unfold main.
  replace (find_desc "LiveSet" ["Tracks"] sample_project) with (Some [0; 0])
    by (vm_compute; reflexivity).
  cbn [apply_changes document tracks_ref all_descriptions errors].
  rewrite H. reflexivity.
Qed.


End Sends.


(* ================================================================= *)
(** ** Resetting the clone; the donor *)

Section Tables.

(** A found position spells its path. *)
Lemma find_path_tags path e p :
  find_path path e = Some p -> tags_along p e = Some path.
Proof.
  revert e p. induction path as [|t rest IH]; intros e p; simpl.
  - now intros [= <-].
  - intros H. apply first_some_In in H as (k & x & Hk & Hx). simpl in Hx.
    destruct (String.eqb_spec (tag x) t) as [<-|]; [|discriminate].
    destruct (find_path rest x) as [q|] eqn:E; [|discriminate].
    injection Hx as <-. simpl. rewrite Hk. now rewrite (IH _ _ E).
Qed.

Lemma find_path_inj path path' e p :
  find_path path e = Some p -> find_path path' e = Some p -> path = path'.
Proof.
  intros H H'. apply find_path_tags in H, H'. congruence.
Qed.

(** Writing an attribute at [p] leaves the attributes elsewhere alone. *)
Lemma attrib_elsewhere k v p q e :
  p <> q ->
  option_map attrib (get_at q (set_at p k v e)) = option_map attrib (get_at q e).
Proof.
  unfold set_at. revert q e. induction p as [|i p IH]; intros [|j q] e Hpq.
  - congruence.
  - simpl. now destruct e.
  - simpl. now destruct e.
  - destruct e as [t a cs]. simpl. rewrite nth_error_update_nth.
    destruct (Nat.eqb_spec i j) as [->|]; [|reflexivity].
    destruct (nth_error cs j); simpl; [|reflexivity].
    apply IH. congruence.
Qed.

Lemma value_at_attrib p e :
  value_at p e = match option_map attrib (get_at p e) with
                 | Some a => dict_get "Value" a
                 | None => None
                 end.
Proof. unfold value_at. now destruct (get_at p e). Qed.

Lemma value_at_elsewhere v p q e :
  p <> q -> value_at q (set_at p "Value" v e) = value_at q e.
Proof. intros H. now rewrite !value_at_attrib, attrib_elsewhere. Qed.

Lemma value_at_written v p e :
  value_at p (set_at p "Value" v e) = Some v \/
  value_at p (set_at p "Value" v e) = value_at p e.
Proof.
  destruct (get_at p e) as [x|] eqn:E.
  - left. now apply value_at_set_at with x.
  - right. unfold set_at. now rewrite update_at_dangling.
Qed.

Lemma find_path_set_if_found path path' v e :
  find_path path (set_if_found path' v e) = find_path path e.
Proof.
  unfold set_if_found. destruct (find_path path' e); [|reflexivity].
  apply find_path_set_at.
Qed.

Lemma find_path_apply_table path ops e :
  find_path path (apply_table ops e) = find_path path e.
Proof.
  revert e. induction ops as [|op r IH]; intros e; simpl; [reflexivity|].
  unfold apply_table in *. simpl. now rewrite IH, find_path_set_if_found.
Qed.

(** Writes along other paths do not reach the element found along [path]. *)
Lemma apply_table_elsewhere path ops e p :
  ~ In path (map fst ops) ->
  find_path path e = Some p ->
  value_at p (apply_table ops e) = value_at p e.
Proof.
  revert e. induction ops as [|[path' d] r IH]; intros e Hn Hp; [reflexivity|].
  simpl in Hn. unfold apply_table in *. simpl.
  rewrite IH by (try rewrite find_path_set_if_found; tauto).
  unfold set_if_found. destruct (find_path path' e) as [q|] eqn:Hq; [|reflexivity].
  apply value_at_elsewhere. intros ->.
  apply Hn. left. simpl. eapply find_path_inj; eauto.
Qed.

(** After a table of writes along distinct paths, each path that leads
    somewhere leads to its value. *)
Lemma apply_table_value ops e path d p :
  NoDup (map fst ops) ->
  In (path, d) ops ->
  find_path path e = Some p ->
  value_at p (apply_table ops e) = Some d.
Proof.
  revert e. induction ops as [|[path' d'] r IH]; intros e Hnd Hin Hp; [contradiction|].
  simpl in Hnd. inversion Hnd as [|? ? Hnotin Hnd']; subst.
  unfold apply_table in *. simpl.
  destruct Hin as [[= -> ->] | Hin].
  - rewrite (apply_table_elsewhere path r) by
        (try rewrite find_path_set_if_found; assumption).
    unfold set_if_found. rewrite Hp.
    destruct (find_path_live _ _ _ Hp) as [x Hx].
    now apply value_at_set_at with x.
  - apply IH; auto. now rewrite find_path_set_if_found.
Qed.

Lemma distinct_paths_NoDup l : distinct_paths l = true -> NoDup l.
Proof.
  induction l as [|x r IH]; simpl; [constructor|].
  intros H%andb_true_iff. destruct H as [H1 H2]. constructor; auto.
  intros Hin. apply negb_true_iff in H1.
  assert (existsb (fun y => if list_eq_dec string_dec x y then true else false) r = true).
  { apply existsb_exists. exists x. split; auto.
    now destruct (list_eq_dec string_dec x x). }
  congruence.
Qed.

End Tables.

Section CloneAndDonor.

Variable float_str : PyFloat.t -> string.

Lemma eq8_table_paths_distinct :
  NoDup (map fst (eq8_reset_table ++ [(["On"; "Manual"], "true")])).
Proof. apply distinct_paths_NoDup. vm_compute. reflexivity. Qed.

Lemma compressor_table_paths :
  map fst (compressor_reset_table float_str ++ [(["On"; "Manual"], "true")])
  = [ ["Threshold"; "Manual"]; ["Ratio"; "Manual"]; ["Attack"; "Manual"];
      ["Release"; "Manual"]; ["DryWet"; "Manual"]; ["GainCompensation"; "Manual"];
      ["On"; "Manual"] ].
Proof. reflexivity. Qed.

Lemma reset_table_paths_distinct tag :
  NoDup (map fst (reset_table float_str tag ++ [(["On"; "Manual"], "true")])).
Proof.
  unfold reset_table.
  destruct (String.eqb tag "Eq8"); [apply eq8_table_paths_distinct|].
  destruct (String.eqb tag "Compressor2").
  - rewrite compressor_table_paths. apply distinct_paths_NoDup. vm_compute. reflexivity.
  - simpl. repeat constructor. simpl. tauto.
Qed.

(** The clone, before the requested parameters, holds the registered
    default wherever a path of the reset table leads. *)
Lemma prepare_clone_defaults root donor tag path dflt p :
  In (path, dflt) (reset_table float_str tag) ->
  find_path path (prepare_clone float_str root donor tag) = Some p ->
  value_at p (prepare_clone float_str root donor tag) = Some dflt.
Proof.
  rewrite prepare_clone_table. intros Hin Hp.
  rewrite find_path_apply_table in Hp.
  apply apply_table_value with path; auto.
  - apply reset_table_paths_distinct.
  - apply in_or_app. now left.
Qed.

(** The requested parameters only write values. *)
Lemma apply_params_shape tag params device device' :
  apply_params float_str tag params device = inl device' ->
  shape device' = shape device.
Proof.
  revert device. induction params as [|[path val] rest IH]; intros device.
  - simpl. now intros [= <-].
  - cbn [apply_params].
    destruct (actual_text float_str tag path val) as [text|e]; [|discriminate].
    destruct (set_param_value device path text) as [d1|] eqn:E; [|discriminate].
    intros H. rewrite (IH _ H).
    apply set_param_value_spec in E as (q & _ & ->). apply shape_set_at.
Qed.

Lemma nth_error_list_insert_before {A} k (c : A) l i :
  i < k -> k <= List.length l -> nth_error (list_insert k c l) i = nth_error l i.
Proof.
  intros Hi Hk. unfold list_insert.
  rewrite nth_error_app1 by (rewrite length_firstn; lia).
  rewrite nth_error_firstn.
  now replace (i <? k) with true by (symmetry; apply Nat.ltb_lt; lia).
Qed.

Lemma nth_error_list_insert_after {A} k (c : A) l i :
  k <= i -> k <= List.length l -> nth_error (list_insert k c l) (S i) = nth_error l i.
Proof.
  intros Hi Hk. unfold list_insert.
  rewrite nth_error_app2 by (rewrite length_firstn; lia).
  rewrite length_firstn, Nat.min_l by lia.
  replace (S i - k) with (S (i - k)) by lia. simpl.
  rewrite nth_error_skipn. f_equal. lia.
Qed.

(** Inserting a child moves the elements after it one place on and changes
    no element that does not enclose the place of insertion. *)
Lemma get_at_shift_pos parent k c p e chain :
  get_at parent e = Some chain ->
  k <= List.length (children chain) ->
  is_prefix p parent = false ->
  get_at (shift_pos parent k p) (update_at (insert_child k c) parent e) = get_at p e.
Proof.
  revert p e. induction parent as [|a parent IH]; intros p e Hchain Hk Hp.
  - simpl in Hchain. injection Hchain as ->.
    destruct p as [|i q]; [discriminate|].
    destruct chain as [t at_ cs]. cbn [children] in Hk.
    cbn [shift_pos update_at insert_child].
    destruct (Nat.leb_spec k i); cbn [get_at children].
    + now rewrite nth_error_list_insert_after.
    + now rewrite nth_error_list_insert_before.
  - destruct p as [|i q]; [discriminate|].
    destruct e as [t at_ cs]. simpl in Hchain, Hp |- *.
    destruct (Nat.eqb_spec a i) as [->|Hne].
    + rewrite Nat.eqb_refl in Hp. simpl in Hp.
      simpl. rewrite nth_error_update_nth, Nat.eqb_refl.
      destruct (nth_error cs i) as [x|]; [|discriminate]. simpl.
      now apply IH.
    + simpl. rewrite nth_error_update_nth.
      apply Nat.eqb_neq in Hne. now rewrite Hne.
Qed.

End CloneAndDonor.

(* ================================================================= *)
(** * Further properties of the scripts *)

(* ================================================================= *)
(** ** [db_to_linear]: silence floor and monotonicity *)

Section LinearAmplitude.

Local Open Scope R_scope.

Lemma Rpower10_increasing x y : x <= y -> Rpower 10 x <= Rpower 10 y.
Proof.
  pose proof ln10_bounds as [L1 _]. intros [H | ->]; [left | right; reflexivity].
  unfold Rpower. apply exp_increasing. nra.
Qed.

Lemma Rpower10_strict x y : x < y -> Rpower 10 x < Rpower 10 y.
Proof.
  pose proof ln10_bounds as [L1 _]. intros H.
  unfold Rpower. apply exp_increasing. nra.
Qed.

(** [10 ** -3.5] is above the silence-floor constant. *)
Lemma floor_below_pow10 : 0.0003162277571 < Rpower 10 (-3.5).
Proof.
  set (z := Rpower 10 (-3.5)).
  assert (Hz : 0 < z) by apply exp_pos.
  assert (Hsq : z * z = / 10 ^ 7).
  { unfold z. rewrite <- Rpower_plus. replace (-3.5 + -3.5) with (- INR 7) by (simpl; lra).
    rewrite Rpower_Ropp, Rpower_pow by lra. reflexivity. }
  destruct (Rlt_le_dec 0.0003162277571 z) as [H | H]; [exact H|].
  exfalso. assert (z * z <= 0.0003162277571 * 0.0003162277571) by nra.
  rewrite Hsq in H0. lra.
Qed.

Lemma pow10_above_floor x : -70 < x -> 0.0003162277571 < Rpower 10 (x / 20).
Proof.
  intros H. apply Rlt_trans with (Rpower 10 (-3.5)); [apply floor_below_pow10|].
  apply Rpower10_strict. lra.
Qed.



End LinearAmplitude.

(* ================================================================= *)
(** ** The log of a volume or pan request shows the reader's view *)

Section LoggedValues.

Variable float_str : PyFloat.t -> string.

Local Open Scope R_scope.

(** The engine's inline decoding of an old volume is the reader's
    [vol_to_db], except on [nan], which the reader passes through and the
    engine logs as negative infinity. *)
Lemma old_db_of_vol_to_db v :
  vol_to_db (PyFloatV v)
  = Some (match v with PyFloat.NaN => PyFloat.NaN | _ => old_db_of v end).
Proof.
  unfold vol_to_db, old_db_of. simpl.
  destruct v as [x| | |]; simpl; try reflexivity.
  unfold PyFloat.Rleb, PyFloat.Rltb.
  destruct (Rle_dec x 0.0003163), (Rlt_dec 0.0003163 x); try reflexivity; exfalso; lra.
Qed.


(** A pan request that finds its value holder stores the encoded position
    and logs the old position as the reader's [pan_to_str] writes it. *)
Theorem pan_request_effect :
  forall (root : Element) (tracks_el : pos) (c : change)
         (track_el mixer pan_el : pos) (pan_str : string) (pan_val old : PyFloat.t),
    resolve_track root tracks_el c = Resolved track_el ->
    change_target c = Pan pan_str ->
    pan_str_to_value pan_str = Some pan_val ->
    find_desc_at track_el "DeviceChain" ["Mixer"] root = Some mixer ->
    find_at mixer ["Pan"; "Manual"] root = Some pan_el ->
    PyFloat.parse (get_at_default pan_el "Value" "0" root) = Some old ->
    apply_change float_str root tracks_el c
    = Return (set_at pan_el "Value" (float_str pan_val) root) tracks_el
             ["  " +++ track_name c +++ ": Pan "
              +++ pan_to_str (PyString (get_at_default pan_el "Value" "0" root))
              +++ " " +++ arrow +++ " " +++ pan_str].
Proof.
  intros root tracks_el c track_el mixer pan_el pan_str pan_val old Hr Hc Hp Hm Hv Hold.
  unfold apply_change. rewrite Hr, Hc, Hm. unfold apply_pan. rewrite Hp, Hv, Hold.
  unfold pan_to_str. simpl to_float. rewrite Hold. reflexivity.
Qed.

End LoggedValues.


(** The pan theorem on the sample project: ["Snare"], stored at [0], is
    panned to ["18R"]. *)
Lemma pan_request_effect_witness :
  resolve_track sample_project [0; 0] (sample_change "Snare" (Pan "18R"))
  = Resolved [0; 0; 0] /\
  pan_str_to_value "18R" = Some (PyFloat.Fin (IZR 18 / 50)) /\
  find_desc_at [0; 0; 0] "DeviceChain" ["Mixer"] sample_project = Some [0; 0; 0; 1; 0] /\
  find_at [0; 0; 0; 1; 0] ["Pan"; "Manual"] sample_project
  = Some [0; 0; 0; 1; 0; 1; 0] /\
  PyFloat.parse (get_at_default [0; 0; 0; 1; 0; 1; 0] "Value" "0" sample_project)
  = Some (PyFloat.Fin (IZR 0)) /\
  apply_change sample_float_str sample_project [0; 0] (sample_change "Snare" (Pan "18R"))
  = Return (set_at [0; 0; 0; 1; 0; 1; 0] "Value"
                   (sample_float_str (PyFloat.Fin (IZR 18 / 50))) sample_project)
           [0; 0]
           ["  " +++ "Snare" +++ ": Pan "
            +++ pan_to_str (PyString (get_at_default [0; 0; 0; 1; 0; 1; 0] "Value" "0"
                                                      sample_project))
            +++ " " +++ arrow +++ " " +++ "18R"].
Proof.
  assert (H1 : resolve_track sample_project [0; 0] (sample_change "Snare" (Pan "18R"))
               = Resolved [0; 0; 0]) by (vm_compute; reflexivity).
  assert (H2 : pan_str_to_value "18R" = Some (PyFloat.Fin (IZR 18 / 50)))
    by exact (pan_value_of_position 18 "R" ltac:(lia) (or_intror eq_refl)).
  assert (H3 : find_desc_at [0; 0; 0] "DeviceChain" ["Mixer"] sample_project
               = Some [0; 0; 0; 1; 0]) by (vm_compute; reflexivity).
  assert (H4 : find_at [0; 0; 0; 1; 0] ["Pan"; "Manual"] sample_project
               = Some [0; 0; 0; 1; 0; 1; 0]) by (vm_compute; reflexivity).
  assert (H5 : PyFloat.parse
                 (get_at_default [0; 0; 0; 1; 0; 1; 0] "Value" "0" sample_project)
               = Some (PyFloat.Fin (IZR 0))) by exact (float_parse_str 0 ltac:(lia)).
  repeat (split; [assumption|]).
  exact (pan_request_effect sample_float_str sample_project [0; 0]
           (sample_change "Snare" (Pan "18R")) [0; 0; 0] [0; 0; 0; 1; 0]
           [0; 0; 0; 1; 0; 1; 0] "18R" (PyFloat.Fin (IZR 18 / 50)) (PyFloat.Fin (IZR 0))
           H1 eq_refl H2 H3 H4 H5).
Defined.

(* ================================================================= *)
(** ** What a request can do to the document *)

Section RequestFrame.

Variable float_str : PyFloat.t -> string.

Lemma one_write p v root : at_most_one_write root (set_at p "Value" v root).
Proof. right. now exists p, v. Qed.

Lemma no_write root : at_most_one_write root root.
Proof. now left. Qed.

#[local] Hint Resolve one_write no_write not_error_description : core.

Ltac frame_done :=
  simpl; repeat split;
  solve [ auto
        | left; split; reflexivity
        | right; eexists; split; [reflexivity|]; left; split; reflexivity
        | right; eexists; split; [reflexivity|]; right; split; auto ].

Lemma apply_volume_frame label root tracks_el name mixer db_val :
  single_write_outcome root tracks_el
    (apply_volume float_str label root tracks_el name mixer db_val).
Proof.
  unfold apply_volume.
  destruct (db_to_linear db_val); [|frame_done].
  destruct mixer as [m|]; [|frame_done].
  destruct (find_at m _ root); [|frame_done].
  destruct (PyFloat.parse _); [|frame_done].
  destruct db_val; frame_done.
Qed.

Lemma apply_pan_frame root tracks_el name mixer pan_str :
  single_write_outcome root tracks_el (apply_pan float_str root tracks_el name mixer pan_str).
Proof.
  unfold apply_pan.
  destruct (pan_str_to_value pan_str); [|frame_done].
  destruct mixer as [m|]; [|frame_done].
  destruct (find_at m _ root); [|frame_done].
  destruct (PyFloat.parse _); frame_done.
Qed.

Lemma apply_send_frame root tracks_el name mixer i db_val :
  single_write_outcome root tracks_el (apply_send float_str root tracks_el name mixer i db_val).
Proof.
  unfold apply_send.
  destruct (db_to_linear db_val); [|frame_done].
  destruct mixer as [m|]; [|frame_done].
  destruct (find_at m _ root) as [sends|]; [|frame_done].
  destruct (i <? _)%Z; [|frame_done].
  destruct (py_index _ i) as [h|]; [|frame_done].
  destruct (find_at (sends ++ [h]) _ root); [|frame_done].
  destruct (PyFloat.parse _); [|frame_done].
  destruct (py_chr _); [|frame_done].
  destruct db_val; frame_done.
Qed.

(** Replacing a subtree by an updated copy of itself is an update in place. *)
Lemma update_at_nested f p q root d :
  get_at p root = Some d ->
  update_at (fun _ => update_at f q d) p root = update_at f (p ++ q) root.
Proof.
  revert root. induction p as [|i p IH]; intros root; simpl.
  - now intros [= ->].
  - destruct root as [t a cs]. simpl. intros H. f_equal.
    revert i H. induction cs as [|x r IHr]; intros [|i]; simpl; intros H; try discriminate.
    + f_equal. now apply IH.
    + f_equal. now apply IHr.
Qed.

Lemma apply_device_param_frame root tracks_el name track_el tag i pname pval dn :
  single_write_outcome root tracks_el
    (apply_device_param float_str root tracks_el name track_el tag i pname pval dn).
Proof.
  unfold apply_device_param.
  destruct (find_device root track_el tag i) as [[device_pos|]|e]; [| frame_done | frame_done].
  destruct (if DB_LINEAR_PARAMS tag pname then _ else _) as [[written display]|e];
    [|frame_done].
  destruct (match match find _ _ with Some _ => _ | None => _ end with
            | Some _ => _ | None => _ end) as [old_str|]; [|frame_done].
  destruct (set_param_value _ pname written) as [device'|] eqn:E; [|frame_done].
  apply set_param_value_spec in E as (p & _ & ->).
  simpl. split; [reflexivity|]. right. eexists. split; [reflexivity|]. right.
  split; [reflexivity|].
  unfold deref. destruct (get_at device_pos root) as [d|] eqn:Hd.
  - unfold set_at. rewrite (update_at_nested _ _ _ _ _ Hd). apply one_write.
  - rewrite update_at_dangling by assumption. apply no_write.
Qed.

(** A request other than an insertion writes at most one ["Value"]
    attribute; it writes nothing when it returns no message or an error. *)
Lemma apply_change_frame root tracks_el c :
  is_insertion (change_target c) = false ->
  single_write_outcome root tracks_el (apply_change float_str root tracks_el c).
Proof.
  intros Hc. unfold apply_change.
  destruct (resolve_track root tracks_el c) as [track_el|msg|e].
  - destruct (change_target c); try discriminate.
    + apply apply_volume_frame.
    + apply apply_pan_frame.
    + apply apply_send_frame.
    + apply apply_device_param_frame.
    + apply apply_volume_frame.
    + frame_done.
  - simpl. split; [reflexivity|]. right. eexists. split; [reflexivity|].
    destruct (is_error msg) eqn:E; [left | right]; auto.
  - frame_done.
Qed.

End RequestFrame.

Section RequestInvariants.

Variable float_str : PyFloat.t -> string.

Lemma ids_at_most_one_write root root' :
  at_most_one_write root root' -> ids root' = ids root /\ shape root' = shape root.
Proof.
  intros [-> | (p & v & ->)]; [split; reflexivity|].
  split; [apply ids_set_at; discriminate | apply shape_set_at].
Qed.

Lemma single_write_document root tracks_el o :
  single_write_outcome root tracks_el o -> at_most_one_write root (outcome_document o).
Proof.
  destruct o as [root' tracks' descs | root' e]; simpl; [|auto].
  intros [_ [[_ ->] | (msg & _ & [[_ ->] | [_ H]])]]; auto using no_write.
Qed.

(** A request other than an insertion writes at most one ["Value"]
    attribute: it adds, removes or moves no element, and it changes no
    identifier. *)
Theorem non_insert_request_frame :
  forall (root : Element) (tracks_el : pos) (c : change),
    is_insertion (change_target c) = false ->
    at_most_one_write root (outcome_document (apply_change float_str root tracks_el c)) /\
    shape (outcome_document (apply_change float_str root tracks_el c)) = shape root /\
    ids (outcome_document (apply_change float_str root tracks_el c)) = ids root.
Proof.
  intros root tracks_el c Hc.
  pose proof (single_write_document _ _ _ (apply_change_frame float_str root tracks_el c Hc))
    as H.
  split; [exact H|]. destruct (ids_at_most_one_write _ _ H). auto.
Qed.

(** The insertions sharpened: an exception or an error leaves everything
    as it was. *)
Lemma apply_add_device_quiet root tracks_el name track_el tag position params dn :
  let o := apply_add_device float_str root tracks_el name track_el tag position params dn in
  (exists e, o = Raise root e) \/
  (exists msg, is_error msg = true /\ o = Return root tracks_el [msg]) \/
  (exists root' tracks' desc, is_error desc = false /\ o = Return root' tracks' [desc]).
Proof.
  intros o. subst o. unfold apply_add_device.
  assert (Herr : forall msg, is_error ("ERROR: " +++ msg) = true ->
                   exists m, is_error m = true /\
                             Return root tracks_el ["ERROR: " +++ msg]
                             = Return root tracks_el [m]) by eauto.
  destruct (find_donor_device root tag) as [donor|];
    [|right; left; eapply (Herr ("No existing '" +++ _)); reflexivity].
  destruct (apply_params float_str tag params _) as [new_device|[path|e]];
    [ | right; left; eapply (Herr ("Could not set param '" +++ _)); reflexivity
      | left; eexists; reflexivity ].
  destruct (find_at track_el _ root) as [devices_el|];
    [|right; left; eapply (Herr ("No device chain found on track '" +++ _)); reflexivity].
  right. right.
  destruct ((position =? -1)%Z || (position >=? _)%Z); do 3 eexists;
    (split; [|reflexivity]); reflexivity.
Qed.

(** Every request returns at most one message, and a request that returns
    no description (nothing at all, or an error) has changed nothing. *)
Theorem silent_or_failed_request_changes_nothing :
  forall (root root' : Element) (tracks_el tracks' : pos) (c : change)
         (descs : list string),
    apply_change float_str root tracks_el c = Return root' tracks' descs ->
    (descs = [] \/ exists msg, descs = [msg]) /\
    ((forall msg, In msg descs -> is_error msg = true) ->
     root' = root /\ tracks' = tracks_el).
Proof.
  intros root root' tracks_el tracks' c descs H.
  destruct (is_insertion (change_target c)) eqn:Hc.
  - unfold apply_change in H.
    destruct (resolve_track root tracks_el c) as [track_el|msg|e]; [| |discriminate].
    + destruct (change_target c); try discriminate.
      destruct (apply_add_device_quiet root tracks_el (track_name c) track_el device_tag
                  position params device_name)
        as [(e & He) | [(msg & Hm & He) | (r1 & t1 & desc & Hd & He)]];
        rewrite He in H; [discriminate| |]; injection H as <- <- <-.
      * split; [right; eauto | auto].
      * split; [right; eauto|]. intros Hall.
        specialize (Hall desc (or_introl eq_refl)). congruence.
    + injection H as <- <- <-. split; [right; eauto | auto].
  - pose proof (apply_change_frame float_str root tracks_el c Hc) as F.
    rewrite H in F. simpl in F.
    destruct F as [-> [[-> ->] | (msg & -> & [[_ ->] | [Hm _]])]].
    + split; [now left | auto].
    + split; [right; eauto | auto].
    + split; [right; eauto|]. intros Hall.
      specialize (Hall msg (or_introl eq_refl)). congruence.
Qed.

End RequestInvariants.

(** The frame theorem on the sample project: a send of ["Snare"] is set. *)
Lemma non_insert_request_frame_witness :
  is_insertion (change_target (sample_change "Snare" (Send 1 None))) = false /\
  at_most_one_write sample_project
    (outcome_document
       (apply_change sample_float_str sample_project [0; 0]
          (sample_change "Snare" (Send 1 None)))) /\
  shape (outcome_document
           (apply_change sample_float_str sample_project [0; 0]
              (sample_change "Snare" (Send 1 None))))
  = shape sample_project /\
  ids (outcome_document
         (apply_change sample_float_str sample_project [0; 0]
            (sample_change "Snare" (Send 1 None))))
  = ids sample_project.
Proof.
  split; [reflexivity|].
  exact (non_insert_request_frame sample_float_str sample_project [0; 0]
           (sample_change "Snare" (Send 1 None)) eq_refl).
Defined.

(** The theorem on the sample project: a device parameter is requested for a
    device that ["Kick"] does not have. *)
Lemma silent_or_failed_request_changes_nothing_witness :
  apply_change sample_float_str sample_project [0; 0]
    (sample_change "Kick" (DeviceParam "Gate" 0 "Threshold" (PInt (-30)) None))
  = Return sample_project [0; 0]
           ["ERROR: Could not find device 'Gate' on track 'Kick'"] /\
  (["ERROR: Could not find device 'Gate' on track 'Kick'"] = [] \/
   exists msg, ["ERROR: Could not find device 'Gate' on track 'Kick'"] = [msg]) /\
  ((forall msg, In msg ["ERROR: Could not find device 'Gate' on track 'Kick'"] ->
                is_error msg = true) ->
   sample_project = sample_project /\ [0; 0] = [0; 0]).
Proof.
  assert (H : apply_change sample_float_str sample_project [0; 0]
                (sample_change "Kick" (DeviceParam "Gate" 0 "Threshold" (PInt (-30)) None))
              = Return sample_project [0; 0]
                       ["ERROR: Could not find device 'Gate' on track 'Kick'"])
    by (vm_compute; reflexivity).
  split; [exact H|].
  exact (silent_or_failed_request_changes_nothing sample_float_str _ _ _ _ _ _ H).
Defined.

(* ================================================================= *)
(** ** Invariants of a batch *)

Section BatchInvariants.

Variable float_str : PyFloat.t -> string.

Lemma apply_change_ids_unique root tracks_el c :
  NoDup (ids root) ->
  NoDup (ids (outcome_document (apply_change float_str root tracks_el c))).
Proof.
  intros Hnd. destruct (is_insertion (change_target c)) eqn:Hc.
  - unfold apply_change.
    destruct (resolve_track root tracks_el c) as [track_el|msg|e]; [| assumption | assumption].
    destruct (change_target c); try discriminate.
    destruct (apply_add_device_cases float_str root tracks_el (track_name c) track_el
                device_tag position params device_name)
      as [[H _] | (donor & devices_el & chain & k & nd & desc &
                   Hdonor & Hparams & Hfind & Hchain & Hk & Hdesc & Ho)].
    + now rewrite H.
    + rewrite Ho. simpl outcome_document.
      pose proof (find_max_id_nonneg root) as Hmax.
      assert (Hids : ids nd = map PyInt.str
                       (Zseq (find_max_id root + 1) (List.length (ids donor)))).
      { rewrite (apply_params_ids _ _ _ _ _ Hparams). apply ids_prepare_clone. }
      apply Permutation_NoDup with (ids nd ++ ids root).
      * symmetry. now apply ids_insert_at with chain.
      * apply NoDup_app; [rewrite Hids; apply NoDup_fresh_ids; lia | assumption |].
        intros v Hv. rewrite Hids in Hv. apply in_map_iff in Hv as (n & <- & Hn).
        apply In_Zseq in Hn. apply fresh_above_max. lia.
  - pose proof (single_write_document _ _ _
                  (apply_change_frame float_str root tracks_el c Hc)) as F.
    apply ids_at_most_one_write in F as [-> _]. assumption.
Qed.

Lemma apply_change_message_count root tracks_el c root' tracks' descs :
  apply_change float_str root tracks_el c = Return root' tracks' descs ->
  List.length descs <= 1.
Proof.
  intros H. destruct (is_insertion (change_target c)) eqn:Hc.
  - unfold apply_change in H.
    destruct (resolve_track root tracks_el c) as [track_el|msg|e]; [| |discriminate].
    + destruct (change_target c); try discriminate.
      destruct (apply_add_device_quiet float_str root tracks_el (track_name c) track_el
                  device_tag position params device_name)
        as [(e & He) | [(msg & _ & He) | (r1 & t1 & desc & _ & He)]];
        rewrite He in H; [discriminate| |]; injection H as <- <- <-; simpl; lia.
    + injection H as <- <- <-. simpl. lia.
  - pose proof (apply_change_frame float_str root tracks_el c Hc) as F.
    rewrite H in F. simpl in F.
    destruct F as [_ [[-> _] | (msg & -> & _)]]; simpl; lia.
Qed.

(** Whatever the requests of a batch are, and however the batch ends, a
    document whose identifiers are pairwise distinct is left with pairwise
    distinct identifiers. *)
Theorem batch_keeps_ids_unique :
  forall (changes : list change) (st : run),
    NoDup (ids (document st)) ->
    NoDup (ids (document (final_run (apply_changes float_str changes st)))).
Proof.
  induction changes as [|c rest IH]; intros st Hnd; [exact Hnd|].
  pose proof (apply_change_ids_unique (document st) (tracks_ref st) c Hnd) as H.
  simpl. destruct (apply_change float_str (document st) (tracks_ref st) c)
    as [root tracks result | root e]; simpl in H |- *; [|exact H].
  apply IH. exact H.
Qed.

Lemma filter_partition_length {A} (f : A -> bool) l :
  List.length (filter (fun x => negb (f x)) l) + List.length (filter f l) = List.length l.
Proof. induction l as [|x r IH]; simpl; [reflexivity|]. destruct (f x); simpl; lia. Qed.

Lemma Forall_filter {A} (f : A -> bool) l : Forall (fun x => f x = true) (filter f l).
Proof.
  induction l as [|x r IH]; simpl; [constructor|].
  destruct (f x) eqn:E; auto.
Qed.

Lemma batch_accounting_from changes st :
  let r := final_run (apply_changes float_str changes st) in
  List.length (all_descriptions r) + List.length (errors r)
  <= List.length (all_descriptions st) + List.length (errors st) + List.length changes /\
  (Forall (fun m => is_error m = true) (errors st) ->
   Forall (fun m => is_error m = true) (errors r)) /\
  (Forall (fun m => is_error m = false) (all_descriptions st) ->
   Forall (fun m => is_error m = false) (all_descriptions r)).
Proof.
  revert st. induction changes as [|c rest IH]; intros st; simpl.
  - repeat split; auto. lia.
  - destruct (apply_change float_str (document st) (tracks_ref st) c)
      as [root tracks result | root e] eqn:E; simpl.
    + pose proof (apply_change_message_count _ _ _ _ _ _ E) as Hl.
      match goal with |- context [apply_changes float_str rest ?s] =>
        destruct (IH s) as (I1 & I2 & I3) end.
      simpl in I1, I2, I3. rewrite !length_app in I1.
      pose proof (filter_partition_length is_error result).
      repeat split.
      * lia.
      * intros H0. apply I2. apply Forall_app. split; [exact H0 | apply Forall_filter].
      * intros H0. apply I3. apply Forall_app. split; [exact H0|].
        pose proof (Forall_filter (fun d => negb (is_error d)) result) as F.
        eapply Forall_impl; [|exact F]. simpl. intros a Ha.
        now apply negb_true_iff.
    + repeat split; auto. lia.
Qed.

(** The run summary adds up: a batch yields at most one message per
    request, every collected error is an ["ERROR:"] message and no collected
    description is one. *)
Theorem batch_accounting :
  forall (root : Element) (tracks_el : pos) (changes : list change),
    List.length (all_descriptions
                   (final_run (apply_changes float_str changes
                                             (initial_run root tracks_el))))
    + List.length (errors
                     (final_run (apply_changes float_str changes
                                               (initial_run root tracks_el))))
    <= List.length changes /\
    Forall (fun m => is_error m = true)
           (errors (final_run (apply_changes float_str changes
                                             (initial_run root tracks_el)))) /\
    Forall (fun m => is_error m = false)
           (all_descriptions (final_run (apply_changes float_str changes
                                                       (initial_run root tracks_el)))).
Proof.
  intros root tracks_el changes.
  destruct (batch_accounting_from changes (initial_run root tracks_el)) as (H1 & H2 & H3).
  simpl in H1. repeat split; [exact H1 | apply H2; constructor | apply H3; constructor].
Qed.

(** *** The track list stays what it is *)

Lemma get_at_shape p e : get_at p (shape e) = option_map shape (get_at p e).
Proof.
  revert e. induction p as [|i p IH]; intros e; simpl; [reflexivity|].
  rewrite children_shape, nth_error_map.
  destruct (nth_error (children e) i); simpl; auto.
Qed.

Lemma same_shape_same_node p root root' e :
  shape root' = shape root -> get_at p root = Some e ->
  exists e', get_at p root' = Some e' /\ tag e' = tag e /\
             List.length (children e') = List.length (children e).
Proof.
  intros Hs He. pose proof (get_at_shape p root') as H.
  rewrite Hs, get_at_shape, He in H. simpl in H.
  destruct (get_at p root') as [e'|]; [|discriminate]. injection H as H.
  exists e'. split; [reflexivity|].
  rewrite <- (tag_shape e'), <- (tag_shape e), H. split; [reflexivity|].
  apply (f_equal children) in H. rewrite !children_shape in H.
  apply (f_equal (@List.length _)) in H. now rewrite !length_map in H.
Qed.

Lemma is_prefix_app p parent :
  is_prefix p parent = true -> exists rest, parent = p ++ rest.
Proof.
  revert parent. induction p as [|i p IH]; intros parent; simpl.
  - intros _. now exists parent.
  - destruct parent as [|j parent]; [discriminate|].
    intros H%andb_true_iff. destruct H as [Hij Hp]. apply Nat.eqb_eq in Hij. subst j.
    destruct (IH _ Hp) as [rest ->]. now exists rest.
Qed.

Lemma shift_pos_enclosing p rest k : shift_pos (p ++ rest) k p = p.
Proof.
  induction p as [|i p IH]; simpl; [now destruct rest|].
  now rewrite Nat.eqb_refl, IH.
Qed.

(** The three ways the ["add_device"] branch ends. *)
Lemma apply_add_device_outcome root tracks_el name track_el tag position params dn :
  let o := apply_add_device float_str root tracks_el name track_el tag position params dn in
  (exists e, o = Raise root e) \/
  (exists msg, o = Return root tracks_el [msg]) \/
  exists devices_el chain k new_device desc,
    find_at track_el ["DeviceChain"; "DeviceChain"; "Devices"] root = Some devices_el /\
    get_at devices_el root = Some chain /\
    k <= List.length (children chain) /\
    o = Return (update_at (insert_child k new_device) devices_el root)
               (shift_pos devices_el k tracks_el) [desc].
Proof.
  intros o.
  destruct (apply_add_device_quiet float_str root tracks_el name track_el tag position
              params dn) as [He | [(msg & _ & He) | (r1 & t1 & d1 & Hd & He)]];
    [now left | right; left; eauto |].
  destruct (apply_add_device_cases float_str root tracks_el name track_el tag position
              params dn)
    as [[_ Hm] | (donor & devices_el & chain & k & nd & desc &
                  _ & _ & Hfind & Hchain & Hk & _ & Ho)].
  - destruct (Hm _ _ _ He) as (m & [= <-] & Hm'). congruence.
  - right. right. exists devices_el, chain, k, nd, desc. auto.
Qed.

Lemma apply_change_keeps_track_list root tracks_el c te :
  get_at tracks_el root = Some te -> tag te = "Tracks" ->
  exists te',
    get_at (match apply_change float_str root tracks_el c with
            | Return _ tracks' _ => tracks'
            | Raise _ _ => tracks_el
            end)
           (outcome_document (apply_change float_str root tracks_el c)) = Some te' /\
    tag te' = "Tracks" /\
    List.length (children te') = List.length (children te).
Proof.
  intros Hte Htag. destruct (is_insertion (change_target c)) eqn:Hc.
  - unfold apply_change.
    destruct (resolve_track root tracks_el c) as [track_el|msg|e]; [| eauto | eauto].
    destruct (change_target c); try discriminate.
    destruct (apply_add_device_outcome root tracks_el (track_name c) track_el device_tag
                position params device_name)
      as [(e & He) | [(msg & He) | (devices_el & chain & k & nd & desc &
                                    Hfind & Hchain & Hk & Ho)]];
      [rewrite He; eauto | rewrite He; eauto |].
    rewrite Ho. simpl outcome_document.
    destruct (is_prefix tracks_el devices_el) eqn:Hp.
    + destruct (is_prefix_app _ _ Hp) as [rest ->].
      rewrite shift_pos_enclosing, get_at_update_at_prefix, Hte. simpl.
      assert (Hrest : rest <> []).
      { intros ->. rewrite List.app_nil_r in *.
        unfold find_at in Hfind.
        destruct (get_at track_el root) as [t|] eqn:Ht; [|discriminate].
        destruct (find_path _ t) as [q|] eqn:Hq; [|discriminate].
        injection Hfind as Hfind.
        assert (Hx : get_at q t = Some te) by
            (rewrite <- Hfind, get_at_app, Ht in Hte; exact Hte).
        pose proof (find_path_last_tag ["DeviceChain"; "DeviceChain"] "Devices"
                      t q te Hq Hx) as Hdev.
        rewrite Htag in Hdev. discriminate. }
      destruct rest as [|i rest]; [congruence|].
      eexists. split; [reflexivity|]. destruct te as [t a cs]. simpl in *.
      split; [assumption | apply length_update_nth].
    + rewrite (get_at_shift_pos _ _ _ _ _ chain) by assumption. eauto.
  - pose proof (apply_change_frame float_str root tracks_el c Hc) as F.
    pose proof (single_write_document _ _ _ F) as W.
    apply ids_at_most_one_write in W as [_ Hs].
    destruct (apply_change float_str root tracks_el c) as [r1 t1 d1 | r1 e1];
      simpl in F, Hs |- *.
    + destruct F as [-> _]. rewrite <- Htag. now apply same_shape_same_node with root.
    + rewrite <- Htag. now apply same_shape_same_node with root.
Qed.

(** No batch adds, removes or loses track of a track: the track list the
    loop holds is, after every batch and however it ends, an element tagged
    ["Tracks"] with as many children as at the start. *)
Theorem batch_keeps_track_list :
  forall (changes : list change) (st : run) (te : Element),
    get_at (tracks_ref st) (document st) = Some te ->
    tag te = "Tracks" ->
    exists te',
      get_at (tracks_ref (final_run (apply_changes float_str changes st)))
             (document (final_run (apply_changes float_str changes st))) = Some te' /\
      tag te' = "Tracks" /\
      List.length (children te') = List.length (children te).
Proof.
  induction changes as [|c rest IH]; intros st te Hte Htag; [simpl; eauto|].
  destruct (apply_change_keeps_track_list (document st) (tracks_ref st) c te Hte Htag)
    as (te1 & H1 & T1 & L1).
  simpl. destruct (apply_change float_str (document st) (tracks_ref st) c)
    as [root tracks result | root e]; simpl in H1 |- *.
  - destruct (IH {| document := root; tracks_ref := tracks;
                    all_descriptions := all_descriptions st ++
                      filter (fun d => negb (is_error d)) result;
                    errors := errors st ++ filter is_error result |} te1 H1 T1)
      as (te' & H' & T' & L').
    exists te'. repeat split; auto. congruence.
  - eauto.
Qed.

End BatchInvariants.

(** The identifier theorem on the sample project and the sample batch. *)
Lemma batch_keeps_ids_unique_witness :
  NoDup (ids (document (initial_run sample_project [0; 0]))) /\
  NoDup (ids (document
                (final_run
                   (apply_changes sample_float_str
                      (sample_pre ++ sample_bad :: sample_post)
                      (initial_run sample_project [0; 0]))))).
Proof.
  assert (H : NoDup (ids (document (initial_run sample_project [0; 0])))).
  { vm_compute. repeat constructor; simpl; intuition discriminate. }
  split; [exact H|].
  exact (batch_keeps_ids_unique sample_float_str
           (sample_pre ++ sample_bad :: sample_post)
           (initial_run sample_project [0; 0]) H).
Defined.

(** The track-list theorem on the sample project and the sample batch. *)
Lemma batch_keeps_track_list_witness :
  get_at (tracks_ref (initial_run sample_project [0; 0]))
         (document (initial_run sample_project [0; 0]))
  = Some (deref [0; 0] sample_project) /\
  tag (deref [0; 0] sample_project) = "Tracks" /\
  exists te',
    get_at (tracks_ref (final_run (apply_changes sample_float_str
                                     (sample_pre ++ sample_bad :: sample_post)
                                     (initial_run sample_project [0; 0]))))
           (document (final_run (apply_changes sample_float_str
                                   (sample_pre ++ sample_bad :: sample_post)
                                   (initial_run sample_project [0; 0])))) = Some te' /\
    tag te' = "Tracks" /\
    List.length (children te') = List.length (children (deref [0; 0] sample_project)).
Proof.
  split; [reflexivity|]. split; [reflexivity|].
  exact (batch_keeps_track_list sample_float_str
           (sample_pre ++ sample_bad :: sample_post)
           (initial_run sample_project [0; 0]) (deref [0; 0] sample_project)
           eq_refl eq_refl).
Defined.

(* ================================================================= *)
(** ** The donor and its clone *)

Section DonorAndClone.

Lemma filter_not_id_set v a :
  filter (fun kv => negb (String.eqb (fst kv) "Id")) (dict_set "Id" v a)
  = filter (fun kv : string * string => negb (String.eqb (fst kv) "Id")) a.
Proof.
  induction a as [|[k w] r IH]; simpl; [reflexivity|].
  destruct (String.eqb k "Id") eqn:E; simpl; [reflexivity|].
  now rewrite E, IH.
Qed.

Lemma remap_ids_without_ids element start :
  without_ids (fst (remap_ids element start)) = without_ids element.
Proof.
  revert start. induction element as [t a cs IH] using Element_rect_nested.
  intros start. cbn [remap_ids].
  set (go := fix go (l : list Element) (n : Z) : list Element * Z :=
               match l with
               | [] => ([], n)
               | c :: r =>
                   let '(c', n1) := remap_ids c n in
                   let '(r', n2) := go r n1 in (c' :: r', n2)
               end).
  assert (Hgo : forall l,
             Forall (fun c => forall s,
                       without_ids (fst (remap_ids c s)) = without_ids c) l ->
             forall n, map without_ids (fst (go l n)) = map without_ids l).
  { induction l as [|c r IHr]; intros HF n; simpl; [reflexivity|].
    inversion HF as [|? ? Hc Hr]; subst.
    specialize (Hc n). destruct (remap_ids c n) as [c' n1]. simpl in Hc.
    specialize (IHr Hr n1). destruct (go r n1) as [r' n2]. simpl in IHr.
    simpl. now rewrite Hc, IHr. }
  destruct (dict_mem "Id" a).
  - specialize (Hgo cs IH (start + 1)%Z).
    destruct (go cs (start + 1)%Z) as [cs' n']. simpl in Hgo |- *.
    now rewrite Hgo, filter_not_id_set.
  - specialize (Hgo cs IH start).
    destruct (go cs start) as [cs' n']. simpl in Hgo |- *. now rewrite Hgo.
Qed.

Lemma dict_set_set k v w a : dict_set k v (dict_set k w a) = dict_set k v a.
Proof.
  induction a as [|[k' x] r IH]; simpl.
  - now rewrite String.eqb_refl.
  - destruct (String.eqb k' k) eqn:E; simpl.
    + now rewrite String.eqb_refl.
    + now rewrite E, IH.
Qed.

Lemma dict_mem_set k v a : dict_mem k (dict_set k v a) = true.
Proof. unfold dict_mem. now rewrite dict_get_set_same. Qed.

Lemma remap_ids_blank_ids element start :
  blank_ids (fst (remap_ids element start)) = blank_ids element.
Proof.
  revert start. induction element as [t a cs IH] using Element_rect_nested.
  intros start. cbn [remap_ids].
  set (go := fix go (l : list Element) (n : Z) : list Element * Z :=
               match l with
               | [] => ([], n)
               | c :: r =>
                   let '(c', n1) := remap_ids c n in
                   let '(r', n2) := go r n1 in (c' :: r', n2)
               end).
  assert (Hgo : forall l,
             Forall (fun c => forall s,
                       blank_ids (fst (remap_ids c s)) = blank_ids c) l ->
             forall n, map blank_ids (fst (go l n)) = map blank_ids l).
  { induction l as [|c r IHr]; intros HF n; simpl; [reflexivity|].
    inversion HF as [|? ? Hc Hr]; subst.
    specialize (Hc n). destruct (remap_ids c n) as [c' n1]. simpl in Hc.
    specialize (IHr Hr n1). destruct (go r n1) as [r' n2]. simpl in IHr.
    simpl. now rewrite Hc, IHr. }
  destruct (dict_mem "Id" a) eqn:Hid.
  - specialize (Hgo cs IH (start + 1)%Z).
    destruct (go cs (start + 1)%Z) as [cs' n']. simpl in Hgo |- *.
    now rewrite Hgo, dict_mem_set, dict_set_set, Hid.
  - specialize (Hgo cs IH start).
    destruct (go cs start) as [cs' n']. simpl in Hgo |- *. now rewrite Hgo, Hid.
Qed.

(** [remap_ids] only renumbers.  With the values of the ["Id"] attributes
    blanked, the tree it returns is the tree it was given: every element is
    where it was, with its tag and its attributes in their order, the ["Id"]
    attribute on the elements that had one, and every other value as it
    was.  The elements that have an ["Id"] get [start], [start + 1], ... in
    document order, and the returned counter is the first unused number. *)
Theorem remap_ids_only_renumbers :
  forall (element : Element) (start : Z),
    blank_ids (fst (remap_ids element start)) = blank_ids element /\
    ids (fst (remap_ids element start))
    = map PyInt.str (Zseq start (List.length (ids element))) /\
    snd (remap_ids element start) = (start + Z.of_nat (List.length (ids element)))%Z.
Proof.
  intros element start. split; [apply remap_ids_blank_ids | apply remap_ids_spec].
Qed.

Lemma tag_without_ids e : tag (without_ids e) = tag e.
Proof. now destruct e. Qed.

Lemma tag_remap_ids element start : tag (fst (remap_ids element start)) = tag element.
Proof.
  rewrite <- (tag_without_ids (fst _)), remap_ids_without_ids. apply tag_without_ids.
Qed.

Lemma iter_pos_snd e : map snd (iter_pos e) = iter e.
Proof.
  induction e as [t a cs IH] using Element_rect_nested. simpl. f_equal.
  generalize 0 at 1. induction cs as [|c r IHr]; intros i; simpl; [reflexivity|].
  inversion IH as [|? ? Hc Hr]; subst.
  rewrite <- Hc, map_app, map_map. f_equal. now apply IHr.
Qed.

Lemma iter_pos_live e p x : In (p, x) (iter_pos e) -> get_at p e = Some x.
Proof.
  revert p x. induction e as [t a cs IH] using Element_rect_nested.
  intros p x. simpl. intros [[= <- <-] | Hin]; [reflexivity|].
  assert (H : forall i0 l, Forall (fun c => forall p x, In (p, x) (iter_pos c) ->
                                                       get_at p c = Some x) l ->
              In (p, x)
                 ((fix go (i : nat) (l : list Element) : list (pos * Element) :=
                     match l with
                     | [] => []
                     | c :: r =>
                         map (fun pe => (i :: fst pe, snd pe)) (iter_pos c) ++ go (S i) r
                     end) i0 l) ->
              exists i q c, p = (i0 + i) :: q /\ nth_error l i = Some c /\
                            get_at q c = Some x).
  { intros i0 l. revert i0. induction l as [|c r IHr]; intros i0 HF; simpl; [tauto|].
    inversion HF as [|? ? Hc Hr]; subst.
    intros [H | H]%in_app_or.
    - apply in_map_iff in H as ([q y] & [= <- <-] & Hq).
      exists 0, q, c. rewrite Nat.add_0_r. auto.
    - destruct (IHr _ Hr H) as (i & q & c' & -> & Hn & Hg).
      exists (S i), q, c'. rewrite Nat.add_succ_r. auto. }
  destruct (H 0 cs IH Hin) as (i & q & c & -> & Hn & Hg).
  simpl. now rewrite Hn.
Qed.

Lemma first_some_split {A B} (f : nat -> A -> option B) i l y :
  first_some f i l = Some y ->
  exists l1 x l2, l = l1 ++ x :: l2 /\ f (i + List.length l1) x = Some y /\
                  forall k z, nth_error l1 k = Some z -> f (i + k) z = None.
Proof.
  revert i. induction l as [|a r IH]; intros i; simpl; [discriminate|].
  destruct (f i a) eqn:E.
  - intros [= <-]. exists [], a, r. simpl. rewrite Nat.add_0_r.
    repeat split; auto. intros [|k] z; discriminate.
  - intros H. destruct (IH _ H) as (l1 & x & l2 & -> & Hx & Hl).
    exists (a :: l1), x, l2. simpl. rewrite Nat.add_succ_r in *. repeat split; auto.
    intros [|k] z; simpl.
    + intros [= <-]. now rewrite Nat.add_0_r.
    + intros Hz. rewrite Nat.add_succ_r. now apply Hl.
Qed.

Lemma first_some_none {A B} (f : nat -> A -> option B) i l :
  first_some f i l = None <-> forall k z, nth_error l k = Some z -> f (i + k) z = None.
Proof.
  revert i. induction l as [|a r IH]; intros i; simpl.
  - split; auto. intros _ [|k] z; discriminate.
  - destruct (f i a) eqn:E.
    + split; [discriminate|]. intros H. specialize (H 0 a eq_refl).
      rewrite Nat.add_0_r in H. congruence.
    + rewrite IH. split.
      * intros H [|k] z; simpl.
        -- intros [= <-]. now rewrite Nat.add_0_r.
        -- intros Hz. rewrite Nat.add_succ_r. now apply H.
      * intros H k z Hz. specialize (H (S k) z Hz). now rewrite Nat.add_succ_r in H.
Qed.

(** [find_donor_device] returns the first element of the document, in
    document order, that has the requested tag, and nothing exactly when no
    element has it. *)
Theorem donor_is_first_with_tag :
  forall (root : Element) (device_tag : string),
    match find_donor_device root device_tag with
    | Some donor =>
        tag donor = device_tag /\
        exists before after,
          iter root = before ++ donor :: after /\
          forall e, In e before -> tag e <> device_tag
    | None => forall e, In e (iter root) -> tag e <> device_tag
    end.
Proof.
  intros root device_tag. unfold find_donor_device, find_donor_pos.
  destruct (first_some _ 0 (iter_pos root)) as [p|] eqn:E.
  - apply first_some_split in E as (l1 & [q x] & l2 & Hl & Hx & Hbefore).
    simpl in Hx. destruct (String.eqb_spec (tag x) device_tag) as [Ht|]; [|discriminate].
    injection Hx as <-.
    assert (Hin : In (q, x) (iter_pos root)) by (rewrite Hl; apply in_elt).
    rewrite (iter_pos_live _ _ _ Hin). split; [exact Ht|].
    exists (map snd l1), (map snd l2). split.
    + rewrite <- iter_pos_snd, Hl, map_app. reflexivity.
    + intros e He. apply in_map_iff in He as ([q' y] & <- & Hy).
      apply In_nth_error in Hy as [k Hk]. specialize (Hbefore k _ Hk). simpl in Hbefore.
      destruct (String.eqb_spec (tag y) device_tag); [discriminate | assumption].
  - intros e He. rewrite <- iter_pos_snd in He.
    apply in_map_iff in He as ([q y] & <- & Hy).
    apply In_nth_error in Hy as [k Hk].
    pose proof (proj1 (first_some_none _ _ _) E k _ Hk) as H. simpl in H.
    destruct (String.eqb_spec (tag y) device_tag); [discriminate | assumption].
Qed.

Lemma find_donor_device_tag root device_tag donor :
  find_donor_device root device_tag = Some donor -> tag donor = device_tag.
Proof.
  unfold find_donor_device, find_donor_pos.
  destruct (first_some _ 0 (iter_pos root)) as [p|] eqn:E; [|discriminate].
  apply first_some_split in E as (l1 & [q x] & l2 & Hl & Hx & _).
  simpl in Hx. destruct (String.eqb_spec (tag x) device_tag) as [Ht|]; [|discriminate].
  injection Hx as <-.
  assert (Hin : In (q, x) (iter_pos root)) by (rewrite Hl; apply in_elt).
  rewrite (iter_pos_live _ _ _ Hin). now intros [= <-].
Qed.

End DonorAndClone.

(* ================================================================= *)
(** ** Where a new device goes *)

Section Placement.

Variable float_str : PyFloat.t -> string.

Lemma shape_apply_table ops e : shape (apply_table ops e) = shape e.
Proof.
  revert e. unfold apply_table.
  induction ops as [|[path v] r IH]; intros e; simpl; [reflexivity|].
  rewrite IH. unfold set_if_found.
  destruct (find_path path e); [apply shape_set_at | reflexivity].
Qed.

Lemma tag_prepared root donor device_tag params new_device :
  find_donor_device root device_tag = Some donor ->
  apply_params float_str device_tag params (prepare_clone float_str root donor device_tag)
  = inl new_device ->
  tag new_device = device_tag.
Proof.
  intros Hd Hp.
  rewrite <- tag_shape, (apply_params_shape _ _ _ _ _ Hp).
  rewrite prepare_clone_table, shape_apply_table, tag_shape, tag_remap_ids.
  now apply find_donor_device_tag with root.
Qed.

(** Every message of a failed track lookup is an error message. *)
Lemma resolve_track_failed root tracks_el c msg :
  resolve_track root tracks_el c = Failed msg -> is_error msg = true.
Proof.
  unfold resolve_track.
  repeat match goal with
         | |- context [if ?b then _ else _] => destruct b
         | |- context [match ?x with _ => _ end] => destruct x
         end;
    try discriminate; intros [= <-]; reflexivity.
Qed.

(** What a successful insertion is made of. *)
Lemma apply_add_device_success root tracks_el name track_el device_tag position params dn
      root' tracks' desc :
  apply_add_device float_str root tracks_el name track_el device_tag position params dn
  = Return root' tracks' [desc] ->
  is_error desc = false ->
  exists donor new_device devices_el chain,
    find_donor_device root device_tag = Some donor /\
    apply_params float_str device_tag params (prepare_clone float_str root donor device_tag)
    = inl new_device /\
    find_at track_el ["DeviceChain"; "DeviceChain"; "Devices"] root = Some devices_el /\
    get_at devices_el root = Some chain /\
    let len := List.length (children chain) in
    let k := if (position =? -1)%Z || (position >=? Z.of_nat len)%Z
             then len else py_insert_index len position in
    k <= len /\
    root' = update_at (insert_child k new_device) devices_el root /\
    tracks' = shift_pos devices_el k tracks_el.
Proof.
  unfold apply_add_device.
  destruct (find_donor_device root device_tag) as [donor|];
    [|intros [= <- <- <-] H; vm_compute in H; discriminate].
  destruct (apply_params float_str device_tag params _) as [new_device|[path|e]] eqn:Hp;
    [ | intros [= <- <- <-] H; vm_compute in H; discriminate | discriminate ].
  destruct (find_at track_el _ root) as [devices_el|] eqn:Hd;
    [|intros [= <- <- <-] H; vm_compute in H; discriminate].
  assert (Hc : exists chain, get_at devices_el root = Some chain /\
                             children_at devices_el root = children chain).
  { unfold find_at in Hd. destruct (get_at track_el root) as [t|] eqn:Ht; [|discriminate].
    destruct (find_path _ t) as [q|] eqn:Hq; [|discriminate]. injection Hd as <-.
    destruct (find_path_live _ _ _ Hq) as [chain Hchain].
    exists chain. unfold children_at. rewrite get_at_app, Ht, Hchain. auto. }
  destruct Hc as (chain & Hchain & Hchildren). rewrite Hchildren.
  intros Ho _. exists donor, new_device, devices_el, chain.
  repeat (split; [reflexivity || assumption|]).
  cbv zeta.
  destruct ((position =? -1)%Z || (position >=? Z.of_nat (List.length (children chain)))%Z).
  - injection Ho as <- <- _. auto.
  - injection Ho as <- <- _. split; [apply py_insert_index_le | auto].
Qed.

(** A successful ["add_device"] request puts one new element of the
    requested device type among the children of the track's [Devices]
    element and leaves the other children in their order.  The new element
    goes to the end when the position is [-1] or at least the number of
    devices, to index [position] when that is a valid index, and for a
    position below [-1] to [position] counted from the end, the front at
    the least (the behaviour of Python's [list.insert]). *)
Theorem add_device_placement :
  forall (root : Element) (tracks_el : pos) (c : change) (device_tag : string)
         (position : Z) (params : list (string * param_value))
         (device_name : option string) (root' : Element) (tracks' : pos) (desc : string),
    change_target c = AddDevice device_tag position params device_name ->
    apply_change float_str root tracks_el c = Return root' tracks' [desc] ->
    is_error desc = false ->
    exists track_el devices_el before new_device after,
      resolve_track root tracks_el c = Resolved track_el /\
      find_at track_el ["DeviceChain"; "DeviceChain"; "Devices"] root = Some devices_el /\
      children_at devices_el root = before ++ after /\
      children_at devices_el root' = before ++ new_device :: after /\
      tag new_device = device_tag /\
      let len := Z.of_nat (List.length (before ++ after)) in
      Z.of_nat (List.length before)
      = if (position =? -1)%Z || (position >=? len)%Z then len
        else if (0 <=? position)%Z then position
        else Z.max 0 (len + position).
Proof.
  intros root tracks_el c device_tag position params device_name root' tracks' desc
         Hc Ho Hdesc.
  unfold apply_change in Ho. rewrite Hc in Ho.
  destruct (resolve_track root tracks_el c) as [track_el|msg|e] eqn:Hres;
    [ | injection Ho as <- <- <-; apply resolve_track_failed in Hres; congruence
      | discriminate ].
  destruct (apply_add_device_success _ _ _ _ _ _ _ _ _ _ _ Ho Hdesc)
    as (donor & nd & devices_el & chain & Hdonor & Hparams & Hfind & Hchain & H).
  cbv zeta in H. destruct H as (Hk & -> & _).
  set (len := List.length (children chain)) in *.
  set (k := if (position =? -1)%Z || (position >=? Z.of_nat len)%Z
            then len else py_insert_index len position) in *.
  exists track_el, devices_el, (firstn k (children chain)), nd, (skipn k (children chain)).
  split; [reflexivity|]. split; [assumption|].
  assert (Hlen : List.length (firstn k (children chain)) = k)
    by (apply firstn_length_le; exact Hk).
  repeat split.
  - unfold children_at. rewrite Hchain. symmetry. apply firstn_skipn.
  - unfold children_at. rewrite get_at_update_at_same, Hchain. simpl.
    destruct chain. reflexivity.
  - now apply tag_prepared with root donor params.
  - cbv zeta. rewrite firstn_skipn, Hlen. fold len. subst k.
    destruct ((position =? -1)%Z || (position >=? Z.of_nat len)%Z) eqn:E; [reflexivity|].
    apply orb_false_iff in E as [E1 E2].
    unfold py_insert_index.
    destruct (Z.ltb_spec position 0), (Z.leb_spec 0 position); lia.
Qed.

End Placement.

(** The theorem on the sample project: position [-2] on a chain of one
    device puts the new equalizer in front of it. *)
Lemma add_device_placement_witness :
  exists track_el devices_el before new_device after,
    resolve_track sample_project [0; 0]
      (sample_change "Snare" (AddDevice "Eq8" (-2) [] None)) = Resolved track_el /\
    find_at track_el ["DeviceChain"; "DeviceChain"; "Devices"] sample_project
    = Some devices_el /\
    children_at devices_el sample_project = before ++ after /\
    children_at devices_el
      (outcome_document
         (apply_change sample_float_str sample_project [0; 0]
            (sample_change "Snare" (AddDevice "Eq8" (-2) [] None))))
    = before ++ new_device :: after /\
    tag new_device = "Eq8" /\
    Z.of_nat (List.length before) = 0%Z.
Proof.
  destruct (apply_change sample_float_str sample_project [0; 0]
              (sample_change "Snare" (AddDevice "Eq8" (-2) [] None)))
    as [root' tracks' [|desc [|? ?]] | ? ?] eqn:Ho;
    try (vm_compute in Ho; discriminate).
  assert (Hdesc : is_error desc = false).
  { vm_compute in Ho. injection Ho as _ _ <-. reflexivity. }
  destruct (add_device_placement sample_float_str sample_project [0; 0]
              (sample_change "Snare" (AddDevice "Eq8" (-2) [] None))
              "Eq8" (-2)%Z [] None root' tracks' desc eq_refl Ho Hdesc)
    as (track_el & devices_el & before & nd & after & H1 & H2 & H3 & H4 & H5 & H6).
  exists track_el, devices_el, before, nd, after.
  repeat split; try assumption.
  cbv zeta in H6. rewrite H6.
  assert (Hl : List.length (before ++ after) = 1).
  { rewrite <- H3. clear - H1 H2.
    vm_compute in H1. injection H1 as <-. vm_compute in H2. injection H2 as <-.
    reflexivity. }
  rewrite Hl. reflexivity.
Defined.

(* ================================================================= *)
(** ** The largest identifier *)

(** [find_max_id] returns the largest integer carried by an ["Id"]
    attribute of the document, and [0] when there is none or all of them
    are negative; identifiers that are not integers are passed over. *)
Theorem find_max_id_is_maximum :
  forall root : Element,
    (0 <= find_max_id root)%Z /\
    (forall v n, In v (ids root) -> PyInt.parse v = Some n -> (n <= find_max_id root)%Z) /\
    (find_max_id root = 0%Z \/
     exists v, In v (ids root) /\ PyInt.parse v = Some (find_max_id root)).
Proof.
  intros root. split; [apply find_max_id_nonneg|]. split; [apply find_max_id_bounds|].
  unfold find_max_id.
  assert (H : forall l m0,
             let m := fold_left
                        (fun max_id el =>
                           match get "Id" el with
                           | Some id_val =>
                               match PyInt.parse id_val with
                               | Some n => Z.max max_id n
                               | None => max_id
                               end
                           | None => max_id
                           end) l m0 in
             m = m0 \/
             exists el v, In el l /\ get "Id" el = Some v /\ PyInt.parse v = Some m).
  { induction l as [|a r IH]; intros m0; simpl; [now left|].
    destruct (IH (match get "Id" a with
                  | Some id_val =>
                      match PyInt.parse id_val with
                      | Some n => Z.max m0 n
                      | None => m0
                      end
                  | None => m0
                  end)) as [E | (el & v & Hin & Hid & Hp)].
    - rewrite E. destruct (get "Id" a) as [v|] eqn:Hid; [|now left].
      destruct (PyInt.parse v) as [n|] eqn:Hp; [|now left].
      destruct (Z.max_spec m0 n) as [[_ ->] | [_ ->]]; [|now left].
      right. exists a, v. auto.
    - right. exists el, v. auto. }
  destruct (H (iter root) 0%Z) as [E | (el & v & Hin & Hid & Hp)]; [now left|].
  right. exists v. split; [|exact Hp]. apply In_ids. eauto.
Qed.

(* ================================================================= *)
(** ** Writing a parameter, then reading it *)

Section WriteThenRead.

Lemma first_some_at {A B} (f : nat -> A -> option B) i l1 x l2 y :
  (forall k z, nth_error l1 k = Some z -> f (i + k) z = None) ->
  f (i + List.length l1) x = Some y ->
  first_some f i (l1 ++ x :: l2) = Some y.
Proof.
  revert i. induction l1 as [|a r IH]; intros i Hn Hx; simpl in *.
  - rewrite Nat.add_0_r in Hx. now rewrite Hx.
  - pose proof (Hn 0 a eq_refl) as H0. rewrite Nat.add_0_r in H0. rewrite H0.
    apply IH.
    + intros k z Hz. specialize (Hn (S k) z Hz). now rewrite Nat.add_succ_r in Hn.
    + now rewrite Nat.add_succ_r in Hx.
Qed.

(** The loop of [set_param_value], which takes the first child with the
    tag at every step, ends where [find] on the whole path does. *)
Lemma descend_find_path parts :
  forall cur e q c,
    get_at cur e = Some c -> descend parts cur e = Some q ->
    exists r d, q = cur ++ r /\ get_at r c = Some d /\
                forall rest r', find_path rest d = Some r' ->
                                find_path (parts ++ rest) c = Some (r ++ r').
Proof.
  induction parts as [|part ps IH]; intros cur e q c Hc; simpl.
  - intros [= <-]. exists [], c. rewrite List.app_nil_r. auto.
  - unfold find_at. rewrite Hc.
    destruct (find_path [part] c) as [one|] eqn:Hone; [|discriminate]. simpl option_map.
    cbv beta iota. intros Hd.
    simpl in Hone. apply first_some_split in Hone as (l1 & x & l2 & Hl & Hx & Hbefore).
    simpl in Hx. destruct (String.eqb_spec (tag x) part) as [Ht|]; [|discriminate].
    simpl in Hx. injection Hx as <-.
    assert (Hnth : nth_error (children c) (List.length l1) = Some x).
    { rewrite Hl, nth_error_app2, Nat.sub_diag by lia. reflexivity. }
    assert (Hnext : get_at (cur ++ [List.length l1]) e = Some x).
    { rewrite get_at_app, Hc. simpl. now rewrite Hnth. }
    destruct (IH _ _ _ _ Hnext Hd) as (r & d & -> & Hr & Hfind).
    exists (List.length l1 :: r), d. split; [now rewrite <- app_assoc|].
    split; [simpl; now rewrite Hnth|].
    intros rest r' Hrest. rewrite Hl. apply first_some_at.
    + intros k z Hz. specialize (Hbefore k z Hz). simpl in Hbefore.
      destruct (String.eqb (tag z) part); [discriminate | reflexivity].
    + simpl. rewrite Ht, String.eqb_refl, (Hfind _ _ Hrest). reflexivity.
Qed.

Lemma split_chars_nonempty sep cur l : PyStr.split_chars sep cur l <> [].
Proof.
  revert cur. induction l as [|c r IH]; intros cur; simpl; [discriminate|].
  destruct (Ascii.eqb c sep); [discriminate | apply IH].
Qed.

Lemma split_nonempty sep s : PyStr.split sep s <> [].
Proof.
  unfold PyStr.split. intros H. apply map_eq_nil in H.
  now apply split_chars_nonempty in H.
Qed.

Lemma get_param_value_position element steps :
  get_param_value element steps =
  match read_position element steps with
  | Some r => value_at r element
  | None => None
  end.
Proof.
  unfold get_param_value, read_position, find at 1.
  destruct (find_path steps element) as [q|] eqn:Hq; [|reflexivity].
  destruct (find_path_live _ _ _ Hq) as [child Hchild]. rewrite Hchild.
  unfold find_at, find. rewrite Hchild.
  destruct (find_path ["Manual"] child) as [m|] eqn:Hm; simpl.
  - unfold value_at. rewrite get_at_app, Hchild.
    destruct (find_path_live _ _ _ Hm) as [x Hx]. now rewrite Hx.
  - unfold value_at. now rewrite Hchild.
Qed.

Lemma find_at_same_shape q path root root' :
  shape root' = shape root -> find_at q path root' = find_at q path root.
Proof.
  intros Hs. unfold find_at.
  pose proof (get_at_shape q root') as H. rewrite Hs, get_at_shape in H.
  destruct (get_at q root') as [x'|], (get_at q root) as [x|]; try discriminate;
    [|reflexivity].
  injection H as H. now rewrite <- (find_path_shape path x'), <- H, find_path_shape.
Qed.

Lemma read_position_set_at element steps p k v :
  read_position (set_at p k v element) steps = read_position element steps.
Proof.
  unfold read_position. rewrite find_path_set_at.
  destruct (find_path steps element); [|reflexivity].
  now rewrite (find_at_same_shape _ _ element) by apply shape_set_at.
Qed.

Lemma param_target_read_position element path p :
  param_target element path = Some p ->
  read_position element (PyStr.split "/" path) = Some p /\
  exists x, get_at p element = Some x.
Proof.
  unfold param_target.
  pose proof (split_nonempty "/" path) as Hne.
  set (parts := PyStr.split "/" path) in *.
  destruct (descend (removelast parts) [] element) as [cur|] eqn:Hd; [|discriminate].
  destruct (descend_find_path _ [] element _ element eq_refl Hd)
    as (r & d & Hcur & Hr & Hfind).
  simpl in Hcur. subst cur.
  destruct (find_at r [last parts ""] element) as [target|] eqn:Ht; [|discriminate].
  assert (Hsteps : find_path parts element = Some target).
  { unfold find_at in Ht. rewrite Hr in Ht.
    destruct (find_path [last parts ""] d) as [one|] eqn:Hone; [|discriminate].
    injection Ht as <-.
    rewrite (app_removelast_last "" Hne) at 1. now apply Hfind. }
  unfold read_position. rewrite Hsteps.
  destruct (find_at target ["Manual"] element) as [m|] eqn:Hm.
  - intros [= <-]. split; [reflexivity|].
    now destruct (find_at_extends _ _ _ _ Hm) as (_ & _ & H).
  - destruct (get_at target element) as [t|] eqn:Hg; [|discriminate].
    destruct (has_attr "Value" t); [|discriminate]. intros [= <-]. eauto.
Qed.

Lemma set_then_get_param_core element element' param_path v :
  set_param_value element param_path v = Some element' ->
  get_param_value element' (PyStr.split "/" param_path) = Some v /\
  forall steps,
    get_param_value element' steps = get_param_value element steps \/
    get_param_value element' steps = Some v.
Proof.
  intros H.
  apply set_param_value_spec in H as (p & Hp & ->).
  apply param_target_read_position in Hp as (Hread & x & Hx).
  split.
  - rewrite get_param_value_position, read_position_set_at, Hread.
    now apply value_at_set_at with x.
  - intros steps. rewrite !get_param_value_position, read_position_set_at.
    destruct (read_position element steps) as [r|]; [|now left].
    destruct (list_eq_dec Nat.eq_dec p r) as [<- | Hne].
    + right. now apply value_at_set_at with x.
    + left. now apply value_at_elsewhere.
Qed.

(** After [set_param_value] has written [v] at a parameter path,
    [get_param_value] at the same path returns [v], however many steps the
    path has; at any other path it returns what it returned before, or [v]
    when that path leads to the same element. *)
Theorem set_then_get_param :
  forall (element element' : Element) (param_path v : string),
    set_param_value element param_path v = Some element' ->
    get_param_value element' (PyStr.split "/" param_path) = Some v /\
    forall steps,
      get_param_value element' steps = get_param_value element steps \/
      get_param_value element' steps = Some v.
Proof.
  intros element element' param_path v H. now apply set_then_get_param_core.
Qed.

End WriteThenRead.

(** The theorem at a band gain of the sample equalizer. *)
Lemma set_then_get_param_witness :
  exists element',
    set_param_value sample_eq8 "Bands.0/ParameterA/Gain" "-2.5" = Some element' /\
    get_param_value element' ["Bands.0"; "ParameterA"; "Gain"] = Some "-2.5" /\
    get_param_value element' ["Bands.0"; "ParameterA"; "Q"] = Some "1.2".
Proof.
  destruct (set_param_value sample_eq8 "Bands.0/ParameterA/Gain" "-2.5")
    as [element'|] eqn:H; [|vm_compute in H; discriminate].
  exists element'. split; [reflexivity|].
  destruct (set_then_get_param sample_eq8 element' "Bands.0/ParameterA/Gain" "-2.5" H)
    as [H1 H2].
  split; [exact H1|].
  destruct (H2 ["Bands.0"; "ParameterA"; "Q"]) as [E | E]; rewrite E.
  - reflexivity.
  - exfalso. vm_compute in H. injection H as <-. vm_compute in E. discriminate.
Defined.

(* ================================================================= *)
(** ** Finding the track of a request *)

Section TrackLookup.

Lemma indices_where_length {A} (f : A -> bool) i0 l :
  List.length (indices_where f i0 l) = List.length (filter f l).
Proof.
  revert i0. induction l as [|a r IH]; intros i0; simpl; [reflexivity|].
  destruct (f a); simpl; now rewrite IH.
Qed.

Lemma indices_where_nth {A} (f : A -> bool) l :
  forall i0 k i,
    nth_error (indices_where f i0 l) k = Some i ->
    exists j x, i = i0 + j /\ nth_error l j = Some x /\ f x = true /\
                List.length (filter f (firstn j l)) = k.
Proof.
  induction l as [|a r IH]; intros i0 k i; simpl.
  - destruct k; discriminate.
  - destruct (f a) eqn:Fa.
    + destruct k as [|k]; simpl.
      * intros [= <-]. exists 0, a. rewrite Nat.add_0_r. auto.
      * intros H. destruct (IH _ _ _ H) as (j & x & -> & Hj & Hx & Hc).
        exists (S j), x. simpl. rewrite Fa. simpl.
        rewrite Nat.add_succ_r. auto.
    + intros H. destruct (IH _ _ _ H) as (j & x & -> & Hj & Hx & Hc).
      exists (S j), x. simpl. rewrite Fa. rewrite Nat.add_succ_r. auto.
Qed.

(** A request under an ordinary name goes to a child of the track list
    whose effective name is the requested one (and whose tag is the
    requested kind, when one is given).  Among the [n] such children a
    [track_index] from [0] to [n - 1] counts from the first and a negative
    one from [-1] to [-n] counts back from the last, as Python indexing
    does.  The lookup fails with an error message when there is no such
    child or the index is [n] or more, and raises [IndexError] when the
    index is below [-n]. *)
Theorem track_resolution :
  forall (root : Element) (tracks_el : pos) (c : change),
    ordinary_name (track_name c) = true ->
    let tracks := children (deref tracks_el root) in
    let ok := track_matches (track_name c) (track_type c) in
    let n := Z.of_nat (List.length (filter ok tracks)) in
    let idx := track_index c in
    match resolve_track root tracks_el c with
    | Resolved p =>
        (- n <= idx < n)%Z /\
        exists i track,
          p = tracks_el ++ [i] /\ nth_error tracks i = Some track /\ ok track = true /\
          Z.of_nat (List.length (filter ok (firstn i tracks)))
          = (if (0 <=? idx)%Z then idx else n + idx)%Z
    | Failed msg => is_error msg = true /\ (n = 0 \/ n <= idx)%Z
    | Crashed e => e = IndexError /\ (0 < n)%Z /\ (idx < - n)%Z
    end.
Proof.
  intros root tracks_el c Hname tracks ok n idx.
  unfold ordinary_name in Hname.
  apply andb_true_iff in Hname as [Hname H3]. apply andb_true_iff in Hname as [H1 H2].
  apply negb_true_iff in H1, H2, H3.
  pose proof (resolve_track_failed root tracks_el c) as Herr.
  unfold resolve_track in *. rewrite H1, H2, H3 in *. cbn [orb] in *.
  change (find_tracks_by_name (deref tracks_el root) (track_name c) (track_type c))
    with (indices_where ok 0 tracks) in *.
  pose proof (indices_where_length ok 0 tracks) as Hlen. fold n in Hlen.
  remember (indices_where ok 0 tracks) as matches eqn:Hmdef in *.
  assert (Hn : n = Z.of_nat (List.length matches)) by (subst n; now rewrite Hlen).
  clearbody n. clear Hlen.
  destruct matches as [|m0 ms] eqn:Hm.
  - split; [now apply Herr | left; subst n; reflexivity].
  - rewrite <- Hm in *. rewrite <- Hn in *. fold idx in Herr |- *.
    assert (Hpos : (0 < n)%Z) by (rewrite Hn, Hm; simpl; lia).
    destruct (Z.geb_spec idx n) as [Hge | Hlt].
    + split; [now apply Herr | right; lia].
    + unfold py_index. rewrite <- Hn.
      destruct (Z.leb_spec 0 idx) as [H0 | H0].
      * destruct (nth_error matches (Z.to_nat idx)) as [i|] eqn:Hi.
        -- split; [lia|].
           rewrite Hmdef in Hi.
           destruct (indices_where_nth _ _ _ _ _ Hi) as (j & x & -> & Hj & Hx & Hc).
           exists j, x. simpl. repeat split; auto. rewrite Hc. lia.
        -- apply nth_error_None in Hi. lia.
      * destruct (Z.leb_spec (- n) idx) as [Hlow | Hlow].
        -- destruct (nth_error matches (Z.to_nat (n + idx))) as [i|] eqn:Hi.
           ++ split; [lia|].
              rewrite Hmdef in Hi.
              destruct (indices_where_nth _ _ _ _ _ Hi) as (j & x & -> & Hj & Hx & Hc).
              exists j, x. simpl. repeat split; auto. rewrite Hc. lia.
           ++ apply nth_error_None in Hi. lia.
        -- repeat split; auto; lia.
Qed.

End TrackLookup.

(** The theorem on the sample project: index [-1] under the name
    ["Snare"] is the last, and only, track of that name. *)
Lemma track_resolution_witness :
  ordinary_name "Snare" = true /\
  exists i track,
    resolve_track sample_project [0; 0]
      {| track_name := "Snare"; track_type := Some "AudioTrack"; track_index := -1;
         change_target := Pan "C" |} = Resolved ([0; 0] ++ [i]) /\
    nth_error (children (deref [0; 0] sample_project)) i = Some track /\
    track_matches "Snare" (Some "AudioTrack") track = true.
Proof.
  split; [reflexivity|].
  pose proof (track_resolution sample_project [0; 0]
                {| track_name := "Snare"; track_type := Some "AudioTrack";
                   track_index := -1; change_target := Pan "C" |} eq_refl) as H.
  cbv zeta in H.
  destruct (resolve_track sample_project [0; 0] _) as [p|msg|e] eqn:E;
    [ | vm_compute in E; discriminate | vm_compute in E; discriminate ].
  destruct H as (_ & i & track & -> & Hi & Hok & _).
  exists i, track. auto.
Defined.

(* ================================================================= *)
(** ** Finding a device and changing one of its parameters *)

Section DeviceParameters.

Variable float_str : PyFloat.t -> string.

Lemma get_at_child p i root x :
  nth_error (children_at p root) i = Some x -> get_at (p ++ [i]) root = Some x.
Proof.
  unfold children_at. rewrite get_at_app.
  destruct (get_at p root) as [e|]; simpl.
  - intros ->. reflexivity.
  - destruct i; discriminate.
Qed.

(** A device found is a live element with the requested tag. *)
Lemma find_device_found root track_el device_tag device_index p :
  find_device root track_el device_tag device_index = inl (Some p) ->
  exists device, get_at p root = Some device /\ tag device = device_tag.
Proof.
  unfold find_device.
  destruct (find_at track_el _ root) as [devices_el|]; [|discriminate].
  destruct (_ <? _)%Z; [|discriminate].
  destruct (py_index _ device_index) as [i|] eqn:Hi; [|discriminate].
  intros [= <-]. unfold py_index in Hi.
  assert (H : exists k, nth_error
                          (indices_where (fun d => String.eqb (tag d) device_tag) 0
                                         (children_at devices_el root)) k = Some i).
  { destruct (0 <=? device_index)%Z; [eauto|].
    destruct (_ <=? device_index)%Z; [eauto | discriminate]. }
  destruct H as [k Hk].
  destruct (indices_where_nth _ _ _ _ _ Hk) as (j & x & -> & Hj & Hx & _).
  exists x. split; [now apply get_at_child | now apply String.eqb_eq].
Qed.

(** [find_device] returns a child of the track's [Devices] element with
    the requested tag.  Among the [n] such children a [device_index] from
    [0] to [n - 1] counts from the first and a negative one from [-1] to
    [-n] counts back from the last.  It returns nothing when the track has
    no [Devices] element or the index is [n] or more, and raises
    [IndexError] when the index is below [-n]. *)
Theorem device_lookup :
  forall (root : Element) (track_el : pos) (device_tag : string) (device_index : Z),
    let same_tag := fun d => String.eqb (tag d) device_tag in
    let n := Z.of_nat (List.length (filter same_tag (devices_of root track_el))) in
    match find_device root track_el device_tag device_index with
    | inl (Some p) =>
        (- n <= device_index < n)%Z /\
        exists i device,
          nth_error (devices_of root track_el) i = Some device /\
          get_at p root = Some device /\
          tag device = device_tag /\
          Z.of_nat (List.length (filter same_tag (firstn i (devices_of root track_el))))
          = (if (0 <=? device_index)%Z then device_index else n + device_index)%Z
    | inl None =>
        find_at track_el ["DeviceChain"; "DeviceChain"; "Devices"] root = None \/
        (n <= device_index)%Z
    | inr e => e = IndexError /\ (device_index < - n)%Z
    end.
Proof.
  intros root track_el device_tag device_index same_tag n.
  unfold find_device, devices_of in *.
  destruct (find_at track_el _ root) as [devices_el|] eqn:Hd; [|now left].
  fold same_tag.
  pose proof (indices_where_length same_tag 0 (children_at devices_el root)) as Hlen.
  remember (indices_where same_tag 0 (children_at devices_el root)) as matches eqn:Hm.
  assert (Hn : n = Z.of_nat (List.length matches)) by (subst n; now rewrite Hlen).
  clearbody n. clear Hlen. rewrite <- Hn.
  destruct (Z.ltb_spec device_index n) as [Hlt | Hge]; [|right; lia].
  unfold py_index. rewrite <- Hn.
  destruct (Z.leb_spec 0 device_index) as [H0 | H0].
  - destruct (nth_error matches (Z.to_nat device_index)) as [i|] eqn:Hi.
    + split; [lia|]. rewrite Hm in Hi.
      destruct (indices_where_nth _ _ _ _ _ Hi) as (j & x & -> & Hj & Hx & Hc).
      exists j, x. simpl. repeat split; auto.
      * now apply get_at_child.
      * now apply String.eqb_eq.
      * rewrite Hc. lia.
    + apply nth_error_None in Hi. lia.
  - destruct (Z.leb_spec (- n) device_index) as [Hlow | Hlow].
    + destruct (nth_error matches (Z.to_nat (n + device_index))) as [i|] eqn:Hi.
      * split; [lia|]. rewrite Hm in Hi.
        destruct (indices_where_nth _ _ _ _ _ Hi) as (j & x & -> & Hj & Hx & Hc).
        exists j, x. simpl. repeat split; auto.
        -- now apply get_at_child.
        -- now apply String.eqb_eq.
        -- rewrite Hc. lia.
      * apply nth_error_None in Hi. lia.
    + split; [reflexivity | lia].
Qed.

(** A ["device_param"] request that succeeds replaces the device it found
    by the device with one ["Value"] rewritten, and leaves the reference to
    the track list as it was.  Read back with [get_param_value] at the
    requested path, the device gives the text written: the linear amplitude
    for a decibel parameter, the value's own text otherwise.  Any other
    path of the device reads as before, unless it leads to the element
    written. *)
Theorem device_param_request_effect :
  forall (root root' : Element) (tracks_el tracks' : pos) (c : change)
         (device_tag : string) (device_index : Z) (param_name : string)
         (param_val : param_value) (device_name : option string) (desc : string),
    change_target c = DeviceParam device_tag device_index param_name param_val device_name ->
    apply_change float_str root tracks_el c = Return root' tracks' [desc] ->
    is_error desc = false ->
    exists track_el device_pos device device' written,
      resolve_track root tracks_el c = Resolved track_el /\
      find_device root track_el device_tag device_index = inl (Some device_pos) /\
      get_at device_pos root = Some device /\
      tag device = device_tag /\
      written_text float_str device_tag param_name param_val = Some written /\
      root' = update_at (fun _ => device') device_pos root /\
      tracks' = tracks_el /\
      get_at device_pos root' = Some device' /\
      get_param_value device' (PyStr.split "/" param_name) = Some written /\
      forall steps,
        get_param_value device' steps = get_param_value device steps \/
        get_param_value device' steps = Some written.
Proof.
  intros root root' tracks_el tracks' c device_tag device_index param_name param_val
         device_name desc Hc Ho Hdesc.
  unfold apply_change in Ho. rewrite Hc in Ho.
  destruct (resolve_track root tracks_el c) as [track_el|msg|e] eqn:Hres;
    [ | injection Ho as <- <- <-; apply resolve_track_failed in Hres; congruence
      | discriminate ].
  unfold apply_device_param in Ho.
  destruct (find_device root track_el device_tag device_index)
    as [[device_pos|]|e] eqn:Hdev;
    [ | injection Ho as _ _ <-; vm_compute in Hdesc; discriminate | discriminate ].
  destruct (find_device_found _ _ _ _ _ Hdev) as (device & Hlive & Htag).
  unfold deref in Ho. rewrite Hlive in Ho.
  match type of Ho with
  | match ?conv with inl _ => _ | inr _ => _ end = _ =>
      destruct conv as [[written display]|e] eqn:Hconv; [|discriminate]
  end.
  assert (Htext : written_text float_str device_tag param_name param_val = Some written).
  { unfold written_text.
    destruct (DB_LINEAR_PARAMS device_tag param_name).
    - destruct param_val as [n|x|t]; [| |discriminate].
      + destruct (db_to_linear (Some (PyFloat.Fin (IZR n)))); [|discriminate].
        injection Hconv as <- _. reflexivity.
      + destruct (db_to_linear (Some x)); [|discriminate].
        injection Hconv as <- _. reflexivity.
    - injection Hconv as <- _. reflexivity. }
  match type of Ho with
  | match ?o with Some _ => _ | None => _ end = _ =>
      destruct o as [old_str|]; [|discriminate]
  end.
  destruct (set_param_value device param_name written) as [device'|] eqn:Hset;
    [|injection Ho as _ _ <-; vm_compute in Hdesc; discriminate].
  injection Ho as <- <- _.
  destruct (set_then_get_param_core _ _ _ _ Hset) as [Hread Hframe].
  exists track_el, device_pos, device, device', written.
  repeat split; auto.
  rewrite get_at_update_at_same, Hlive. reflexivity.
Qed.

End DeviceParameters.

(** The theorem on the sample project: the gain of the first band of the
    equalizer on ["Snare"]. *)
Lemma device_param_request_effect_witness :
  exists device',
    get_at [0; 0; 0; 1; 1; 0; 0]
      (outcome_document
         (apply_change sample_float_str sample_project [0; 0]
            (sample_change "Snare"
               (DeviceParam "Eq8" 0 "Bands.0/ParameterA/Gain" (PText "-2") None))))
    = Some device' /\
    get_param_value device' ["Bands.0"; "ParameterA"; "Gain"] = Some "-2".
Proof.
  destruct (apply_change sample_float_str sample_project [0; 0]
              (sample_change "Snare"
                 (DeviceParam "Eq8" 0 "Bands.0/ParameterA/Gain" (PText "-2") None)))
    as [root' tracks' [|desc [|? ?]] | ? ?] eqn:Ho;
    try (vm_compute in Ho; discriminate).
  assert (Hdesc : is_error desc = false).
  { vm_compute in Ho. injection Ho as _ _ <-. reflexivity. }
  destruct (device_param_request_effect sample_float_str sample_project root' [0; 0] tracks'
              (sample_change "Snare"
                 (DeviceParam "Eq8" 0 "Bands.0/ParameterA/Gain" (PText "-2") None))
              "Eq8" 0%Z "Bands.0/ParameterA/Gain" (PText "-2") None desc eq_refl Ho Hdesc)
    as (track_el & device_pos & device & device' & written &
        H1 & H2 & H3 & H4 & H5 & H6 & H7 & H8 & H9 & H10).
  vm_compute in H1. injection H1 as <-.
  vm_compute in H2. injection H2 as <-.
  vm_compute in H5. injection H5 as <-.
  exists device'. split; [exact H8 | exact H9].
Defined.

(* ================================================================= *)
(** ** Return tracks *)

Section ReturnTracks.

Lemma prefix_upper_not name other :
  PyStr.startswith "RETURN:" (PyStr.upper name) = true ->
  PyStr.startswith "RETURN:" other = false ->
  String.eqb (PyStr.upper name) other = false.
Proof.
  intros H1 H2. destruct (String.eqb_spec (PyStr.upper name) other) as [E|]; [|reflexivity].
  rewrite E in H1. congruence.
Qed.

(** A request named ["RETURN:x"] (the prefix in any case) goes to the first
    child of the track list that is a [ReturnTrack] whose effective name
    contains [x] as a substring, and fails with an error message when there
    is none; it never raises. *)
Theorem return_track_resolution :
  forall (root : Element) (tracks_el : pos) (c : change),
    PyStr.startswith "RETURN:" (PyStr.upper (track_name c)) = true ->
    let wanted := PyStr.drop 7 (track_name c) in
    let tracks := children_at tracks_el root in
    match resolve_track root tracks_el c with
    | Resolved p =>
        exists before t after,
          tracks = before ++ t :: after /\
          p = tracks_el ++ [List.length before] /\
          return_track_matches wanted t = true /\
          Forall (fun t' => return_track_matches wanted t' = false) before
    | Failed msg =>
        is_error msg = true /\
        Forall (fun t' => return_track_matches wanted t' = false) tracks
    | Crashed _ => False
    end.
Proof.
  intros root tracks_el c Hname wanted tracks.
  pose proof (resolve_track_failed root tracks_el c) as Herr.
  unfold resolve_track in *.
  rewrite (prefix_upper_not _ "MASTER" Hname eq_refl) in *.
  rewrite (prefix_upper_not _ "MAIN" Hname eq_refl) in *.
  rewrite Hname in *. cbn [orb] in *.
  fold wanted tracks in Herr |- *.
  assert (Hf : forall t,
             (if String.eqb (tag t) "ReturnTrack"
              then match find_descendant "Name" ["EffectiveName"] t with
                   | Some name_el =>
                       if PyStr.contains wanted (get_default "Value" "" name_el)
                       then Some 0 else None
                   | None => None
                   end
              else None) = None <-> return_track_matches wanted t = false).
  { intros t. unfold return_track_matches.
    destruct (String.eqb (tag t) "ReturnTrack"); simpl; [|tauto].
    destruct (find_descendant "Name" ["EffectiveName"] t) as [name_el|]; [|tauto].
    destruct (PyStr.contains wanted _); split; auto; discriminate. }
  match goal with
  | |- context [first_some ?f 0 tracks] =>
      destruct (first_some f 0 tracks) as [i|] eqn:E
  end.
  - apply first_some_split in E as (before & t & after & Hl & Ht & Hbefore).
    exists before, t, after. simpl in Ht.
    assert (Hi : i = List.length before /\ return_track_matches wanted t = true).
    { unfold return_track_matches.
      destruct (String.eqb (tag t) "ReturnTrack"); [|discriminate].
      destruct (find_descendant "Name" ["EffectiveName"] t) as [name_el|]; [|discriminate].
      destruct (PyStr.contains wanted _); [|discriminate].
      injection Ht as <-. auto. }
    destruct Hi as [-> Hm]. repeat split; auto.
    apply Forall_forall. intros t' Hin. apply In_nth_error in Hin as [k Hk].
    specialize (Hbefore k t' Hk). apply Hf.
    simpl in Hbefore.
    destruct (String.eqb (tag t') "ReturnTrack"); [|reflexivity].
    destruct (find_descendant "Name" ["EffectiveName"] t'); [|reflexivity].
    destruct (PyStr.contains wanted _); [discriminate | reflexivity].
  - split; [now apply Herr|].
    apply Forall_forall. intros t' Hin. apply In_nth_error in Hin as [k Hk].
    pose proof (proj1 (first_some_none _ _ _) E k t' Hk) as H. apply Hf.
    simpl in H.
    destruct (String.eqb (tag t') "ReturnTrack"); [|reflexivity].
    destruct (find_descendant "Name" ["EffectiveName"] t'); [|reflexivity].
    destruct (PyStr.contains wanted _); [discriminate | reflexivity].
Qed.

End ReturnTracks.

(** The theorem on a sample: ["return:Reverb"] is the first return track
    with ["Reverb"] in its name, not the audio track in front of it. *)
Lemma return_track_resolution_witness :
  PyStr.startswith "RETURN:" (PyStr.upper "return:Reverb") = true /\
  exists before t after,
    children_at [0; 0] sample_returns = before ++ t :: after /\
    resolve_track sample_returns [0; 0] (sample_change "return:Reverb" (Pan "C"))
    = Resolved ([0; 0] ++ [List.length before]) /\
    return_track_matches "Reverb" t = true.
Proof.
  split; [reflexivity|].
  pose proof (return_track_resolution sample_returns [0; 0]
                (sample_change "return:Reverb" (Pan "C")) eq_refl) as H.
  cbv zeta in H.
  destruct (resolve_track sample_returns [0; 0] _) as [p|msg|e] eqn:E;
    [ | vm_compute in E; discriminate | contradiction ].
  destruct H as (before & t & after & H1 & -> & H3 & _).
  exists before, t, after. auto.
Defined.

(* ================================================================= *)
(** ** What the reader shows *)

Section ReaderDisplay.

Local Open Scope R_scope.

Lemma length_append s1 s2 :
  String.length (s1 +++ s2) = (String.length s1 + String.length s2)%nat.
Proof. induction s1; simpl; auto. Qed.

Lemma db_suffix_not_marker s : s +++ " dB" <> "N/A" /\ s +++ " dB" <> "-inf".
Proof.
  split; intros H; pose proof (f_equal String.length H) as L;
    rewrite length_append in L; simpl in L.
  - destruct s; [discriminate | simpl in L; lia].
  - destruct s as [|c [|c' s]]; simpl in *; try discriminate; lia.
Qed.

(** The reader's text for a stored volume is ["N/A"] exactly when the
    stored text is no number, and ["-inf"] exactly when it is a number at
    or below [0.0003163]; any other value is shown as a signed number of
    decibels with one decimal. *)
Theorem volume_display_cases :
  forall value : pyvalue,
    (db_str (vol_to_db value) = "N/A" <-> to_float value = None) /\
    (db_str (vol_to_db value) = "-inf" <->
     exists v, to_float value = Some v /\ PyFloat.leb v 0.0003163 = true) /\
    (forall v, to_float value = Some v -> PyFloat.leb v 0.0003163 = false ->
               db_str (vol_to_db value)
               = PyFloat.format_f true 1 (PyFloat.mul_pos (PyFloat.log10 v) 20) +++ " dB").
Proof.
  intros value. unfold vol_to_db.
  destruct (to_float value) as [v|]; cbv beta iota.
  2:{ simpl. repeat split; auto; try discriminate. intros (v & H & _). discriminate. }
  destruct (PyFloat.leb v 0.0003163) eqn:E; cbv beta iota.
  - simpl. repeat split; intros; try discriminate; try congruence; eauto.
  - assert (H : db_str (Some (PyFloat.mul_pos (PyFloat.log10 v) 20))
                = PyFloat.format_f true 1 (PyFloat.mul_pos (PyFloat.log10 v) 20) +++ " dB").
    { destruct v; reflexivity. }
    rewrite H. destruct (db_suffix_not_marker
                           (PyFloat.format_f true 1 (PyFloat.mul_pos (PyFloat.log10 v) 20)))
      as [N1 N2].
    repeat split; try (intros; congruence); try contradiction.
    intros (v' & [= <-] & E'). congruence.
Qed.

End ReaderDisplay.

(* ================================================================= *)
(** ** A reset equalizer, as the reader sees it *)

Section ResetThenRead.

Lemma find_path_prefix path rest e r :
  find_path (path ++ rest) e = Some r -> exists q, find_path path e = Some q.
Proof.
  revert e r. induction path as [|t path IH]; intros e r; simpl; [eauto|].
  intros H. apply first_some_split in H as (l1 & x & l2 & Hl & Hx & Hbefore).
  simpl in Hx. destruct (String.eqb (tag x) t) eqn:Ht; [|discriminate].
  destruct (find_path (path ++ rest) x) as [r'|] eqn:Hr; [|discriminate].
  destruct (IH _ _ Hr) as [q Hq].
  destruct (first_some
              (fun i c => if String.eqb (tag c) t
                          then option_map (cons i) (find_path path c) else None)
              0 (children e)) as [q0|] eqn:E; [eauto|].
  rewrite first_some_none in E.
  assert (Hn : nth_error (children e) (List.length l1) = Some x).
  { rewrite Hl, nth_error_app2, Nat.sub_diag by lia. reflexivity. }
  specialize (E _ _ Hn). simpl in E. rewrite Ht, Hq in E. discriminate.
Qed.

(** [find] along a path, continued from where it arrives, is [find] along
    the longer path. *)
Lemma find_path_app_some path rest e q x r :
  find_path path e = Some q -> get_at q e = Some x -> find_path rest x = Some r ->
  find_path (path ++ rest) e = Some (q ++ r).
Proof.
  revert e q. induction path as [|t path IH]; intros e q; simpl.
  - intros [= <-] [= <-] Hr. exact Hr.
  - intros H Hx Hr.
    apply first_some_split in H as (l1 & c & l2 & Hl & Hc & Hbefore).
    simpl in Hc. destruct (String.eqb (tag c) t) eqn:Ht; [|discriminate].
    destruct (find_path path c) as [q'|] eqn:Hq; [|discriminate].
    injection Hc as <-.
    assert (Hn : nth_error (children e) (List.length l1) = Some c).
    { rewrite Hl, nth_error_app2, Nat.sub_diag by lia. reflexivity. }
    simpl in Hx. rewrite Hn in Hx.
    rewrite Hl. apply first_some_at.
    + intros k z Hz. specialize (Hbefore k z Hz). simpl in Hbefore |- *.
      destruct (String.eqb (tag z) t); [|reflexivity].
      destruct (find_path (path ++ rest) z) as [r'|] eqn:Hz'; [|reflexivity].
      destruct (find_path_prefix _ _ _ _ Hz') as [q0 Hq0]. rewrite Hq0 in Hbefore.
      discriminate.
    + simpl. rewrite Ht, (IH _ _ Hq Hx Hr). reflexivity.
Qed.

Lemma eq8_table_is_on i :
  i < 8 ->
  In (["Bands." +++ PyInt.str (Z.of_nat i); "ParameterA"; "IsOn"; "Manual"], "false")
     eq8_reset_table.
Proof.
  intros Hi. unfold eq8_reset_table. apply in_flat_map.
  exists i. split; [apply in_seq; lia|].
  apply in_flat_map. exists "ParameterA". split; [now left|]. now left.
Qed.

Lemma eq8_table_NoDup : NoDup (map fst eq8_reset_table).
Proof.
  pose proof eq8_table_paths_distinct as H. rewrite map_app in H.
  now apply NoDup_app_remove_r in H.
Qed.

Lemma reset_eq8_band_off device i :
  i < 8 ->
  (exists q m,
      find_path ["Bands." +++ PyInt.str (Z.of_nat i); "ParameterA"; "IsOn"] device = Some q /\
      find_at q ["Manual"] device = Some m) ->
  get_param_value (reset_eq8_defaults device)
                  ["Bands." +++ PyInt.str (Z.of_nat i); "ParameterA"; "IsOn"]
  = Some "false".
Proof.
  intros Hi (q & m & Hq & Hm).
  rewrite reset_eq8_table, get_param_value_position. unfold read_position.
  rewrite find_path_apply_table, Hq.
  rewrite (find_at_same_shape _ _ device) by apply shape_apply_table.
  rewrite Hm.
  apply apply_table_value
    with (path := ["Bands." +++ PyInt.str (Z.of_nat i); "ParameterA"; "IsOn"; "Manual"]).
  - apply eq8_table_NoDup.
  - now apply eq8_table_is_on.
  - unfold find_at in Hm. destruct (get_at q device) as [x|] eqn:Hx; [|discriminate].
    destruct (find_path ["Manual"] x) as [r|] eqn:Hr; [|discriminate].
    injection Hm as <-.
    change ["Bands." +++ PyInt.str (Z.of_nat i); "ParameterA"; "IsOn"; "Manual"]
      with (["Bands." +++ PyInt.str (Z.of_nat i); "ParameterA"; "IsOn"] ++ ["Manual"]).
    now apply find_path_app_some with x.
Qed.

(** After [reset_eq8_defaults], [extract_eq8_bands] reports no active
    band, for an equalizer that keeps the on-switch of each of its eight
    bands in the nested form ([Bands.i/ParameterA/IsOn] with a [Manual]
    child). *)
Theorem reset_eq8_reads_no_band :
  forall device : Element,
    (forall i, i < 8 ->
       exists q m,
         find_path ["Bands." +++ PyInt.str (Z.of_nat i); "ParameterA"; "IsOn"] device
         = Some q /\
         find_at q ["Manual"] device = Some m) ->
    extract_eq8_bands (reset_eq8_defaults device) = inl [].
Proof.
  intros device H. unfold extract_eq8_bands.
  assert (Hall : forall l, Forall (fun i => 1 <= i <= 8) l ->
                           extract_eq8_bands_from (reset_eq8_defaults device) l = inl []).
  { induction l as [|i l IH]; intros HF; [reflexivity|].
    inversion HF as [|? ? Hi Hl]; subst.
    cbn [extract_eq8_bands_from]. rewrite (IH Hl).
    unfold extract_eq8_band.
    rewrite (reset_eq8_band_off device (i - 1)) by (try apply H; lia).
    reflexivity. }
  apply Hall. apply Forall_forall. intros i Hi. apply in_seq in Hi. lia.
Qed.

End ResetThenRead.

(** The theorem on an equalizer with all eight bands on: the reader lists
    eight bands before the reset and none after it. *)
Lemma reset_eq8_reads_no_band_witness :
  (exists bands, extract_eq8_bands sample_eq8_all_on = inl bands /\ List.length bands = 8) /\
  extract_eq8_bands (reset_eq8_defaults sample_eq8_all_on) = inl [].
Proof.
  split.
  - unfold extract_eq8_bands. cbn [seq extract_eq8_bands_from].
    assert (Hb : forall i, 1 <= i <= 8 ->
                           exists s, extract_eq8_band sample_eq8_all_on i = inl (Some s)).
    { intros i Hi. unfold extract_eq8_band.
      assert (Hv : forall name v,
                 In (name, v) [("IsOn", "true"); ("Freq", "100"); ("Gain", "3"); ("Q", "2")] ->
                 get_param_value sample_eq8_all_on
                   ["Bands." +++ PyInt.str (Z.of_nat (i - 1)); "ParameterA"; name] = Some v).
      { intros name v Hin.
        do 9 (destruct i as [|i]; [try lia; simpl in Hin;
                                   decompose [or] Hin; try contradiction;
                                   match goal with E : (_, _) = (_, _) |- _ =>
                                     injection E as <- <- end; vm_compute; reflexivity|]).
        lia. }
      rewrite (Hv "IsOn" "true"), (Hv "Freq" "100"), (Hv "Gain" "3"), (Hv "Q" "2")
        by (simpl; tauto).
      change (String.eqb (lower "true") "true") with true. cbv iota.
      unfold band_text. change (String.eqb "100" "") with false.
      change (String.eqb "3" "") with false. change (String.eqb "2" "") with false.
      cbv iota.
      change (PyFloat.parse "100") with (PyFloat.parse (PyInt.str 100)).
      change (PyFloat.parse "3") with (PyFloat.parse (PyInt.str 3)).
      change (PyFloat.parse "2") with (PyFloat.parse (PyInt.str 2)).
      rewrite (float_parse_str 100), (float_parse_str 3), (float_parse_str 2) by lia.
      eauto. }
    destruct (Hb 1) as [s1 ->]; [lia|]. destruct (Hb 2) as [s2 ->]; [lia|].
    destruct (Hb 3) as [s3 ->]; [lia|]. destruct (Hb 4) as [s4 ->]; [lia|].
    destruct (Hb 5) as [s5 ->]; [lia|]. destruct (Hb 6) as [s6 ->]; [lia|].
    destruct (Hb 7) as [s7 ->]; [lia|]. destruct (Hb 8) as [s8 ->]; [lia|].
    eexists. split; reflexivity.
  - apply reset_eq8_reads_no_band.
    intros i Hi.
    do 8 (destruct i as [|i]; [vm_compute; eauto|]). lia.
Defined.

(* ================================================================= *)
(** ** A new device, as the reader sees it *)

Section NewDeviceIsOn.

Variable float_str : PyFloat.t -> string.

Lemma shape_without_ids e : shape (without_ids e) = shape e.
Proof.
  induction e as [t a cs IH] using Element_rect_nested. simpl. f_equal.
  rewrite map_map. induction IH as [|c r Hc Hr IHr]; simpl; [reflexivity|].
  now rewrite Hc, IHr.
Qed.

Lemma shape_remap_ids element start :
  shape (fst (remap_ids element start)) = shape element.
Proof.
  rewrite <- (shape_without_ids (fst _)), remap_ids_without_ids.
  apply shape_without_ids.
Qed.

Lemma shape_prepare_clone root donor device_tag :
  shape (prepare_clone float_str root donor device_tag) = shape donor.
Proof. now rewrite prepare_clone_table, shape_apply_table, shape_remap_ids. Qed.

Lemma find_path_same_shape path e e' :
  shape e' = shape e -> find_path path e' = find_path path e.
Proof. intros H. now rewrite <- (find_path_shape path e'), H, find_path_shape. Qed.

(** The clone is switched on, as far as the reader's test goes. *)
Lemma prepare_clone_is_on root donor device_tag :
  (forall q, find_path ["On"] donor = Some q -> find_at q ["Manual"] donor <> None) ->
  device_is_on (prepare_clone float_str root donor device_tag) = true.
Proof.
  intros Hform. unfold device_is_on.
  rewrite get_param_value_position. unfold read_position.
  rewrite (find_path_same_shape _ donor) by apply shape_prepare_clone.
  destruct (find_path ["On"] donor) as [q|] eqn:Hq; [|reflexivity].
  rewrite (find_at_same_shape _ _ donor) by apply shape_prepare_clone.
  destruct (find_at q ["Manual"] donor) as [m|] eqn:Hm; [|now destruct (Hform q eq_refl)].
  rewrite prepare_clone_table.
  set (d0 := fst (remap_ids donor (find_max_id root + 1))).
  assert (Hs : shape d0 = shape donor) by apply shape_remap_ids.
  rewrite (apply_table_value _ _ ["On"; "Manual"] "true" m); [reflexivity | | |].
  - apply reset_table_paths_distinct.
  - apply in_or_app. right. now left.
  - rewrite <- (find_path_same_shape _ donor d0 Hs) in Hq.
    rewrite <- (find_at_same_shape q ["Manual"] donor d0 Hs) in Hm.
    unfold find_at in Hm. destruct (get_at q d0) as [x|] eqn:Hx; [|discriminate].
    destruct (find_path ["Manual"] x) as [r|] eqn:Hr; [|discriminate].
    injection Hm as <-.
    change ["On"; "Manual"] with (["On"] ++ ["Manual"]).
    now apply find_path_app_some with x.
Qed.

(** A device added without parameters reads as switched on: after a
    successful ["add_device"] request with no [params], the reader's on/off
    test accepts the new child of the track's [Devices] element, whatever
    the state of the device it was cloned from, provided that device keeps
    its ["On"] parameter, if it has one, in the nested form. *)
Theorem added_device_reads_on :
  forall (root root' : Element) (tracks_el tracks' : pos) (c : change)
         (device_tag : string) (position : Z) (device_name : option string)
         (desc : string),
    change_target c = AddDevice device_tag position [] device_name ->
    apply_change float_str root tracks_el c = Return root' tracks' [desc] ->
    is_error desc = false ->
    (forall donor q,
        find_donor_device root device_tag = Some donor ->
        find_path ["On"] donor = Some q -> find_at q ["Manual"] donor <> None) ->
    exists devices_el before new_device after,
      children_at devices_el root = before ++ after /\
      children_at devices_el root' = before ++ new_device :: after /\
      tag new_device = device_tag /\
      device_is_on new_device = true.
Proof.
  intros root root' tracks_el tracks' c device_tag position device_name desc
         Hc Ho Hdesc Hform.
  unfold apply_change in Ho. rewrite Hc in Ho.
  destruct (resolve_track root tracks_el c) as [track_el|msg|e] eqn:Hres;
    [ | injection Ho as <- <- <-; apply resolve_track_failed in Hres; congruence
      | discriminate ].
  destruct (apply_add_device_success _ _ _ _ _ _ _ _ _ _ _ _ Ho Hdesc)
    as (donor & nd & devices_el & chain & Hdonor & Hparams & Hfind & Hchain & H).
  cbv zeta in H. destruct H as (Hk & -> & _).
  set (k := if (position =? -1)%Z || (position >=? Z.of_nat (List.length (children chain)))%Z
            then List.length (children chain)
            else py_insert_index (List.length (children chain)) position) in *.
  exists devices_el, (firstn k (children chain)), nd, (skipn k (children chain)).
  repeat split.
  - unfold children_at. rewrite Hchain. symmetry. apply firstn_skipn.
  - unfold children_at. rewrite get_at_update_at_same, Hchain. simpl.
    destruct chain. reflexivity.
  - now apply (tag_prepared float_str) with root donor (@nil (string * param_value)).
  - simpl in Hparams. injection Hparams as <-.
    apply prepare_clone_is_on. intros q. now apply Hform.
Qed.

End NewDeviceIsOn.

(** The theorem on the sample project: the equalizer on ["Snare"] is
    switched off, its clone on ["Kick"] is on. *)
Lemma added_device_reads_on_witness :
  device_is_on sample_eq8 = false /\
  exists devices_el before new_device after,
    children_at devices_el sample_project = before ++ after /\
    children_at devices_el
      (outcome_document
         (apply_change sample_float_str sample_project [0; 0]
            (sample_change "Kick" (AddDevice "Eq8" (-1) [] None))))
    = before ++ new_device :: after /\
    tag new_device = "Eq8" /\
    device_is_on new_device = true.
Proof.
  split; [reflexivity|].
  destruct (apply_change sample_float_str sample_project [0; 0]
              (sample_change "Kick" (AddDevice "Eq8" (-1) [] None)))
    as [root' tracks' [|desc [|? ?]] | ? ?] eqn:Ho;
    try (vm_compute in Ho; discriminate).
  assert (Hdesc : is_error desc = false).
  { vm_compute in Ho. injection Ho as _ _ <-. reflexivity. }
  apply (added_device_reads_on sample_float_str sample_project root' [0; 0] tracks'
           (sample_change "Kick" (AddDevice "Eq8" (-1) [] None))
           "Eq8" (-1)%Z None desc eq_refl Ho Hdesc).
  intros donor q Hd Hq. vm_compute in Hd. injection Hd as <-.
  vm_compute in Hq. injection Hq as <-. vm_compute. discriminate.
Defined.

(* ================================================================= *)
(** ** The inserted clone: identifiers, defaults and the donor *)

Section InsertedClone.

Variable float_str : PyFloat.t -> string.

Lemma descend_same_shape parts cur e e' :
  shape e' = shape e -> descend parts cur e' = descend parts cur e.
Proof.
  intros Hs. revert cur.
  induction parts as [|part rest IH]; intros cur; simpl; [reflexivity|].
  rewrite (find_at_same_shape _ _ e e' Hs). destruct (find_at cur [part] e); auto.
Qed.

Lemma has_value_set_at q q' v e t :
  get_at q e = Some t -> has_attr "Value" t = true ->
  exists t', get_at q (set_at q' "Value" v e) = Some t' /\ has_attr "Value" t' = true.
Proof.
  intros Ht Hv. destruct (list_eq_dec Nat.eq_dec q' q) as [->|Hne].
  - unfold set_at. rewrite get_at_update_at_same, Ht. simpl.
    eexists. split; [reflexivity|].
    destruct t. unfold has_attr. simpl. apply dict_mem_set.
  - pose proof (attrib_elsewhere "Value" v q' q e Hne) as H. rewrite Ht in H. simpl in H.
    destruct (get_at q (set_at q' "Value" v e)) as [t'|]; [|discriminate].
    injection H as H. exists t'. split; [reflexivity|]. unfold has_attr. now rewrite H.
Qed.

(** A parameter path keeps its target when a value is written. *)
Lemma param_target_set_at e path q q' v :
  param_target e path = Some q ->
  param_target (set_at q' "Value" v e) path = Some q.
Proof.
  unfold param_target.
  assert (Hs : shape (set_at q' "Value" v e) = shape e) by apply shape_set_at.
  rewrite (descend_same_shape _ _ _ _ Hs).
  destruct (descend _ [] e) as [cur|]; [|discriminate].
  rewrite (find_at_same_shape _ _ _ _ Hs).
  destruct (find_at cur _ e) as [target|]; [|discriminate].
  rewrite (find_at_same_shape _ _ _ _ Hs).
  destruct (find_at target ["Manual"] e); [auto|].
  destruct (get_at target e) as [t|] eqn:Ht; [|discriminate].
  destruct (has_attr "Value" t) eqn:Hv; [|discriminate].
  intros [= <-]. destruct (has_value_set_at _ q' v _ _ Ht Hv) as (t' & -> & ->).
  reflexivity.
Qed.

Lemma apply_params_targets tag params device device' path q :
  apply_params float_str tag params device = inl device' ->
  param_target device path = Some q -> param_target device' path = Some q.
Proof.
  revert device.
  induction params as [|[path' val] rest IH]; intros device; cbn [apply_params].
  - now intros [= <-].
  - destruct (actual_text float_str tag path' val) as [text|e]; [|discriminate].
    destruct (set_param_value device path' text) as [d1|] eqn:E; [|discriminate].
    apply set_param_value_spec in E as (q' & _ & ->).
    intros H Hq. apply (IH _ H). now apply param_target_set_at.
Qed.

(** After the requested parameters, a value is what it was when no
    parameter addresses it, and otherwise the text asked for by a parameter
    that addresses it. *)
Lemma apply_params_values tag params device device' :
  apply_params float_str tag params device = inl device' ->
  forall p,
    (value_at p device' = value_at p device /\
     forall kv, In kv params -> param_target device' (fst kv) <> Some p) \/
    (exists kv text,
        In kv params /\ param_target device' (fst kv) = Some p /\
        requested_text float_str tag kv = Some text /\
        value_at p device' = Some text).
Proof.
  revert device.
  induction params as [|[path val] rest IH]; intros device; cbn [apply_params].
  - intros [= <-] p. left. split; [reflexivity | intros kv []].
  - destruct (actual_text float_str tag path val) as [text|e] eqn:Ht; [|discriminate].
    destruct (set_param_value device path text) as [d1|] eqn:E; [|discriminate].
    apply set_param_value_spec in E as (q & Hq & ->).
    intros H p.
    assert (Hq' : param_target device' path = Some q).
    { apply (apply_params_targets _ _ _ _ _ _ H). now apply param_target_set_at. }
    destruct (param_target_read_position _ _ _ Hq) as [_ [x Hx]].
    destruct (IH _ H p) as [[Hv Hno] | (kv & t & Hin & Htar & Hreq & Hv)].
    + destruct (list_eq_dec Nat.eq_dec q p) as [<-|Hne].
      * right. exists (path, val), text. repeat split.
        -- now left.
        -- exact Hq'.
        -- unfold requested_text. simpl. now rewrite Ht.
        -- rewrite Hv. now apply value_at_set_at with x.
      * left. split.
        -- rewrite Hv. now apply value_at_elsewhere.
        -- intros kv [<- | Hin]; [simpl; congruence | now apply Hno].
    + right. exists kv, t. repeat split; auto. now right.
Qed.

(** When there is a donor, the parameters can be set and the track has a
    device chain, the clone goes in. *)
Lemma apply_add_device_inserts root tracks_el name track_el tag position params dn
      donor new_device devices_el :
  find_donor_device root tag = Some donor ->
  apply_params float_str tag params (prepare_clone float_str root donor tag)
  = inl new_device ->
  find_at track_el ["DeviceChain"; "DeviceChain"; "Devices"] root = Some devices_el ->
  exists chain k desc,
    get_at devices_el root = Some chain /\
    k <= List.length (children chain) /\
    is_error desc = false /\
    apply_add_device float_str root tracks_el name track_el tag position params dn
    = Return (update_at (insert_child k new_device) devices_el root)
             (shift_pos devices_el k tracks_el) [desc].
Proof.
  intros Hd Hp Hf.
  destruct (apply_add_device_cases float_str root tracks_el name track_el tag position
              params dn)
    as [[_ Hm] | (donor' & devices_el' & chain & k & nd & desc &
                  Hd' & Hp' & Hf' & Hchain & Hk & Hdesc & Ho)].
  - exfalso. unfold apply_add_device in Hm. rewrite Hd, Hp, Hf in Hm.
    destruct ((position =? -1)%Z || _);
      destruct (Hm _ _ _ eq_refl) as (m & [= <-] & He); discriminate He.
  - rewrite Hd in Hd'. injection Hd' as <-. rewrite Hp in Hp'. injection Hp' as <-.
    rewrite Hf in Hf'. injection Hf' as <-. exists chain, k, desc. auto.
Qed.

(** C1.  Applying an insert-device request to a document whose ["Id"]
    values are pairwise distinct leaves a document whose ["Id"] values are
    pairwise distinct.  When the track resolves, the document has a device
    of the requested type (the donor), every requested parameter can be set
    on its clone and the track has a device chain, the request returns one
    description and the document it leaves is the old one with the clone
    inserted in that chain; the clone's identifier-bearing nodes carry, in
    document order, [max + 1], [max + 2], ... where [max] is the greatest
    identifier of the whole document, and the identifiers of the new
    document are these and the old ones.  In every other case the document
    is left as it was. *)
Theorem add_device_keeps_ids_unique :
  forall (root : Element) (tracks_el : pos) (c : change)
         (tag : string) (position : Z) (params : list (string * param_value))
         (dn : option string),
    change_target c = AddDevice tag position params dn ->
    NoDup (ids root) ->
    let o := apply_change float_str root tracks_el c in
    NoDup (ids (outcome_document o)) /\
    (forall track_el donor new_device devices_el,
        resolve_track root tracks_el c = Resolved track_el ->
        find_donor_device root tag = Some donor ->
        apply_params float_str tag params (prepare_clone float_str root donor tag)
        = inl new_device ->
        find_at track_el ["DeviceChain"; "DeviceChain"; "Devices"] root = Some devices_el ->
        exists k desc,
          o = Return (update_at (insert_child k new_device) devices_el root)
                     (shift_pos devices_el k tracks_el) [desc] /\
          is_error desc = false /\
          get_at (devices_el ++ [k]) (outcome_document o) = Some new_device /\
          ids new_device
          = map PyInt.str (Zseq (find_max_id root + 1) (List.length (ids donor))) /\
          Permutation (ids (outcome_document o)) (ids new_device ++ ids root)) /\
    (outcome_document o = root \/
     exists track_el donor new_device devices_el,
       resolve_track root tracks_el c = Resolved track_el /\
       find_donor_device root tag = Some donor /\
       apply_params float_str tag params (prepare_clone float_str root donor tag)
       = inl new_device /\
       find_at track_el ["DeviceChain"; "DeviceChain"; "Devices"] root = Some devices_el).
Proof.
  intros root tracks_el c tag position params dn Hc Hnd o. subst o.
  split; [now apply apply_change_ids_unique|]. split.
  - intros track_el donor nd devices_el Hr Hd Hp Hf.
    destruct (apply_add_device_inserts root tracks_el (track_name c) track_el tag position
                params dn donor nd devices_el Hd Hp Hf)
      as (chain & k & desc & Hchain & Hk & Hdesc & Ho).
    exists k, desc. unfold apply_change. rewrite Hr, Hc, Ho. simpl outcome_document.
    repeat split; auto.
    + now apply get_at_inserted with chain.
    + rewrite (apply_params_ids _ _ _ _ _ Hp). apply ids_prepare_clone.
    + now apply ids_insert_at with chain.
  - unfold apply_change. rewrite Hc.
    destruct (resolve_track root tracks_el c) as [track_el|msg|e];
      [|left; reflexivity|left; reflexivity].
    destruct (apply_add_device_cases float_str root tracks_el (track_name c) track_el tag
                position params dn)
      as [[H _] | (donor & devices_el & chain & k & nd & desc &
                   Hdonor & Hparams & Hfind & _)].
    + now left.
    + right. exists track_el, donor, nd, devices_el. auto.
Qed.

(** C3, as stated, fails when the request sets a reset parameter itself: the
    equalizer added to ["Kick"] with a requested gain of 3 for its first band
    has that gain, not the registered default 0. *)
Lemma clone_defaults_counterexample :
  In (["Bands.0"; "ParameterA"; "Gain"; "Manual"], "0")
     (reset_table sample_float_str "Eq8") /\
  exists root' clone,
    outcome_document
      (apply_change sample_float_str sample_project [0; 0]
         (sample_change "Kick"
            (AddDevice "Eq8" (-1) [("Bands.0/ParameterA/Gain", PText "3")] None)))
    = root' /\
    get_at [0; 0; 1; 1; 1; 0; 0] root' = Some clone /\
    tag clone = "Eq8" /\
    find_path ["Bands.0"; "ParameterA"; "Gain"; "Manual"] clone = Some [1; 0; 1; 0] /\
    value_at [1; 0; 1; 0] clone = Some "3" /\
    "3" <> "0".
Proof.
  split.
  - vm_compute. right. left. reflexivity.
  - eexists. eexists. split; [reflexivity|].
    split; [vm_compute; reflexivity|]. repeat split. discriminate.
Qed.

(** C3, amended.  When an insert-device request succeeds, the new child of
    the track's device chain is a clone such that, wherever a path of the
    type's reset table leads in it (for [Eq8]: the on-switch, gain and Q of
    every band; for [Compressor2]: threshold, ratio, attack, release,
    dry/wet and makeup), the value there is the registered default when no
    requested parameter addresses that element, and the text asked for by a
    requested parameter that addresses it otherwise (the requested
    parameters are applied after the reset); in neither case the donor's
    value.  The donor is unchanged: as long as it does not enclose the
    chain, it is found where it was, one place further on when the clone
    went in before it in the same chain. *)
Theorem clone_defaults_and_donor_frame :
  forall (root root' : Element) (tracks_el tracks' : pos) (c : change)
         (tag : string) (position : Z) (params : list (string * param_value))
         (dn : option string) (desc : string),
    change_target c = AddDevice tag position params dn ->
    apply_change float_str root tracks_el c = Return root' tracks' [desc] ->
    is_error desc = false ->
    exists track_el devices_el k new_device donor_pos donor,
      resolve_track root tracks_el c = Resolved track_el /\
      find_at track_el ["DeviceChain"; "DeviceChain"; "Devices"] root = Some devices_el /\
      k <= List.length (children_at devices_el root) /\
      root' = update_at (insert_child k new_device) devices_el root /\
      get_at (devices_el ++ [k]) root' = Some new_device /\
      (forall path dflt p,
          In (path, dflt) (reset_table float_str tag) ->
          find_path path new_device = Some p ->
          ((forall kv, In kv params -> param_target new_device (fst kv) <> Some p) ->
           value_at p new_device = Some dflt) /\
          ((exists kv, In kv params /\ param_target new_device (fst kv) = Some p) ->
           exists kv text,
             In kv params /\ param_target new_device (fst kv) = Some p /\
             requested_text float_str tag kv = Some text /\
             value_at p new_device = Some text)) /\
      find_donor_pos root tag = Some donor_pos /\
      get_at donor_pos root = Some donor /\
      (is_prefix donor_pos devices_el = false ->
       get_at (shift_pos devices_el k donor_pos) root' = Some donor).
Proof.
  intros root root' tracks_el tracks' c tag position params dn desc Hc Ho Hdesc.
  unfold apply_change in Ho. rewrite Hc in Ho.
  destruct (resolve_track root tracks_el c) as [track_el|msg|e] eqn:Hres;
    [ | injection Ho as <- <- <-; apply resolve_track_failed in Hres; congruence
      | discriminate ].
  destruct (apply_add_device_success _ _ _ _ _ _ _ _ _ _ _ _ Ho Hdesc)
    as (donor & nd & devices_el & chain & Hdonor & Hparams & Hfind & Hchain & H).
  cbv zeta in H. destruct H as (Hk & -> & _).
  set (k := if (position =? -1)%Z || (position >=? Z.of_nat (List.length (children chain)))%Z
            then List.length (children chain)
            else py_insert_index (List.length (children chain)) position) in *.
  unfold find_donor_device in Hdonor.
  destruct (find_donor_pos root tag) as [donor_pos|] eqn:Hpos; [|discriminate].
  exists track_el, devices_el, k, nd, donor_pos, donor.
  split; [reflexivity|]. split; [exact Hfind|].
  split; [unfold children_at; now rewrite Hchain|].
  split; [reflexivity|].
  split; [now apply get_at_inserted with chain|].
  split; [|split; [reflexivity|split; [exact Hdonor|]]].
  - intros path dflt p Hin Hp.
    assert (Hp' : find_path path (prepare_clone float_str root donor tag) = Some p).
    { rewrite <- Hp. symmetry. apply find_path_same_shape.
      exact (apply_params_shape float_str tag params _ _ Hparams). }
    pose proof (prepare_clone_defaults float_str root donor tag path dflt p Hin Hp')
      as Hdflt.
    destruct (apply_params_values _ _ _ _ Hparams p)
      as [[Hv Hno] | (kv & text & Hkv & Htar & Hreq & Hv)].
    + split.
      * intros _. now rewrite Hv.
      * intros (kv & Hkv & Htar). now destruct (Hno kv Hkv).
    + split.
      * intros Hno. now destruct (Hno kv Hkv).
      * intros _. exists kv, text. auto.
  - intros Hpre. rewrite <- Hdonor. now apply get_at_shift_pos with chain.
Qed.

End InsertedClone.

(** The theorem on the sample project: an equalizer is added to ["Kick"];
    the clone gets the identifiers [12] and [13]. *)
Lemma add_device_keeps_ids_unique_witness :
  NoDup (ids sample_project) /\
  NoDup (ids (outcome_document
                (apply_change sample_float_str sample_project [0; 0]
                   (sample_change "Kick" (AddDevice "Eq8" (-1) [] None))))) /\
  find_max_id sample_project = 11%Z /\
  ids (prepare_clone sample_float_str sample_project sample_eq8 "Eq8") = ["12"; "13"] /\
  exists k desc,
    apply_change sample_float_str sample_project [0; 0]
      (sample_change "Kick" (AddDevice "Eq8" (-1) [] None))
    = Return (update_at
                (insert_child k (prepare_clone sample_float_str sample_project
                                               sample_eq8 "Eq8"))
                [0; 0; 1; 1; 1; 0] sample_project)
             (shift_pos [0; 0; 1; 1; 1; 0] k [0; 0]) [desc] /\
    is_error desc = false /\
    Permutation
      (ids (outcome_document
              (apply_change sample_float_str sample_project [0; 0]
                 (sample_change "Kick" (AddDevice "Eq8" (-1) [] None)))))
      (["12"; "13"] ++ ids sample_project).
Proof.
  assert (H : NoDup (ids sample_project)).
  { vm_compute. repeat constructor; simpl; intuition discriminate. }
  destruct (add_device_keeps_ids_unique sample_float_str sample_project [0; 0]
              (sample_change "Kick" (AddDevice "Eq8" (-1) [] None))
              "Eq8" (-1)%Z [] None eq_refl H) as (Hnd & Hins & _).
  assert (Hids : ids (prepare_clone sample_float_str sample_project sample_eq8 "Eq8")
                 = ["12"; "13"]) by (vm_compute; reflexivity).
  split; [exact H|]. split; [exact Hnd|].
  split; [vm_compute; reflexivity|]. split; [exact Hids|].
  destruct (Hins [0; 0; 1] sample_eq8
              (prepare_clone sample_float_str sample_project sample_eq8 "Eq8")
              [0; 0; 1; 1; 1; 0])
    as (k & desc & Ho & Hdesc & _ & _ & Hperm);
    try (vm_compute; reflexivity).
  exists k, desc. rewrite Hids in Hperm. auto.
Defined.

(** The theorem on the sample project: an equalizer is added to ["Kick"]
    without requested parameters; the gain of its first band is the default
    [0], whatever the donor's. *)
Lemma clone_defaults_and_donor_frame_witness :
  value_at [1; 0; 1; 0] sample_eq8 = Some "3.5" /\
  exists root' tracks' desc k new_device,
    apply_change sample_float_str sample_project [0; 0]
      (sample_change "Kick" (AddDevice "Eq8" (-1) [] None))
    = Return root' tracks' [desc] /\
    is_error desc = false /\
    root' = update_at (insert_child k new_device) [0; 0; 1; 1; 1; 0] sample_project /\
    get_at ([0; 0; 1; 1; 1; 0] ++ [k]) root' = Some new_device /\
    find_path ["Bands.0"; "ParameterA"; "Gain"; "Manual"] new_device = Some [1; 0; 1; 0] /\
    value_at [1; 0; 1; 0] new_device = Some "0" /\
    get_at [0; 0; 0; 1; 1; 0; 0] root' = Some sample_eq8.
Proof.
  split; [vm_compute; reflexivity|].
  destruct (apply_change sample_float_str sample_project [0; 0]
              (sample_change "Kick" (AddDevice "Eq8" (-1) [] None)))
    as [root' tracks' [|desc [|? ?]] | ? ?] eqn:Ho;
    try (vm_compute in Ho; discriminate).
  assert (Hdesc : is_error desc = false).
  { vm_compute in Ho. injection Ho as _ _ <-. reflexivity. }
  destruct (clone_defaults_and_donor_frame sample_float_str sample_project root' [0; 0]
              tracks' (sample_change "Kick" (AddDevice "Eq8" (-1) [] None))
              "Eq8" (-1)%Z [] None desc eq_refl Ho Hdesc)
    as (track_el & devices_el & k & nd & donor_pos & donor &
        Hr & Hf & Hk & Hroot & Hnd & Hdefaults & Hpos & Hdonor & Hframe).
  vm_compute in Hr. injection Hr as <-.
  vm_compute in Hf. injection Hf as <-.
  vm_compute in Hpos. injection Hpos as <-.
  vm_compute in Hdonor. injection Hdonor as <-.
  assert (Hk0 : k = 0) by (vm_compute in Hk; lia). subst k.
  exists root', tracks', desc, 0, nd.
  split; [reflexivity|]. split; [exact Hdesc|]. split; [exact Hroot|].
  split; [exact Hnd|].
  assert (Hpath : find_path ["Bands.0"; "ParameterA"; "Gain"; "Manual"] nd
                  = Some [1; 0; 1; 0]).
  { vm_compute in Ho. injection Ho as <- _ _. vm_compute in Hnd. injection Hnd as <-.
    vm_compute. reflexivity. }
  split; [exact Hpath|]. split.
  - apply (proj1 (Hdefaults ["Bands.0"; "ParameterA"; "Gain"; "Manual"] "0" [1; 0; 1; 0]
                    ltac:(vm_compute; right; left; reflexivity) Hpath)).
    intros kv [].
  - apply Hframe. vm_compute. reflexivity.
Defined.
